(** * Minesweeper engine: board, cells, validation and game session

    A shallow embedding of the engine of the repository
    ([src/game/validator.py], [src/game/cell.py], [src/game/board.py],
    [src/game/difficulty.py], [src/game/game_state.py]) together with the
    properties its specification states about it.

    Conventions of the embedding.
    - Python [int] is [Z]; Python [float] is the kernel's binary64 [float].
    - A method that mutates [self] and may raise is a function from the
      object to an [Outcome]: the returned value or the exception raised,
      each with the object as the call left it (a Python exception does not
      roll mutations back).
    - [random.sample] and [datetime.now] are the only sources of
      non-determinism; both are taken as parameters. *)

From Stdlib Require Import ZArith QArith Qround PrimFloat Uint63 FloatOps SpecFloat.
From stdpp Require Import base option list gmap sets strings.

#[local] Open Scope Z_scope.
#[local] Set Warnings "-inexact-float".

(** ** Exceptions

    Every exception of the engine is a [ValueError]; the constructors name
    the [raise] sites (and with them the message). *)

Inductive ValueError : Set :=
| WidthOutOfRange            (* "Width must be between 9 and 30, got ..." *)
| HeightOutOfRange           (* "Height must be between 9 and 30, got ..." *)
| MineCountTooSmall          (* "Mine count must be at least 1, got ..." *)
| MineCountTooLarge          (* "Mine count must be less than total cells ..." *)
| DensityTooHigh             (* "Mine density too high: ..., max 25%" *)
| RowOutOfBounds             (* "Row must be between 0 and ..., got ..." *)
| ColumnOutOfBounds          (* "Column must be between 0 and ..., got ..." *)
| AdjacentMinesOutOfRange    (* "Adjacent mines must be between 0 and 8, got ..." *)
| SampleLargerThanPopulation (* raised by random.sample *)
| CannotMakeMove             (* "Cannot make move in state ..." *)
| CannotExpand.              (* "Cannot expand in state ..." *)

(** The error taxonomy of the specification, by raise site. *)
Inductive ErrorKind : Set :=
| InvalidDimensions | InvalidMineCount | DensityExceeded
| OutOfBounds | IllegalState | InternalError.

Definition error_kind (e : ValueError) : ErrorKind :=
  match e with
  | WidthOutOfRange | HeightOutOfRange => InvalidDimensions
  | MineCountTooSmall | MineCountTooLarge => InvalidMineCount
  | DensityTooHigh => DensityExceeded
  | RowOutOfBounds | ColumnOutOfBounds => OutOfBounds
  | CannotMakeMove | CannotExpand => IllegalState
  | AdjacentMinesOutOfRange | SampleLargerThanPopulation => InternalError
  end.

(** A pure function that returns or raises. *)
Inductive except (A : Type) : Type :=
| Ok (a : A)
| Err (e : ValueError).
Arguments Ok {A} a.
Arguments Err {A} e.

(** A method on an object of type [S]: it returns or raises, and either way
    leaves the object in some state; [OutOfFuel] is the model's answer when a
    [while] loop was cut short by its fuel. *)
Inductive Outcome (S A : Type) : Type :=
| Return (a : A) (s : S)
| Raise (e : ValueError) (s : S)
| OutOfFuel.
Arguments Return {S A} a s.
Arguments Raise {S A} e s.
Arguments OutOfFuel {S A}.

Definition Op (S A : Type) : Type := S → Outcome S A.

Definition op_ret {S A} (a : A) : Op S A := λ s, Return a s.

Definition op_bind {S A B} (f : A → Op S B) (m : Op S A) : Op S B :=
  λ s, match m s with
       | Return a s' => f a s'
       | Raise e s' => Raise e s'
       | OutOfFuel => OutOfFuel
       end.

#[global] Instance Op_ret {S} : MRet (Op S) := @op_ret S.
#[global] Instance Op_bind {S} : MBind (Op S) := @op_bind S.

Definition get {S} : Op S S := λ s, Return s s.
Definition put {S} (s : S) : Op S unit := λ _, Return tt s.
Definition modify {S} (f : S → S) : Op S unit := λ s, Return tt (f s).
Definition raise {S A} (e : ValueError) : Op S A := λ s, Raise e s.

Definition lift_except {S A} (r : except A) : Op S A :=
  match r with Ok a => mret a | Err e => raise e end.

(** [for x in xs: body(x)]. *)
Fixpoint for_ {S A} (xs : list A) (body : A → Op S unit) : Op S unit :=
  match xs with
  | [] => mret tt
  | x :: xs' => body x ;; for_ xs' body
  end.

(** The object an [Outcome] leaves behind, when the call ended. *)
Definition final {S A} (o : Outcome S A) : option S :=
  match o with
  | Return _ s | Raise _ s => Some s
  | OutOfFuel => None
  end.

(** Running a method of a component [get_c s] of a larger object [s]. *)
Definition zoom {S C A} (get_c : S → C) (set_c : C → S → S) (m : Op C A) : Op S A :=
  λ s, match m (get_c s) with
       | Return a c => Return a (set_c c s)
       | Raise e c => Raise e (set_c c s)
       | OutOfFuel => OutOfFuel
       end.

(** ** Python numbers *)

(** [float(z)] for an [int] of magnitude below [2^63] (the conversion is
    exact below [2^53]). *)
Definition float_of_int (z : Z) : float :=
  if z <? 0 then PrimFloat.opp (PrimFloat.of_uint63 (Uint63.of_Z (- z)))
  else PrimFloat.of_uint63 (Uint63.of_Z z).

(** [a / b] on two [int]s: true division. *)
Definition true_div (a b : Z) : float :=
  PrimFloat.div (float_of_int a) (float_of_int b).

(** [int(f)]: truncation toward zero of a finite float (Python raises on
    infinities and NaN, which no caller below can produce). *)
Definition int_of_float (f : float) : Z :=
  match Prim2SF f with
  | S754_finite s m e =>
      let magnitude :=
        if 0 <=? e then Z.shiftl (Z.pos m) e else Z.shiftr (Z.pos m) (- e) in
      if s then - magnitude else magnitude
  | _ => 0
  end.

(** [range(n)]. *)
Definition range (n : Z) : list Z := seqZ 0 n.

(** ** validator.py *)

Definition pos : Type := Z * Z.

Definition validate_board_settings (width height mine_count : Z) : except bool :=
  if (width <? 9) || (width >? 30) then Err WidthOutOfRange
  else if (height <? 9) || (height >? 30) then Err HeightOutOfRange
  else
    let total_cells := width * height in
    if mine_count <? 1 then Err MineCountTooSmall
    else if mine_count >=? total_cells then Err MineCountTooLarge
    else
      let mine_density := true_div mine_count total_cells in
      if PrimFloat.ltb 0.25 mine_density then Err DensityTooHigh
      else Ok true.

Definition validate_position (row col width height : Z) : except bool :=
  if (row <? 0) || (row >=? height) then Err RowOutOfBounds
  else if (col <? 0) || (col >=? width) then Err ColumnOutOfBounds
  else Ok true.

Definition get_adjacent_positions (row col width height : Z) : list pos :=
  dr ← [-1; 0; 1];
  dc ← [-1; 0; 1];
  if (dr =? 0) && (dc =? 0) then []
  else
    let new_row := row + dr in
    let new_col := col + dc in
    if (0 <=? new_row) && (new_row <? height) && (0 <=? new_col) && (new_col <? width)
    then [(new_row, new_col)]
    else [].

Definition suggest_reasonable_settings (width height : Z) : Z :=
  let total_cells := width * height in
  let suggested_mines := int_of_float (PrimFloat.mul (float_of_int total_cells) 0.15) in
  let suggested_mines := Z.max 1 suggested_mines in
  let suggested_mines := Z.min suggested_mines (total_cells - 1) in
  suggested_mines.

(** ** cell.py *)

(** The three state classes; the methods dispatch on the class. *)
Module CellState.
Inductive t : Set := HiddenState | RevealedState | FlaggedState.

#[global] Instance eq_dec : EqDecision t.
Proof. solve_decision. Defined.

Definition reveal (s : t) : t :=
  match s with
  | HiddenState => RevealedState
  | RevealedState => RevealedState
  | FlaggedState => FlaggedState
  end.

Definition flag (s : t) : t :=
  match s with
  | HiddenState => FlaggedState
  | RevealedState => RevealedState
  | FlaggedState => HiddenState
  end.

Definition can_reveal (s : t) : bool :=
  match s with HiddenState => true | RevealedState => false | FlaggedState => false end.

Definition can_flag (s : t) : bool :=
  match s with HiddenState => true | RevealedState => false | FlaggedState => true end.
End CellState.

Module Cell.
Import CellState.

Record t : Type := mk {
  row : Z;
  col : Z;
  _state : CellState.t;
  is_mine : bool;
  adjacent_mines : Z
}.

(** [Cell(row, col)]. *)
Definition new (row col : Z) : t := mk row col HiddenState false 0.

Definition can_reveal (c : t) : bool := CellState.can_reveal (_state c).
Definition can_flag (c : t) : bool := CellState.can_flag (_state c).

Definition reveal (c : t) : t :=
  if can_reveal c
  then mk (row c) (col c) (CellState.reveal (_state c)) (is_mine c) (adjacent_mines c)
  else c.

Definition flag (c : t) : t :=
  if can_flag c
  then mk (row c) (col c) (CellState.flag (_state c)) (is_mine c) (adjacent_mines c)
  else c.

Definition is_revealed (c : t) : bool :=
  match _state c with RevealedState => true | _ => false end.
Definition is_flagged (c : t) : bool :=
  match _state c with FlaggedState => true | _ => false end.
Definition is_hidden (c : t) : bool :=
  match _state c with HiddenState => true | _ => false end.

Definition set_mine (c : t) : t :=
  mk (row c) (col c) (_state c) true (adjacent_mines c).

Definition set_adjacent_mines (count : Z) (c : t) : except t :=
  if negb ((0 <=? count) && (count <=? 8)) then Err AdjacentMinesOutOfRange
  else Ok (mk (row c) (col c) (_state c) (is_mine c) count).
End Cell.

(** ** board.py *)

(** What [random.sample(population, k)] may return: [k] distinct elements of
    the population or, when [k] is negative or exceeds the population,
    a [ValueError]. *)
Definition Sampler : Type := list pos → Z → except (list pos).

Definition sampler_ok (random_sample : Sampler) : Prop :=
  ∀ (population : list pos) (k : Z),
    NoDup population →
    match random_sample population k with
    | Ok sample =>
        0 ≤ k ≤ Z.of_nat (length population) ∧
        Z.of_nat (length sample) = k ∧ NoDup sample ∧ sample ⊆ population
    | Err e =>
        e = SampleLargerThanPopulation ∧ ¬ (0 ≤ k ≤ Z.of_nat (length population))
    end.

Module Board.

Record t : Type := mk {
  width : Z;
  height : Z;
  mine_count : Z;
  cells : list (list Cell.t);
  revealed_count : Z;
  flagged_count : Z;
  first_click : bool;
  mine_positions : gset pos
}.

Definition set_cells (g : list (list Cell.t)) (b : t) : t :=
  mk (width b) (height b) (mine_count b) g (revealed_count b) (flagged_count b)
     (first_click b) (mine_positions b).
Definition set_revealed_count (n : Z) (b : t) : t :=
  mk (width b) (height b) (mine_count b) (cells b) n (flagged_count b)
     (first_click b) (mine_positions b).
Definition set_flagged_count (n : Z) (b : t) : t :=
  mk (width b) (height b) (mine_count b) (cells b) (revealed_count b) n
     (first_click b) (mine_positions b).
Definition set_first_click (f : bool) (b : t) : t :=
  mk (width b) (height b) (mine_count b) (cells b) (revealed_count b) (flagged_count b)
     f (mine_positions b).
Definition set_mine_positions (m : gset pos) (b : t) : t :=
  mk (width b) (height b) (mine_count b) (cells b) (revealed_count b) (flagged_count b)
     (first_click b) m.

Definition _initialize_grid (width height : Z) : list (list Cell.t) :=
  (λ row, (λ col, Cell.new row col) <$> range width) <$> range height.

(** [Board(width, height, mine_count)]. *)
Definition new (width height mine_count : Z) : t :=
  mk width height mine_count (_initialize_grid width height) 0 0 true ∅.

(** [self.cells[row][col]]. Every index that reaches the grid has passed
    [validate_position] or comes from [get_adjacent_positions] or from the
    sampled positions, so it lies inside the grid (see [grid_ok]); the
    default is never returned on such a board. *)
Definition cell_at (b : t) (p : pos) : Cell.t :=
  default (Cell.new p.1 p.2) (cells b !! Z.to_nat p.1 ≫= (.!! Z.to_nat p.2)).

(** A mutation of the cell object stored at [self.cells[row][col]]. *)
Definition update_cell (f : Cell.t → Cell.t) (p : pos) (b : t) : t :=
  set_cells (alter (alter f (Z.to_nat p.2)) (Z.to_nat p.1) (cells b)) b.

Definition _count_adjacent_mines (b : t) (row col : Z) : Z :=
  foldl (λ count adj, if Cell.is_mine (cell_at b adj) then count + 1 else count)
        0 (get_adjacent_positions row col (width b) (height b)).

Definition _calculate_adjacent_mines : Op t unit :=
  b0 ← get;
  for_ (range (height b0)) (λ row,
    for_ (range (width b0)) (λ col,
      b ← get;
      if negb (Cell.is_mine (cell_at b (row, col))) then
        let adjacent_mines := _count_adjacent_mines b row col in
        cell ← lift_except (Cell.set_adjacent_mines adjacent_mines (cell_at b (row, col)));
        put (update_cell (λ _, cell) (row, col) b)
      else mret tt)).

Definition all_positions (b : t) (safe_row safe_col : Z) : list pos :=
  row ← range (height b);
  col ← range (width b);
  if bool_decide ((row, col) ≠ (safe_row, safe_col)) then [(row, col)] else [].

Section WithSampler.
Context (random_sample : Sampler).

Definition generate_mines (safe_row safe_col : Z) : Op t unit :=
    b ← get;
    if bool_decide (mine_positions b ≠ ∅) then mret tt
    else
      sample ← lift_except
        (random_sample (all_positions b safe_row safe_col) (mine_count b));
      put (set_mine_positions (list_to_set sample) b);;
      for_ (elements (list_to_set sample : gset pos))
           (λ p, modify (update_cell Cell.set_mine p));;
      _calculate_adjacent_mines.

(** The body of the inner [for] loop of the flood fill, for one adjacent
    position. The work list [to_reveal] is kept with its last element
    first, so that [append] is a cons and [pop()] takes the head. *)
Definition flood_visit (acc : t * list pos) (adj : pos) : t * list pos :=
  let '(b, to_reveal) := acc in
  let adj_cell := cell_at b adj in
  if Cell.is_hidden adj_cell && negb (Cell.is_flagged adj_cell) then
    let b := update_cell Cell.reveal adj b in
    let b := set_revealed_count (revealed_count b + 1) b in
    if (Cell.adjacent_mines adj_cell =? 0) && negb (Cell.is_mine adj_cell)
    then (b, adj :: to_reveal)
    else (b, to_reveal)
  else (b, to_reveal).

(** The [while to_reveal:] loop, one iteration per unit of fuel; [None]
    when the fuel runs out before the work list does. *)
Fixpoint flood_loop (fuel : nat) (to_reveal : list pos) (revealed : gset pos)
    (b : t) : option t :=
  match fuel with
  | O => None
  | S fuel =>
      match to_reveal with
      | [] => Some b
      | current :: to_reveal =>
          if bool_decide (current ∈ revealed) then flood_loop fuel to_reveal revealed b
          else
            let revealed := {[current]} ∪ revealed in
            let adjacent_positions :=
              get_adjacent_positions current.1 current.2 (width b) (height b) in
            let '(b, to_reveal) := foldl flood_visit (b, to_reveal) adjacent_positions in
            flood_loop fuel to_reveal revealed b
      end
  end.

(** Every iteration pops one position and pushes at most one per cell it
    turns from hidden to revealed, so two more than the number of cells is
    enough fuel (see [flood_loop_terminates]). *)
Definition flood_fuel (b : t) : nat := S (S (sum_list (length <$> cells b))).

Definition _reveal_adjacent_empty_cells (row col : Z) : Op t unit :=
  λ b, match flood_loop (flood_fuel b) [(row, col)] ∅ b with
       | Some b' => Return tt b'
       | None => OutOfFuel
       end.

Definition reveal_cell (row col : Z) : Op t bool :=
  b ← get;
  lift_except (validate_position row col (width b) (height b));;
  if negb (Cell.can_reveal (cell_at b (row, col))) then mret false
  else
    (if first_click b
     then generate_mines row col;; modify (set_first_click false)
     else mret tt);;
    modify (update_cell Cell.reveal (row, col));;
    modify (λ b, set_revealed_count (revealed_count b + 1) b);;
    b ← get;
    let cell := cell_at b (row, col) in
    (if (Cell.adjacent_mines cell =? 0) && negb (Cell.is_mine cell)
     then _reveal_adjacent_empty_cells row col
     else mret tt);;
    mret true.

Definition flag_cell (row col : Z) : Op t bool :=
  b ← get;
  lift_except (validate_position row col (width b) (height b));;
  if negb (Cell.can_flag (cell_at b (row, col))) then mret false
  else
    let was_flagged := Cell.is_flagged (cell_at b (row, col)) in
    modify (update_cell Cell.flag (row, col));;
    b ← get;
    let cell := cell_at b (row, col) in
    (if was_flagged && negb (Cell.is_flagged cell)
     then modify (λ b, set_flagged_count (flagged_count b - 1) b)
     else if negb was_flagged && Cell.is_flagged cell
     then modify (λ b, set_flagged_count (flagged_count b + 1) b)
     else mret tt);;
    mret true.

(** The first loop of [expand_adjacent_cells]: the number of flagged
    neighbours and the list of hidden ones. *)
Definition scan_adjacent (b : t) (adjacent_positions : list pos) : Z * list pos :=
  foldl (λ '(flag_count, hidden_adjacent) adj,
           let adj_cell := cell_at b adj in
           if Cell.is_flagged adj_cell then (flag_count + 1, hidden_adjacent)
           else if Cell.is_hidden adj_cell then (flag_count, hidden_adjacent ++ [adj])
           else (flag_count, hidden_adjacent))
        (0, []) adjacent_positions.

(** Its second loop: [if self.reveal_cell(...): revealed.add(...)]. *)
Fixpoint reveal_hidden_adjacent (hidden_adjacent : list pos) (revealed : gset pos)
    : Op t (gset pos) :=
  match hidden_adjacent with
  | [] => mret revealed
  | adj :: rest =>
      ok ← reveal_cell adj.1 adj.2;
      reveal_hidden_adjacent rest (if ok : bool then {[adj]} ∪ revealed else revealed)
  end.

Definition expand_adjacent_cells (row col : Z) : Op t (gset pos) :=
  b ← get;
  lift_except (validate_position row col (width b) (height b));;
  let cell := cell_at b (row, col) in
  if negb (Cell.is_revealed cell) || (Cell.adjacent_mines cell =? 0) then mret ∅
  else
    let adjacent_positions := get_adjacent_positions row col (width b) (height b) in
    let '(flag_count, hidden_adjacent) := scan_adjacent b adjacent_positions in
    if bool_decide (flag_count ≠ Cell.adjacent_mines cell) then mret ∅
    else reveal_hidden_adjacent hidden_adjacent ∅.

End WithSampler.

Definition check_win_condition (b : t) : bool :=
  let total_non_mine_cells := width b * height b - mine_count b in
  revealed_count b =? total_non_mine_cells.

Definition check_lose_condition (b : t) : bool :=
  existsb (λ p, Cell.is_revealed (cell_at b p)) (elements (mine_positions b)).

End Board.


(** ** difficulty.py *)

Record DifficultyLevel : Type := mkDifficultyLevel {
  name : string;
  dl_width : Z;
  dl_height : Z;
  mines : Z
}.

Definition BEGINNER : DifficultyLevel := mkDifficultyLevel "Beginner" 9 9 10.
Definition INTERMEDIATE : DifficultyLevel := mkDifficultyLevel "Intermediate" 16 16 40.
Definition ADVANCED : DifficultyLevel := mkDifficultyLevel "Advanced" 30 16 99.

Definition create_custom_difficulty (width height mines : Z) : except DifficultyLevel :=
  match validate_board_settings width height mines with
  | Ok _ => Ok (mkDifficultyLevel "Custom" width height mines)
  | Err e => Err e
  end.

(** ** game_state.py *)

Inductive GameState : Set := NEW | PLAYING | PAUSED | WON | LOST.

#[global] Instance GameState_eq_dec : EqDecision GameState.
Proof. solve_decision. Defined.

Module GameSession.

Record t : Type := mk {
  id : string;
  difficulty : DifficultyLevel;
  board : Board.t;
  state : GameState;
  start_time : option Z;
  end_time : option Z;
  moves_count : Z;
  flags_used : Z
}.

Definition set_board (b : Board.t) (s : t) : t :=
  mk (id s) (difficulty s) b (state s) (start_time s) (end_time s)
     (moves_count s) (flags_used s).
Definition set_state (st : GameState) (s : t) : t :=
  mk (id s) (difficulty s) (board s) st (start_time s) (end_time s)
     (moves_count s) (flags_used s).
Definition set_start_time (x : option Z) (s : t) : t :=
  mk (id s) (difficulty s) (board s) (state s) x (end_time s)
     (moves_count s) (flags_used s).
Definition set_end_time (x : option Z) (s : t) : t :=
  mk (id s) (difficulty s) (board s) (state s) (start_time s) x
     (moves_count s) (flags_used s).
Definition set_moves_count (n : Z) (s : t) : t :=
  mk (id s) (difficulty s) (board s) (state s) (start_time s) (end_time s)
     n (flags_used s).
Definition set_flags_used (n : Z) (s : t) : t :=
  mk (id s) (difficulty s) (board s) (state s) (start_time s) (end_time s)
     (moves_count s) n.

(** [GameSession(difficulty, session_id)]; the identifier, generated by
    [uuid.uuid4()] when absent, is a parameter. *)
Definition new (difficulty : DifficultyLevel) (session_id : string) : t :=
  mk session_id difficulty
     (Board.new (dl_width difficulty) (dl_height difficulty) (mines difficulty))
     NEW None None 0 0.

(** Each [now] below is the value [datetime.now()] returns at that call. *)
Definition start_game (now : Z) : Op t unit :=
  s ← get;
  if bool_decide (state s = NEW)
  then modify (set_state PLAYING);; modify (set_start_time (Some now))
  else mret tt.

Section WithSampler.
Context (random_sample : Sampler).

Definition make_move (now_start now_end : Z) (row col : Z) (action : string)
    : Op t bool :=
  s ← get;
  (if bool_decide (state s ≠ PLAYING ∧ state s ≠ NEW) then raise CannotMakeMove
   else mret tt);;
  (if bool_decide (state s = NEW) then start_game now_start else mret tt);;
  if bool_decide (action = "reveal") then
    success ← zoom board set_board (Board.reveal_cell random_sample row col);
    (if success : bool then
       modify (λ s, set_moves_count (moves_count s + 1) s);;
       s ← get;
       if Board.check_lose_condition (board s)
       then modify (set_state LOST);; modify (set_end_time (Some now_end))
       else if Board.check_win_condition (board s)
       then modify (set_state WON);; modify (set_end_time (Some now_end))
       else mret tt
     else mret tt);;
    mret success
  else if bool_decide (action = "flag") then
    success ← zoom board set_board (Board.flag_cell row col);
    (if success : bool
     then modify (λ s, set_flags_used (flags_used s + 1) s)
     else mret tt);;
    mret success
  else mret false.

Definition expand_adjacent (now : Z) (row col : Z) : Op t bool :=
  s ← get;
  (if bool_decide (state s ≠ PLAYING) then raise CannotExpand else mret tt);;
  expanded ← zoom board set_board (Board.expand_adjacent_cells random_sample row col);
  (if bool_decide (expanded ≠ (∅ : gset pos)) then
     modify (λ s, set_moves_count (moves_count s + 1) s);;
     s ← get;
     if Board.check_win_condition (board s)
     then modify (set_state WON);; modify (set_end_time (Some now))
     else mret tt
   else mret tt);;
  mret (bool_decide (0 < size expanded)%nat).

End WithSampler.

Definition pause_game : Op t unit :=
  s ← get;
  if bool_decide (state s = PLAYING) then modify (set_state PAUSED) else mret tt.

Definition resume_game : Op t unit :=
  s ← get;
  if bool_decide (state s = PAUSED) then modify (set_state PLAYING) else mret tt.

Definition is_game_over (s : t) : bool :=
  bool_decide (state s = WON ∨ state s = LOST).

Definition is_game_active (s : t) : bool :=
  bool_decide (state s = PLAYING ∨ state s = PAUSED).

End GameSession.

(** ** A family of concrete samplers

    [sample_preferring favourites] answers like [random.sample] and draws
    the favourites that are in the population first, then the rest of the
    population in order. It is one of the behaviours [random.sample] can
    show, and is used to run the engine on concrete games. *)
Definition sample_preferring (favourites : list pos) : Sampler :=
  λ population k,
    if (k <? 0) || (Z.of_nat (length population) <? k) then Err SampleLargerThanPopulation
    else
      let favourites := remove_dups favourites in
      Ok (take (Z.to_nat k)
               (filter (λ p, p ∈ population) favourites
                ++ filter (λ p, p ∉ favourites) population)).

(** The outcome of a call, read as the object it leaves (the object
    unchanged when the model ran out of fuel, which [flood_loop_terminates]
    excludes on every well-formed board). *)
Definition after {S A} (m : Op S A) (s : S) : S := default s (final (m s)).

Definition returned {S A} (o : Outcome S A) : option A :=
  match o with Return a _ => Some a | _ => None end.

(** ** Checking a decidable property on an interval of integers *)

(** [holds_from ok n z]: [ok] holds at [z], [z+1], ..., [z+n-1]. *)
Fixpoint holds_from (ok : Z → bool) (n : nat) (z : Z) : bool :=
  match n with
  | O => true
  | S n => if ok z then holds_from ok n (z + 1) else false
  end.

(** The float comparison of [validate_board_settings] against the exact
    comparison of [mine_count / total_cells] with one quarter. *)
Definition density_check_agrees (total_cells mine_count : Z) : bool :=
  Bool.eqb (PrimFloat.ltb 0.25 (true_div mine_count total_cells))
           (total_cells <? 4 * mine_count).

(** The float product of [suggest_reasonable_settings], truncated, against
    the integer part of fifteen hundredths of [total_cells]. *)
Definition suggestion_agrees (total_cells : Z) : bool :=
  int_of_float (PrimFloat.mul (float_of_int total_cells) 0.15) =? 15 * total_cells / 100.

(** ** The formula of the specification for the suggested mine count *)

Definition clamp (x lo hi : Z) : Z := Z.min (Z.max lo x) hi.

(** Rounding to the nearest integer (halves upward). *)
Definition round_nearest (q : Q) : Z := Qfloor (q + (1 # 2))%Q.

Definition spec_suggest_mine_count (width height : Z) : Z :=
  clamp (round_nearest (inject_Z (width * height) * (15 # 100))%Q) 1 (width * height - 1).

(** ** Vocabulary of the properties of the board *)

(** A position inside the board. *)
Definition in_bounds (b : Board.t) (p : pos) : Prop :=
  0 ≤ p.1 < Board.height b ∧ 0 ≤ p.2 < Board.width b.

(** The grid has [height] rows of [width] cells, as [_initialize_grid]
    builds it. *)
Definition grid_ok (b : Board.t) : Prop :=
  length (Board.cells b) = Z.to_nat (Board.height b) ∧
  Forall (λ cs, length cs = Z.to_nat (Board.width b)) (Board.cells b).

(** The number of elements of a list that satisfy [P]. *)
Definition tally {A} (P : A → bool) (l : list A) : nat :=
  sum_list ((λ x, if P x then 1%nat else 0%nat) <$> l).

(** The number of cells of the grid that satisfy [P]. *)
Definition grid_count (P : Cell.t → bool) (b : Board.t) : nat :=
  sum_list (tally P <$> Board.cells b).

(** The running totals agree with the grid. *)
Definition counters_ok (b : Board.t) : Prop :=
  Board.revealed_count b = Z.of_nat (grid_count Cell.is_revealed b) ∧
  Board.flagged_count b = Z.of_nat (grid_count Cell.is_flagged b).

(** The neighbours of [p] on board [b]. *)
Definition neighbours (b : Board.t) (p : pos) : list pos :=
  get_adjacent_positions p.1 p.2 (Board.width b) (Board.height b).

(** The number of positions of [mine_positions] among the neighbours of
    [p], read off the set and not off the cells. *)
Definition mines_around (b : Board.t) (p : pos) : Z :=
  Z.of_nat (length (filter (λ q, q ∈ Board.mine_positions b) (neighbours b p))).

(** Every non-mine cell carries the number of mines around it. *)
Definition counts_ok (b : Board.t) : Prop :=
  ∀ p, in_bounds b p → Cell.is_mine (Board.cell_at b p) = false →
       Cell.adjacent_mines (Board.cell_at b p) = mines_around b p.

(** The cells marked as mines are the positions of [mine_positions]. *)
Definition mines_marked (b : Board.t) : Prop :=
  (∀ p, p ∈ Board.mine_positions b → in_bounds b p) ∧
  (∀ p, in_bounds b p → Cell.is_mine (Board.cell_at b p) = true ↔ p ∈ Board.mine_positions b).

(** Hoare triples for methods: from a state in [P] the call ends, either
    returning [a] in a state with [Q a] or raising [e] in a state with
    [E e]. *)
Definition hoare {S A} (P : S → Prop) (m : Op S A)
    (Q : A → S → Prop) (E : ValueError → S → Prop) : Prop :=
  ∀ s, P s → match m s with
             | Return a s' => Q a s'
             | Raise e s' => E e s'
             | OutOfFuel => False
             end.

(** ** Vocabulary of the flood fill *)

(** A cell without a mine and without a mine around it: the cells the flood
    fill expands from. *)
Definition is_empty_cell (c : Cell.t) : bool :=
  (Cell.adjacent_mines c =? 0) && negb (Cell.is_mine c).

(** What a reveal may do to a cell: nothing, or turn it from hidden to
    revealed. *)
Definition cell_step (c c' : Cell.t) : Prop :=
  c' = c ∨ (Cell._state c = CellState.HiddenState ∧ c' = Cell.reveal c).

(** Everything of a board but its cells and its count of revealed cells. *)
Definition same_frame (b b' : Board.t) : Prop :=
  Board.width b' = Board.width b ∧ Board.height b' = Board.height b ∧
  Board.mine_count b' = Board.mine_count b ∧
  Board.flagged_count b' = Board.flagged_count b ∧
  Board.first_click b' = Board.first_click b ∧
  Board.mine_positions b' = Board.mine_positions b.

(** [b'] is [b] with some hidden cells revealed. *)
Definition reveals_only (b b' : Board.t) : Prop :=
  same_frame b b' ∧
  ∀ p, in_bounds b p → cell_step (Board.cell_at b p) (Board.cell_at b' p).

(** [p] is linked to [p0] by a chain of adjacent positions inside [R]. *)
Inductive connected (b : Board.t) (R : pos → Prop) (p0 : pos) : pos → Prop :=
| connected_start : R p0 → connected b R p0 p0
| connected_step q p :
    connected b R p0 q → p ∈ neighbours b q → R p → connected b R p0 p.

(** The flood fill with a ghost log: the positions on which
    [adj_cell.reveal()] is called, in the order of the calls. The log does
    not influence the run (see [flood_loop_log_erase]). *)
Definition flood_visit_log (acc : Board.t * list pos * list pos) (adj : pos)
    : Board.t * list pos * list pos :=
  let '(b, to_reveal, log) := acc in
  let adj_cell := Board.cell_at b adj in
  (Board.flood_visit (b, to_reveal) adj,
   if Cell.is_hidden adj_cell && negb (Cell.is_flagged adj_cell)
   then log ++ [adj] else log).

Fixpoint flood_loop_log (fuel : nat) (to_reveal : list pos) (revealed : gset pos)
    (b : Board.t) (log : list pos) : option (Board.t * list pos) :=
  match fuel with
  | O => None
  | S fuel =>
      match to_reveal with
      | [] => Some (b, log)
      | current :: to_reveal =>
          if bool_decide (current ∈ revealed)
          then flood_loop_log fuel to_reveal revealed b log
          else
            let revealed := {[current]} ∪ revealed in
            let adjacent_positions :=
              get_adjacent_positions current.1 current.2 (Board.width b) (Board.height b) in
            let '(b, to_reveal, log) :=
              foldl flood_visit_log (b, to_reveal, log) adjacent_positions in
            flood_loop_log fuel to_reveal revealed b log
      end
  end.

(** The invariant of the flood fill started at [p0] on board [b0]: the
    state of the loop is the board [b], the work list [to_reveal], the set
    [revealed] of expanded positions and the log; [cur] is the position
    being expanded, inside the [for] loop. *)
Record flood_inv (b0 : Board.t) (p0 : pos) (cur : option pos) (b : Board.t)
    (to_reveal : list pos) (revealed : gset pos) (log : list pos) : Prop := {
  fi_grid : grid_ok b;
  fi_frame : reveals_only b0 b;
  fi_start : in_bounds b0 p0;
  fi_nodup : NoDup log;
  fi_log : ∀ p, p ∈ log →
    in_bounds b0 p ∧ Cell._state (Board.cell_at b0 p) = CellState.HiddenState ∧
    Cell._state (Board.cell_at b p) = CellState.RevealedState;
  fi_changed : ∀ p, in_bounds b0 p → Board.cell_at b p ≠ Board.cell_at b0 p → p ∈ log;
  fi_revealed_count :
    Board.revealed_count b = Board.revealed_count b0 + Z.of_nat (length log);
  fi_hidden :
    (grid_count Cell.is_hidden b + length log = grid_count Cell.is_hidden b0)%nat;
  fi_revealed :
    (grid_count Cell.is_revealed b = grid_count Cell.is_revealed b0 + length log)%nat;
  fi_flagged : grid_count Cell.is_flagged b = grid_count Cell.is_flagged b0;
  fi_stack : ∀ p, p ∈ to_reveal →
    (p = p0 ∨ p ∈ log) ∧ is_empty_cell (Board.cell_at b0 p) = true;
  fi_cur : ∀ p, cur = Some p →
    (p = p0 ∨ p ∈ log) ∧ is_empty_cell (Board.cell_at b0 p) = true;
  fi_seen : ∀ p, p ∈ revealed → ∀ q, q ∈ neighbours b0 p →
    Cell.is_hidden (Board.cell_at b q) = false;
  fi_pending : ∀ p, p = p0 ∨ p ∈ log → is_empty_cell (Board.cell_at b0 p) = true →
    p ∈ to_reveal ∨ p ∈ revealed ∨ cur = Some p;
  fi_connected : ∀ p, p ∈ log → connected b0 (λ q, q = p0 ∨ q ∈ log) p0 p;
  fi_safe :
    (∀ p, in_bounds b0 p → is_empty_cell (Board.cell_at b0 p) = true →
          ∀ q, q ∈ neighbours b0 p → Cell.is_mine (Board.cell_at b0 q) = false) →
    ∀ p, p ∈ log → Cell.is_mine (Board.cell_at b0 p) = false
}.

(** The part of [reveal_cell] that follows the first-click block. *)
Definition reveal_tail (p : pos) (b1 : Board.t) : Outcome Board.t bool :=
  let b2 := Board.set_revealed_count (Board.revealed_count b1 + 1)
              (Board.update_cell Cell.reveal p b1) in
  if is_empty_cell (Board.cell_at b2 p) then
    match Board.flood_loop (Board.flood_fuel b2) [p] ∅ b2 with
    | Some bf => Return true bf
    | None => OutOfFuel
    end
  else Return true b2.

(** The board [b1] with the cell at [p] revealed and counted: the state of
    [reveal_cell] when it reaches the flood fill. *)
Definition reveal_one (p : pos) (b1 : Board.t) : Board.t :=
  Board.set_revealed_count (Board.revealed_count b1 + 1)
    (Board.update_cell Cell.reveal p b1).

(** The log of the flood fill that [reveal_cell] runs at [p], and the empty
    log when it runs none. *)
Definition reveal_log (p : pos) (b1 : Board.t) : list pos :=
  let b2 := reveal_one p b1 in
  if is_empty_cell (Board.cell_at b2 p) then
    match flood_loop_log (Board.flood_fuel b2) [p] ∅ b2 [] with
    | Some (_, log) => log
    | None => []
    end
  else [].

(** What a successful reveal at the hidden position [p] of [b1] leaves:
    the board [bf], in which exactly [p] and the positions of [log] went
    from hidden to revealed. *)
Record reveal_post (b1 : Board.t) (p : pos) (bf : Board.t) (log : list pos) : Prop := {
  rp_grid : grid_ok bf;
  rp_frame : reveals_only b1 bf;
  rp_revealed_count :
    Board.revealed_count bf = Board.revealed_count b1 + 1 + Z.of_nat (length log);
  rp_revealed :
    (grid_count Cell.is_revealed bf = grid_count Cell.is_revealed b1 + 1 + length log)%nat;
  rp_flagged : grid_count Cell.is_flagged bf = grid_count Cell.is_flagged b1;
  rp_nodup : NoDup (p :: log);
  rp_log : ∀ q, q ∈ p :: log →
    in_bounds b1 q ∧ Cell._state (Board.cell_at b1 q) = CellState.HiddenState ∧
    Cell._state (Board.cell_at bf q) = CellState.RevealedState;
  rp_changed : ∀ q, in_bounds b1 q → Board.cell_at bf q ≠ Board.cell_at b1 q → q ∈ p :: log;
  rp_no_fill : is_empty_cell (Board.cell_at b1 p) = false → log = [];
  rp_closed : ∀ q, q ∈ p :: log → is_empty_cell (Board.cell_at b1 q) = true →
    ∀ q', q' ∈ neighbours b1 q → Cell.is_hidden (Board.cell_at bf q') = false;
  rp_connected : ∀ q, q ∈ p :: log → connected b1 (λ q', q' ∈ p :: log) p q;
  rp_safe :
    (∀ q, in_bounds b1 q → is_empty_cell (Board.cell_at b1 q) = true →
          ∀ q', q' ∈ neighbours b1 q → Cell.is_mine (Board.cell_at b1 q') = false) →
    ∀ q, q ∈ log → Cell.is_mine (Board.cell_at b1 q) = false
}.

(** ** Vocabulary of mine generation *)

(** Everything of a board but its cells. *)
Definition same_but_cells (b b' : Board.t) : Prop :=
  Board.width b' = Board.width b ∧ Board.height b' = Board.height b ∧
  Board.mine_count b' = Board.mine_count b ∧
  Board.revealed_count b' = Board.revealed_count b ∧
  Board.flagged_count b' = Board.flagged_count b ∧
  Board.first_click b' = Board.first_click b ∧
  Board.mine_positions b' = Board.mine_positions b.

(** The loop [for row, col in self.mine_positions: ...set_mine()]. *)
Definition place_mines (ps : list pos) (b : Board.t) : Board.t :=
  foldl (λ b p, Board.update_cell Cell.set_mine p b) b ps.

(** The cells of [b'] are those of [b] up to [adjacent_mines], which has
    been recomputed at the non-mine cells of [D] and is untouched at the
    mine cells. *)
Definition recount_inv (b : Board.t) (D : pos → Prop) (b' : Board.t) : Prop :=
  same_but_cells b b' ∧ grid_ok b' ∧
  grid_count Cell.is_revealed b' = grid_count Cell.is_revealed b ∧
  grid_count Cell.is_flagged b' = grid_count Cell.is_flagged b ∧
  ∀ p, in_bounds b p →
    Cell.row (Board.cell_at b' p) = Cell.row (Board.cell_at b p) ∧
    Cell.col (Board.cell_at b' p) = Cell.col (Board.cell_at b p) ∧
    Cell._state (Board.cell_at b' p) = Cell._state (Board.cell_at b p) ∧
    Cell.is_mine (Board.cell_at b' p) = Cell.is_mine (Board.cell_at b p) ∧
    (Cell.is_mine (Board.cell_at b p) = true →
     Cell.adjacent_mines (Board.cell_at b' p) = Cell.adjacent_mines (Board.cell_at b p)) ∧
    (Cell.is_mine (Board.cell_at b p) = false → D p →
     Cell.adjacent_mines (Board.cell_at b' p) = Board._count_adjacent_mines b p.1 p.2).

(** [b'] is [b] up to the mines: same dimensions, counters and first-click
    flag, and every cell in the state it had. *)
Definition keeps_states (b b' : Board.t) : Prop :=
  Board.width b' = Board.width b ∧ Board.height b' = Board.height b ∧
  Board.mine_count b' = Board.mine_count b ∧
  Board.revealed_count b' = Board.revealed_count b ∧
  Board.flagged_count b' = Board.flagged_count b ∧
  Board.first_click b' = Board.first_click b ∧
  grid_ok b' ∧
  grid_count Cell.is_revealed b' = grid_count Cell.is_revealed b ∧
  grid_count Cell.is_flagged b' = grid_count Cell.is_flagged b ∧
  ∀ p, in_bounds b p →
    Cell._state (Board.cell_at b' p) = Cell._state (Board.cell_at b p).

(** [b'] is [b] up to the states of the cells, the counters and the
    first-click flag: the mines and the counts around them are those of
    [b]. *)
Definition keeps_mines (b b' : Board.t) : Prop :=
  Board.width b' = Board.width b ∧ Board.height b' = Board.height b ∧
  Board.mine_count b' = Board.mine_count b ∧
  Board.mine_positions b' = Board.mine_positions b ∧
  ∀ p, in_bounds b p →
    Cell.is_mine (Board.cell_at b' p) = Cell.is_mine (Board.cell_at b p) ∧
    Cell.adjacent_mines (Board.cell_at b' p) = Cell.adjacent_mines (Board.cell_at b p).

(** A board on which no mine has been placed yet. *)
Definition unmined (b : Board.t) : Prop :=
  grid_ok b ∧ Board.mine_positions b = ∅ ∧
  ∀ p, in_bounds b p → Cell.is_mine (Board.cell_at b p) = false.

(** A board whose mines are in place: [mine_count] of them, marked in the
    cells, with the counts around them. *)
Definition mined (b : Board.t) : Prop :=
  grid_ok b ∧ mines_marked b ∧ counts_ok b ∧
  Z.of_nat (size (Board.mine_positions b)) = Board.mine_count b.

(** ** Sequences of public operations *)

Inductive BoardOp : Set :=
| OpReveal (row col : Z)
| OpFlag (row col : Z)
| OpExpand (row col : Z).

Section Run.
Context (random_sample : Sampler).

(** A call of a public method, its result dropped. *)
Definition perform (op : BoardOp) : Op Board.t unit :=
  match op with
  | OpReveal row col => Board.reveal_cell random_sample row col;; mret tt
  | OpFlag row col => Board.flag_cell row col;; mret tt
  | OpExpand row col => Board.expand_adjacent_cells random_sample row col;; mret tt
  end.

(** The board after a sequence of calls, whether they returned or raised;
    [None] when a call ran out of fuel. *)
Fixpoint run (ops : list BoardOp) (b : Board.t) : option Board.t :=
  match ops with
  | [] => Some b
  | op :: ops => final (perform op b) ≫= run ops
  end.

(** Where [reveal_cell] stands when it reveals the cell: on the board
    itself, or on the board with its mines generated when this is the first
    click. *)
Definition reveal_start (row col : Z) (b b1 : Board.t) : Prop :=
  (Board.first_click b = false ∧ b1 = b) ∨
  (Board.first_click b = true ∧
   ∃ bg, Board.generate_mines random_sample row col b = Return tt bg ∧
         b1 = Board.set_first_click false bg).

End Run.

(** A board that has seen its first reveal. *)
Definition played (b : Board.t) : Prop := mined b ∧ Board.first_click b = false.

(** The number of flagged cells among the neighbours of [p]. *)
Definition flagged_around (b : Board.t) (p : pos) : Z :=
  Z.of_nat (length (filter (λ q, Cell._state (Board.cell_at b q) = CellState.FlaggedState)
                           (neighbours b p))).

(** The hidden neighbours of [p], in the order of [get_adjacent_positions]. *)
Definition hidden_around (b : Board.t) (p : pos) : list pos :=
  filter (λ q, Cell._state (Board.cell_at b q) = CellState.HiddenState) (neighbours b p).

(** The chord gate of [expand_adjacent_cells]: the target is revealed,
    carries a positive count, and has that many flagged neighbours. *)
Definition chord_gate (b : Board.t) (p : pos) : Prop :=
  Cell._state (Board.cell_at b p) = CellState.RevealedState ∧
  Cell.adjacent_mines (Board.cell_at b p) ≠ 0 ∧
  flagged_around b p = Cell.adjacent_mines (Board.cell_at b p).

(** The board after a successful [flag_cell] at [p]. *)
Definition flag_one (p : pos) (b : Board.t) : Board.t :=
  let delta :=
    match Cell._state (Board.cell_at b p) with
    | CellState.HiddenState => 1
    | CellState.FlaggedState => -1
    | CellState.RevealedState => 0
    end in
  Board.set_flagged_count (Board.flagged_count b + delta) (Board.update_cell Cell.flag p b).

(** A board as the constructor and the calls before the first successful
    reveal leave it: no mine, every count at zero, the first click
    pending. *)
Definition fresh (b : Board.t) : Prop :=
  unmined b ∧ Board.first_click b = true ∧
  ∀ p, in_bounds b p → Cell.adjacent_mines (Board.cell_at b p) = 0.

(** A beginner game with one mine in the top left corner and nine along
    the bottom row: a reveal next to the corner, then a flag on the wrong
    neighbour. *)
Definition wrong_flag_sampler : Sampler :=
  sample_preferring [(0,0); (8,0); (8,1); (8,2); (8,3); (8,4); (8,5); (8,6); (8,7); (8,8)].

Definition wrong_flag_game : GameSession.t :=
  after (GameSession.make_move wrong_flag_sampler 3 4 0 1 "flag")
    (after (GameSession.make_move wrong_flag_sampler 1 2 1 1 "reveal")
       (GameSession.new BEGINNER "game")).

(** A beginner game after a first reveal at (1, 1), with the mines drawn
    from the top left corner on. *)
Definition corner_sampler : Sampler := sample_preferring [(0, 0)].

Definition first_move_game : GameSession.t :=
  after (GameSession.make_move corner_sampler 1 2 1 1 "reveal")
    (GameSession.new BEGINNER "game").

(** The positions of the grid, row by row. *)
Definition grid_positions (b : Board.t) : list pos :=
  row ← range (Board.height b); col ← range (Board.width b); [(row, col)].

(** ** Sequences of calls on a session *)

Inductive SessionOp : Set :=
| SMove (now_start now_end row col : Z) (action : string)
| SExpand (now row col : Z)
| SPause
| SResume.

Section SessionRun.
Context (random_sample : Sampler).

(** A call of a method of the session, its result dropped. *)
Definition session_perform (op : SessionOp) : Op GameSession.t unit :=
  match op with
  | SMove now_start now_end row col action =>
      GameSession.make_move random_sample now_start now_end row col action;; mret tt
  | SExpand now row col => GameSession.expand_adjacent random_sample now row col;; mret tt
  | SPause => GameSession.pause_game
  | SResume => GameSession.resume_game
  end.

(** The session after a sequence of calls, whether they returned or
    raised. *)
Fixpoint session_run (ops : list SessionOp) (s : GameSession.t) : option GameSession.t :=
  match ops with
  | [] => Some s
  | op :: ops => final (session_perform op s) ≫= session_run ops
  end.

End SessionRun.

(** What holds of a session all along a game that began as [s0]. *)
Definition session_ok (s0 s : GameSession.t) : Prop :=
  grid_ok (GameSession.board s) ∧ counters_ok (GameSession.board s) ∧
  (GameSession.state s = NEW → s = s0) ∧
  (GameSession.start_time s = None ↔ GameSession.state s = NEW) ∧
  (GameSession.end_time s = None ↔
   GameSession.state s ≠ WON ∧ GameSession.state s ≠ LOST) ∧
  (GameSession.state s = LOST →
   Board.check_lose_condition (GameSession.board s) = true) ∧
  (GameSession.state s = WON →
   Board.check_win_condition (GameSession.board s) = true) ∧
  0 ≤ GameSession.moves_count s ∧ 0 ≤ GameSession.flags_used s.

(** * Properties *)

(** ** The validator *)

Lemma holds_from_spec ok n z k :
  holds_from ok n z = true → z ≤ k < z + Z.of_nat n → ok k = true.
Proof.
  revert z. induction n as [|n IH]; intros z H Hk; [lia|].
  simpl in H. destruct (ok z) eqn:Hz; [|done].
  destruct (decide (k = z)) as [->|]; [done|].
  apply (IH (z + 1)); [done|lia].
Qed.

(** On every board size that passes the dimension checks the binary64
    quotient exceeds [0.25] exactly when the rational one does. *)
Lemma density_check_table :
  holds_from (λ t, holds_from (density_check_agrees t) (Z.to_nat (t - 1)) 1) 820 81 = true.
Proof. vm_compute. reflexivity. Qed.

Lemma density_check_exact total_cells mine_count :
  81 ≤ total_cells ≤ 900 → 1 ≤ mine_count < total_cells →
  PrimFloat.ltb 0.25 (true_div mine_count total_cells) = (total_cells <? 4 * mine_count).
Proof.
  intros Ht Hm.
  pose proof (holds_from_spec _ _ _ total_cells density_check_table) as H1.
  cbv beta in H1. specialize (H1 ltac:(lia)).
  pose proof (holds_from_spec _ _ _ mine_count H1 ltac:(lia)) as H2.
  unfold density_check_agrees in H2. by apply eqb_prop in H2.
Qed.

Lemma density_as_rational mine_count total_cells :
  0 < total_cells →
  (inject_Z mine_count / inject_Z total_cells <= 1 # 4)%Q ↔ 4 * mine_count ≤ total_cells.
Proof.
  intros Ht. destruct total_cells as [|p|p]; try lia.
  unfold Qle, Qdiv, Qmult, Qinv, inject_Z. simpl. lia.
Qed.

Lemma validate_board_settings_iff width height mine_count :
  validate_board_settings width height mine_count = Ok true ↔
  9 ≤ width ≤ 30 ∧ 9 ≤ height ≤ 30 ∧ 1 ≤ mine_count < width * height ∧
  4 * mine_count ≤ width * height.
Proof.
  unfold validate_board_settings.
  destruct (width <? 9) eqn:W1; [simpl; split; [done|lia]|].
  destruct (width >? 30) eqn:W2; [simpl; split; [done|lia]|].
  destruct (height <? 9) eqn:H1; [simpl; split; [done|lia]|].
  destruct (height >? 30) eqn:H2; [simpl; split; [done|lia]|].
  destruct (mine_count <? 1) eqn:M1; [simpl; split; [done|lia]|].
  destruct (mine_count >=? width * height) eqn:M2; [simpl; split; [done|lia]|].
  simpl. rewrite density_check_exact by nia.
  destruct (width * height <? 4 * mine_count) eqn:D; split; try done; lia.
Qed.

(** C8. [validate_board_settings] succeeds exactly when both dimensions lie
    in [9, 30], the mine count lies in [1, width*height) and the density
    [mine_count / (width*height)] is at most one quarter; it accepts
    (9,9,10) and (20,20,100), rejects (8,9,10) for its dimensions and
    (10,10,30) for its density. *)
Theorem validate_board_settings_spec :
  (∀ width height mine_count : Z,
     validate_board_settings width height mine_count = Ok true ↔
     9 ≤ width ≤ 30 ∧ 9 ≤ height ≤ 30 ∧ 1 ≤ mine_count < width * height ∧
     (inject_Z mine_count / inject_Z (width * height) <= 1 # 4)%Q)
  ∧ validate_board_settings 9 9 10 = Ok true
  ∧ validate_board_settings 20 20 100 = Ok true
  ∧ (∃ e, validate_board_settings 8 9 10 = Err e ∧ error_kind e = InvalidDimensions)
  ∧ (∃ e, validate_board_settings 10 10 30 = Err e ∧ error_kind e = DensityExceeded).
Proof.
  split; [|repeat split; try (eexists; split); vm_compute; reflexivity].
  intros width height mine_count. rewrite validate_board_settings_iff.
  split.
  - intros (Hw & Hh & Hm & Hd). repeat split; try lia.
    apply density_as_rational; [nia|done].
  - intros (Hw & Hh & Hm & Hd). repeat split; try lia.
    apply density_as_rational in Hd; [done|nia].
Qed.

Lemma suggestion_table : holds_from suggestion_agrees (Z.to_nat 10001) 0 = true.
Proof. vm_compute. reflexivity. Qed.

(** C9, as the specification states it, fails: on a 9 by 11 board fifteen
    hundredths of the 99 cells is 14.85, which the code truncates to 14
    where rounding to the nearest integer gives 15. *)
Lemma suggest_reasonable_settings_not_rounded :
  suggest_reasonable_settings 9 11 = 14 ∧ spec_suggest_mine_count 9 11 = 15.
Proof. split; vm_compute; reflexivity. Qed.

(** C9, amended. For every board of at most ten thousand cells the
    suggested mine count is the integer part of [width*height*0.15] (the
    fraction is dropped, not rounded), clamped to [1, width*height - 1]. *)
Theorem suggest_reasonable_settings_truncates (width height : Z) :
  0 ≤ width * height ≤ 10000 →
  suggest_reasonable_settings width height =
  clamp (15 * (width * height) / 100) 1 (width * height - 1).
Proof.
  intros Ht. unfold suggest_reasonable_settings, clamp.
  pose proof (holds_from_spec _ _ _ (width * height) suggestion_table) as H.
  rewrite Z2Nat.id in H by lia. specialize (H ltac:(lia)).
  unfold suggestion_agrees in H. apply Z.eqb_eq in H. by rewrite H.
Qed.

Lemma suggest_reasonable_settings_truncates_witness :
  0 ≤ 9 * 11 ≤ 10000 ∧
  suggest_reasonable_settings 9 11 = clamp (15 * (9 * 11) / 100) 1 (9 * 11 - 1).
Proof.
  split; [lia|]. apply (suggest_reasonable_settings_truncates 9 11). lia.
Defined.

(** ** The grid *)

Lemma sum_list_alter {A} (g : A → nat) (f : A → A) (l : list A) (i : nat) (x : A) :
  l !! i = Some x →
  (sum_list (g <$> alter f i l) + g x = sum_list (g <$> l) + g (f x))%nat.
Proof.
  revert i. induction l as [|y l IH]; intros [|i] H; simplify_eq/=; [lia|].
  specialize (IH _ H). lia.
Qed.

Lemma grid_lookup b p :
  grid_ok b → in_bounds b p →
  ∃ cs c, Board.cells b !! Z.to_nat p.1 = Some cs ∧ cs !! Z.to_nat p.2 = Some c.
Proof.
  intros [Hh Hw] [Hr Hc].
  destruct (lookup_lt_is_Some_2 (Board.cells b) (Z.to_nat p.1)) as [cs Hcs]; [lia|].
  pose proof (Forall_lookup_1 _ _ _ _ Hw Hcs) as Hlen. simpl in Hlen.
  destruct (lookup_lt_is_Some_2 cs (Z.to_nat p.2)) as [c Hc']; [lia|].
  eauto.
Qed.

Lemma cell_at_lookup b p cs c :
  Board.cells b !! Z.to_nat p.1 = Some cs → cs !! Z.to_nat p.2 = Some c →
  Board.cell_at b p = c.
Proof. intros H1 H2. unfold Board.cell_at. rewrite H1. simpl. by rewrite H2. Qed.

Lemma grid_ok_update f p b : grid_ok b → grid_ok (Board.update_cell f p b).
Proof.
  intros [Hh Hw]. split; simpl.
  - by rewrite length_alter.
  - apply Forall_alter; [done|]. intros cs _ Hcs. by rewrite length_alter.
Qed.

Lemma cell_at_update_eq f p b :
  grid_ok b → in_bounds b p →
  Board.cell_at (Board.update_cell f p b) p = f (Board.cell_at b p).
Proof.
  intros Hg Hp. destruct (grid_lookup b p Hg Hp) as (cs & c & H1 & H2).
  rewrite (cell_at_lookup b p cs c H1 H2).
  apply (cell_at_lookup _ p (alter f (Z.to_nat p.2) cs)); simpl.
  - by rewrite list_lookup_alter_eq, H1.
  - by rewrite list_lookup_alter_eq, H2.
Qed.

Lemma cell_at_update_ne f p q b :
  0 ≤ p.1 → 0 ≤ p.2 → 0 ≤ q.1 → 0 ≤ q.2 → p ≠ q →
  Board.cell_at (Board.update_cell f p b) q = Board.cell_at b q.
Proof.
  intros Hp1 Hp2 Hq1 Hq2 Hne. unfold Board.cell_at, Board.update_cell. simpl.
  destruct (decide (Z.to_nat p.1 = Z.to_nat q.1)) as [E1|N1].
  - rewrite E1, list_lookup_alter_eq.
    destruct (Board.cells b !! Z.to_nat q.1) as [cs|]; simpl; [|done].
    rewrite list_lookup_alter_ne; [done|].
    intros E2. apply Hne. destruct p, q; simpl in *. f_equal; lia.
  - by rewrite list_lookup_alter_ne.
Qed.

Lemma grid_count_update P f p b :
  grid_ok b → in_bounds b p →
  (grid_count P (Board.update_cell f p b) + (if P (Board.cell_at b p) then 1 else 0)
   = grid_count P b + (if P (f (Board.cell_at b p)) then 1 else 0))%nat.
Proof.
  intros Hg Hp. destruct (grid_lookup b p Hg Hp) as (cs & c & H1 & H2).
  rewrite (cell_at_lookup b p cs c H1 H2). unfold grid_count. simpl.
  pose proof (sum_list_alter (tally P) (alter f (Z.to_nat p.2)) _ _ _ H1) as Ha.
  pose proof (sum_list_alter (λ x, if P x then 1%nat else 0%nat) f _ _ _ H2) as Hb.
  unfold tally in *. lia.
Qed.

(** ** Adjacent positions *)

Lemma elem_of_three {A} (x a b c : A) : x ∈ [a; b; c] ↔ x = a ∨ x = b ∨ x = c.
Proof. rewrite !elem_of_cons, elem_of_nil. tauto. Qed.

Lemma elem_of_get_adjacent_positions row col width height (q : pos) :
  q ∈ get_adjacent_positions row col width height ↔
  (0 ≤ q.1 < height ∧ 0 ≤ q.2 < width) ∧
  row - 1 ≤ q.1 ≤ row + 1 ∧ col - 1 ≤ q.2 ≤ col + 1 ∧ q ≠ (row, col).
Proof.
  unfold get_adjacent_positions. rewrite list_elem_of_bind. split.
  - intros (dr & Hq & Hdr). rewrite list_elem_of_bind in Hq.
    destruct Hq as (dc & Hq & Hdc).
    destruct ((dr =? 0) && (dc =? 0)) eqn:Hz; [by apply elem_of_nil in Hq|].
    destruct ((0 <=? row + dr) && (row + dr <? height) && (0 <=? col + dc)
              && (col + dc <? width)) eqn:Hb; [|by apply elem_of_nil in Hq].
    apply list_elem_of_singleton in Hq. subst q. simpl.
    apply elem_of_three in Hdr, Hdc.
    repeat split; try lia. intros [= E1 E2]. lia.
  - intros ((Hr & Hc) & Hdr & Hdc & Hne).
    exists (q.1 - row). split.
    + rewrite list_elem_of_bind. exists (q.2 - col). split.
      * replace (row + (q.1 - row)) with q.1 by lia.
        replace (col + (q.2 - col)) with q.2 by lia.
        destruct ((q.1 - row =? 0) && (q.2 - col =? 0)) eqn:Hz.
        { exfalso. apply Hne. destruct q; simpl in *. f_equal; lia. }
        destruct ((0 <=? q.1) && (q.1 <? height) && (0 <=? q.2) && (q.2 <? width)) eqn:Hb;
          [destruct q; apply list_elem_of_singleton; done | lia].
      * apply elem_of_three. lia.
    + apply elem_of_three. lia.
Qed.

Lemma neighbours_in_bounds b p q : q ∈ neighbours b p → in_bounds b q.
Proof. unfold neighbours. rewrite elem_of_get_adjacent_positions. by intros [? _]. Qed.

Lemma neighbours_ne b p q : q ∈ neighbours b p → q ≠ p.
Proof.
  unfold neighbours. rewrite elem_of_get_adjacent_positions.
  intros (_ & _ & _ & Hne). by destruct p.
Qed.

Lemma get_adjacent_positions_length row col width height :
  (length (get_adjacent_positions row col width height) ≤ 8)%nat.
Proof.
  unfold get_adjacent_positions. cbn [mbind list_bind app].
  rewrite !Z.eqb_refl. cbn [andb orb negb Z.eqb app].
  repeat lazymatch goal with
  | |- context [if ?c then [?x] else []] => destruct c
  end; simpl; lia.
Qed.

(** ** Steps of a cell and of a board *)

Lemma cell_step_refl c : cell_step c c.
Proof. by left. Qed.

Lemma cell_step_trans c1 c2 c3 : cell_step c1 c2 → cell_step c2 c3 → cell_step c1 c3.
Proof.
  intros [->|[H1 ->]] [->|[H2 ->]]; try (by left); try (by right).
  destruct c1 as [r c s m a]. simpl in *. subst s. by cbv in H2.
Qed.

Lemma cell_step_is_mine c c' : cell_step c c' → Cell.is_mine c' = Cell.is_mine c.
Proof. intros [->|[_ ->]]; [done|]. unfold Cell.reveal. by destruct (Cell.can_reveal c). Qed.

Lemma cell_step_adjacent_mines c c' :
  cell_step c c' → Cell.adjacent_mines c' = Cell.adjacent_mines c.
Proof. intros [->|[_ ->]]; [done|]. unfold Cell.reveal. by destruct (Cell.can_reveal c). Qed.

Lemma cell_step_is_empty c c' : cell_step c c' → is_empty_cell c' = is_empty_cell c.
Proof.
  intros H. unfold is_empty_cell.
  by rewrite (cell_step_is_mine _ _ H), (cell_step_adjacent_mines _ _ H).
Qed.

Lemma cell_step_not_hidden c c' :
  cell_step c c' → Cell.is_hidden c = false → Cell.is_hidden c' = false.
Proof.
  intros [->|[H ->]]; [done|]. unfold Cell.is_hidden. by rewrite H.
Qed.

Lemma cell_step_flagged c c' :
  cell_step c c' → Cell._state c = CellState.FlaggedState → c' = c.
Proof. intros [->|[H ->]]; [done|]. congruence. Qed.

Lemma cell_step_revealed c c' :
  cell_step c c' → Cell._state c = CellState.RevealedState → c' = c.
Proof. intros [->|[H ->]]; [done|]. congruence. Qed.

Lemma reveal_hidden_state c :
  Cell._state c = CellState.HiddenState →
  Cell._state (Cell.reveal c) = CellState.RevealedState.
Proof. intros H. unfold Cell.reveal, Cell.can_reveal. by rewrite H. Qed.

Lemma same_frame_refl b : same_frame b b.
Proof. by repeat split. Qed.

Lemma same_frame_trans b1 b2 b3 : same_frame b1 b2 → same_frame b2 b3 → same_frame b1 b3.
Proof. unfold same_frame. intros (?&?&?&?&?&?) (?&?&?&?&?&?). repeat split; congruence. Qed.

Lemma same_frame_in_bounds b b' p : same_frame b b' → in_bounds b' p ↔ in_bounds b p.
Proof. intros (Hw & Hh & _). unfold in_bounds. by rewrite Hw, Hh. Qed.

Lemma same_frame_neighbours b b' p : same_frame b b' → neighbours b' p = neighbours b p.
Proof. intros (Hw & Hh & _). unfold neighbours. by rewrite Hw, Hh. Qed.

Lemma reveals_only_refl b : reveals_only b b.
Proof. split; [apply same_frame_refl|]. intros p _. apply cell_step_refl. Qed.

Lemma reveals_only_trans b1 b2 b3 :
  reveals_only b1 b2 → reveals_only b2 b3 → reveals_only b1 b3.
Proof.
  intros [F1 C1] [F2 C2]. split; [by eapply same_frame_trans|].
  intros p Hp. eapply cell_step_trans; [by apply C1|].
  apply C2. by apply (same_frame_in_bounds b1 b2).
Qed.

Lemma connected_mono b (R R' : pos → Prop) p0 p :
  (∀ q, R q → R' q) → connected b R p0 p → connected b R' p0 p.
Proof.
  intros HR. induction 1 as [|q p _ IH Hq Hp]; [by apply connected_start; auto|].
  eapply connected_step; eauto.
Qed.

(** ** The flood fill *)

Lemma flood_visit_log_fst acc adj :
  (flood_visit_log acc adj).1 = Board.flood_visit acc.1 adj.
Proof. by destruct acc as [[b s] l]. Qed.

Lemma flood_fold_log_fst adjs acc :
  (foldl flood_visit_log acc adjs).1 = foldl Board.flood_visit acc.1 adjs.
Proof.
  revert acc. induction adjs as [|a adjs IH]; intros acc; [done|].
  simpl. by rewrite IH, flood_visit_log_fst.
Qed.

(** The log is a ghost: dropping it gives the loop of the source. *)
Lemma flood_loop_log_erase fuel to_reveal revealed b log :
  fst <$> flood_loop_log fuel to_reveal revealed b log
  = Board.flood_loop fuel to_reveal revealed b.
Proof.
  revert to_reveal revealed b log.
  induction fuel as [|fuel IH]; intros to_reveal revealed b log; [done|].
  simpl. destruct to_reveal as [|cur rest]; [done|].
  case_bool_decide; [apply IH|].
  pose proof (flood_fold_log_fst
    (get_adjacent_positions cur.1 cur.2 (Board.width b) (Board.height b)) (b, rest, log)) as E.
  destruct (foldl flood_visit_log _ _) as [[b' s'] l']. simpl in E. rewrite <- E. apply IH.
Qed.

Lemma flood_visit_log_hidden b stack log adj :
  Cell._state (Board.cell_at b adj) = CellState.HiddenState →
  flood_visit_log (b, stack, log) adj =
  (Board.set_revealed_count (Board.revealed_count b + 1) (Board.update_cell Cell.reveal adj b),
   (if is_empty_cell (Board.cell_at b adj) then adj :: stack else stack),
   log ++ [adj]).
Proof.
  intros H. unfold flood_visit_log, Board.flood_visit, Cell.is_hidden, Cell.is_flagged,
    is_empty_cell. rewrite H. simpl.
  by destruct ((Cell.adjacent_mines (Board.cell_at b adj) =? 0)
               && negb (Cell.is_mine (Board.cell_at b adj))).
Qed.

Lemma flood_visit_log_other b stack log adj :
  Cell._state (Board.cell_at b adj) ≠ CellState.HiddenState →
  flood_visit_log (b, stack, log) adj = (b, stack, log).
Proof.
  intros H. unfold flood_visit_log, Board.flood_visit, Cell.is_hidden, Cell.is_flagged.
  by destruct (Cell._state (Board.cell_at b adj)).
Qed.

Lemma cell_at_set_revealed_count n b p :
  Board.cell_at (Board.set_revealed_count n b) p = Board.cell_at b p.
Proof. done. Qed.

Lemma grid_count_set_revealed_count P n b :
  grid_count P (Board.set_revealed_count n b) = grid_count P b.
Proof. done. Qed.

Lemma cell_at_update_other f p q b :
  in_bounds b p → in_bounds b q → p ≠ q →
  Board.cell_at (Board.update_cell f p b) q = Board.cell_at b q.
Proof. intros [??] [??] ?. apply cell_at_update_ne; lia || done. Qed.

Lemma grid_count_reveal b p :
  grid_ok b → in_bounds b p →
  Cell._state (Board.cell_at b p) = CellState.HiddenState →
  (grid_count Cell.is_hidden (Board.update_cell Cell.reveal p b) + 1
   = grid_count Cell.is_hidden b)%nat ∧
  (grid_count Cell.is_revealed (Board.update_cell Cell.reveal p b)
   = grid_count Cell.is_revealed b + 1)%nat ∧
  grid_count Cell.is_flagged (Board.update_cell Cell.reveal p b)
  = grid_count Cell.is_flagged b.
Proof.
  intros Hg Hp Hh.
  pose proof (grid_count_update Cell.is_hidden Cell.reveal p b Hg Hp) as H1.
  pose proof (grid_count_update Cell.is_revealed Cell.reveal p b Hg Hp) as H2.
  pose proof (grid_count_update Cell.is_flagged Cell.reveal p b Hg Hp) as H3.
  pose proof (reveal_hidden_state _ Hh) as Hr.
  unfold Cell.is_hidden, Cell.is_revealed, Cell.is_flagged in *.
  rewrite Hr, Hh in H1, H2, H3. lia.
Qed.

(** One neighbour handled by the inner loop. *)
Lemma flood_visit_inv b0 p0 cur b stack seen log adj :
  flood_inv b0 p0 (Some cur) b stack seen log →
  adj ∈ neighbours b0 cur →
  ∃ b' stack' log',
    flood_visit_log (b, stack, log) adj = (b', stack', log') ∧
    flood_inv b0 p0 (Some cur) b' stack' seen log' ∧
    Cell.is_hidden (Board.cell_at b' adj) = false ∧
    reveals_only b b' ∧
    (length stack' + grid_count Cell.is_hidden b'
     ≤ length stack + grid_count Cell.is_hidden b)%nat.
Proof.
  intros Inv Hadj.
  assert (in_bounds b0 adj) as Hb0 by (by eapply neighbours_in_bounds).
  destruct (decide (Cell._state (Board.cell_at b adj) = CellState.HiddenState)) as [Hh|Hh].
  2:{ rewrite flood_visit_log_other by done. eexists _, _, _. split; [done|].
      split; [done|]. split; [|split; [apply reveals_only_refl|lia]].
      unfold Cell.is_hidden. by destruct (Cell._state (Board.cell_at b adj)). }
  rewrite flood_visit_log_hidden by done. eexists _, _, _. split; [done|].
  destruct Inv as [Hgrid [Hfr Hcells] Hstart Hnd Hlog Hchg Hrc Hhid Hrev Hflg Hstk Hcur
                   Hseen Hpend Hconn Hsafe].
  assert (in_bounds b adj) as Hb by (by apply (same_frame_in_bounds b0 b)).
  assert (Board.cell_at b adj = Board.cell_at b0 adj) as Heq.
  { destruct (Hcells adj Hb0) as [E|[_ E]]; [done|].
    rewrite E in Hh. unfold Cell.reveal in Hh.
    destruct (Cell.can_reveal (Board.cell_at b0 adj)) eqn:Hc; simpl in Hh.
    - by destruct (Cell._state (Board.cell_at b0 adj)).
    - unfold Cell.can_reveal in Hc. rewrite Hh in Hc. done. }
  assert (adj ∉ log) as Hnin.
  { intros Hin. destruct (Hlog adj Hin) as (_ & _ & Hr). congruence. }
  set (b1 := Board.update_cell Cell.reveal adj b).
  set (b' := Board.set_revealed_count (Board.revealed_count b + 1) b1).
  assert (Board.cell_at b' adj = Cell.reveal (Board.cell_at b adj)) as Hnew.
  { unfold b', b1. rewrite cell_at_set_revealed_count. by apply cell_at_update_eq. }
  assert (∀ p, in_bounds b0 p → p ≠ adj → Board.cell_at b' p = Board.cell_at b p) as Hold.
  { intros p Hp Hne. unfold b', b1. rewrite cell_at_set_revealed_count.
    apply cell_at_update_other; [done| |done]. by apply (same_frame_in_bounds b0 b). }
  assert (cur = p0 ∨ cur ∈ log) as Hcur_in by (by apply Hcur).
  assert (is_empty_cell (Board.cell_at b0 cur) = true) as Hcur_empty by (by apply Hcur).
  assert (same_frame b b') as Hfr'.
  { by repeat split. }
  assert (reveals_only b b') as Hstep.
  { split; [done|]. intros p Hp. destruct (decide (p = adj)) as [->|Hne].
    - rewrite Hnew. by right.
    - rewrite Hold; [by left| |done]. by apply (same_frame_in_bounds b0 b) in Hp. }
  split; [|split; [|split]].
  - split.
    + unfold b'. destruct (grid_ok_update Cell.reveal adj b Hgrid). by split.
    + by apply (reveals_only_trans b0 b b').
    + done.
    + apply NoDup_app. split; [done|]. split; [|apply NoDup_singleton].
      intros x Hx Hx'. apply list_elem_of_singleton in Hx'. by subst x.
    + intros p Hp. apply elem_of_app in Hp as [Hp|Hp].
      * destruct (Hlog p Hp) as (Hpb & Hp0 & Hp1). split; [done|]. split; [done|].
        rewrite Hold; [done|done|]. intros ->. done.
      * apply list_elem_of_singleton in Hp. subst p. split; [done|].
        split; [by rewrite <- Heq|]. rewrite Hnew. by apply reveal_hidden_state.
    + intros p Hp Hne. destruct (decide (p = adj)) as [->|Hpa].
      * apply elem_of_app. right. by apply list_elem_of_singleton.
      * apply elem_of_app. left. apply Hchg; [done|]. by rewrite <- Hold.
    + unfold b'. simpl. rewrite Hrc, length_app. simpl. lia.
    + unfold b'. rewrite grid_count_set_revealed_count, length_app. simpl.
      destruct (grid_count_reveal b adj Hgrid Hb Hh) as (Hc & _ & _). fold b1 in Hc. lia.
    + unfold b'. rewrite grid_count_set_revealed_count, length_app. simpl.
      destruct (grid_count_reveal b adj Hgrid Hb Hh) as (_ & Hc & _). fold b1 in Hc. lia.
    + unfold b'. rewrite grid_count_set_revealed_count.
      destruct (grid_count_reveal b adj Hgrid Hb Hh) as (_ & _ & Hc). fold b1 in Hc. lia.
    + intros p Hp.
      assert (p = adj ∧ is_empty_cell (Board.cell_at b adj) = true ∨ p ∈ stack) as [[-> He]|Hp'].
      { destruct (is_empty_cell (Board.cell_at b adj)); [|by right].
        apply elem_of_cons in Hp as [->|Hp]; [by left|by right]. }
      * split; [|by rewrite <- Heq]. right. apply elem_of_app. right.
        by apply list_elem_of_singleton.
      * destruct (Hstk p Hp') as [[->|Hin] He]; (split; [|done]); [by left|].
        right. apply elem_of_app. by left.
    + intros p [= <-]. split; [|done]. destruct Hcur_in as [->|Hin]; [by left|].
      right. apply elem_of_app. by left.
    + intros p Hp q Hq. assert (in_bounds b0 q) as Hqb by (by eapply neighbours_in_bounds).
      eapply cell_step_not_hidden; [|by eapply Hseen].
      destruct Hstep as [_ Hstep]. apply Hstep. by apply (same_frame_in_bounds b0 b).
    + intros p Hp He.
      assert (p = p0 ∨ p ∈ log ∨ p = adj) as [->|[Hin| ->]].
      { destruct Hp as [->|Hp]; [by left|]. right.
        apply elem_of_app in Hp as [Hp|Hp]; [by left|right].
        by apply list_elem_of_singleton in Hp. }
      * destruct (Hpend p0 (or_introl eq_refl) He) as [Hs|[Hs|Hs]]; [|by right; left|by right; right].
        left. destruct (is_empty_cell (Board.cell_at b adj)); [by apply elem_of_cons; right|done].
      * destruct (Hpend p (or_intror Hin) He) as [Hs|[Hs|Hs]]; [|by right; left|by right; right].
        left. destruct (is_empty_cell (Board.cell_at b adj)); [by apply elem_of_cons; right|done].
      * left. rewrite Heq, He. apply elem_of_cons. by left.
    + intros p Hp.
      assert (∀ q, q = p0 ∨ q ∈ log → q = p0 ∨ q ∈ log ++ [adj]) as Hmono.
      { intros q [->|Hq]; [by left|right]. apply elem_of_app. by left. }
      assert (connected b0 (λ q, q = p0 ∨ q ∈ log ++ [adj]) p0 cur) as Hcc.
      { destruct Hcur_in as [->|Hin].
        - apply connected_start. by left.
        - eapply connected_mono; [exact Hmono|]. by apply Hconn. }
      apply elem_of_app in Hp as [Hp|Hp].
      * eapply connected_mono; [exact Hmono|]. by apply Hconn.
      * apply list_elem_of_singleton in Hp. subst p.
        eapply connected_step; [exact Hcc|done|]. right. apply elem_of_app. right.
        by apply list_elem_of_singleton.
    + intros Hno p Hp. apply elem_of_app in Hp as [Hp|Hp]; [by apply Hsafe|].
      apply list_elem_of_singleton in Hp. subst p.
      apply (Hno cur); [|done|done].
      destruct Hcur_in as [->|Hin]; [done|]. by apply Hlog.
  - rewrite Hnew. unfold Cell.is_hidden. by rewrite (reveal_hidden_state _ Hh).
  - done.
  - unfold b'. rewrite grid_count_set_revealed_count.
    destruct (grid_count_reveal b adj Hgrid Hb Hh) as (Hc & _ & _). fold b1 in Hc.
    destruct (is_empty_cell (Board.cell_at b adj)); simpl; lia.
Qed.

(** The inner [for] loop over a list of neighbours of [cur]. *)
Lemma flood_fold_inv b0 p0 cur adjs : ∀ b stack seen log,
  flood_inv b0 p0 (Some cur) b stack seen log →
  (∀ q, q ∈ adjs → q ∈ neighbours b0 cur) →
  ∃ b' stack' log',
    foldl flood_visit_log (b, stack, log) adjs = (b', stack', log') ∧
    flood_inv b0 p0 (Some cur) b' stack' seen log' ∧
    (∀ q, q ∈ adjs → Cell.is_hidden (Board.cell_at b' q) = false) ∧
    reveals_only b b' ∧
    (length stack' + grid_count Cell.is_hidden b'
     ≤ length stack + grid_count Cell.is_hidden b)%nat.
Proof.
  induction adjs as [|a adjs IH]; intros b stack seen log Inv Hadjs.
  - eexists _, _, _. split; [done|]. split; [done|].
    split; [by intros q Hq; apply elem_of_nil in Hq|]. split; [apply reveals_only_refl|lia].
  - destruct (flood_visit_inv b0 p0 cur b stack seen log a Inv) as
      (b1 & stack1 & log1 & E1 & Inv1 & Ha & Hstep1 & Hle1).
    { apply Hadjs, elem_of_cons. by left. }
    destruct (IH b1 stack1 seen log1 Inv1) as
      (b' & stack' & log' & E' & Inv' & Hrest & Hstep' & Hle').
    { intros q Hq. apply Hadjs, elem_of_cons. by right. }
    exists b', stack', log'. cbn [foldl]. rewrite E1. split; [done|]. split; [done|].
    split; [|split; [by eapply reveals_only_trans|lia]].
    intros q Hq. apply elem_of_cons in Hq as [->|Hq]; [|by apply Hrest].
    eapply cell_step_not_hidden; [|exact Ha].
    destruct Hstep' as [_ Hc]. apply Hc.
    apply (same_frame_in_bounds b0 b1); [apply (fi_frame _ _ _ _ _ _ _ Inv1)|].
    eapply neighbours_in_bounds, Hadjs, elem_of_cons. by left.
Qed.

Lemma flood_inv_skip b0 p0 b cur stack seen log :
  flood_inv b0 p0 None b (cur :: stack) seen log → cur ∈ seen →
  flood_inv b0 p0 None b stack seen log.
Proof.
  intros [Hgrid Hfr Hstart Hnd Hlog Hchg Hrc Hhid Hrev Hflg Hstk Hcur Hseen Hpend Hconn Hsafe] Hin. split; try done.
  - intros p Hp. apply Hstk, elem_of_cons. by right.
  - intros p Hp He. destruct (Hpend p Hp He) as [Hs|[Hs|Hs]]; [|by right; left|done].
    apply elem_of_cons in Hs as [->|Hs]; [by right; left|by left].
Qed.

Lemma flood_inv_begin b0 p0 b cur stack seen log :
  flood_inv b0 p0 None b (cur :: stack) seen log →
  flood_inv b0 p0 (Some cur) b stack seen log.
Proof.
  intros [Hgrid Hfr Hstart Hnd Hlog Hchg Hrc Hhid Hrev Hflg Hstk Hcur Hseen Hpend Hconn Hsafe]. split; try done.
  - intros p Hp. apply Hstk, elem_of_cons. by right.
  - intros p [= <-]. apply Hstk, elem_of_cons. by left.
  - intros p Hp He. destruct (Hpend p Hp He) as [Hs|[Hs|Hs]]; [|by right; left|done].
    apply elem_of_cons in Hs as [->|Hs]; [by right; right|by left].
Qed.

Lemma flood_inv_end b0 p0 b cur stack seen log :
  flood_inv b0 p0 (Some cur) b stack seen log →
  (∀ q, q ∈ neighbours b0 cur → Cell.is_hidden (Board.cell_at b q) = false) →
  flood_inv b0 p0 None b stack ({[cur]} ∪ seen) log.
Proof.
  intros [Hgrid Hfr Hstart Hnd Hlog Hchg Hrc Hhid Hrev Hflg Hstk Hcur Hseen Hpend Hconn Hsafe] Hdone. split; try done.
  - intros p Hp q Hq. apply elem_of_union in Hp as [Hp|Hp]; [|by eapply Hseen].
    apply elem_of_singleton in Hp. subst p. by apply Hdone.
  - intros p Hp He. destruct (Hpend p Hp He) as [Hs|[Hs|Hs]]; [by left| |].
    + right; left. apply elem_of_union. by right.
    + injection Hs as <-. right; left. apply elem_of_union. left. by apply elem_of_singleton.
Qed.

(** The [while] loop ends within its fuel and keeps the invariant. *)
Lemma flood_loop_log_correct b0 p0 : ∀ fuel stack seen b log,
  flood_inv b0 p0 None b stack seen log →
  (length stack + grid_count Cell.is_hidden b < fuel)%nat →
  ∃ bf logf seenf,
    flood_loop_log fuel stack seen b log = Some (bf, logf) ∧
    flood_inv b0 p0 None bf [] seenf logf.
Proof.
  induction fuel as [|fuel IH]; intros stack seen b log Inv Hfuel; [lia|].
  destruct stack as [|cur stack]; [by eexists _, _, _|].
  cbn [flood_loop_log]. case_bool_decide as Hin.
  - apply IH; [by eapply flood_inv_skip|]. simpl in Hfuel. lia.
  - pose proof (flood_inv_begin _ _ _ _ _ _ _ Inv) as Inv1.
    assert (get_adjacent_positions cur.1 cur.2 (Board.width b) (Board.height b)
            = neighbours b0 cur) as ->.
    { destruct (fi_frame _ _ _ _ _ _ _ Inv) as [F _].
      apply (same_frame_neighbours b0 b cur F). }
    destruct (flood_fold_inv b0 p0 cur (neighbours b0 cur) b stack seen log Inv1)
      as (b' & stack' & log' & E & Inv' & Hdone & _ & Hle); [done|].
    rewrite E. apply IH; [by apply flood_inv_end|]. simpl in Hfuel. lia.
Qed.

Lemma tally_le_length {A} (P : A → bool) (l : list A) : (tally P l ≤ length l)%nat.
Proof.
  unfold tally. induction l as [|x l IH]; [done|].
  rewrite fmap_cons. cbn [sum_list sum_list_with length]. unfold id in *.
  destruct (P x); lia.
Qed.

Lemma grid_count_le P b : (grid_count P b ≤ sum_list (length <$> Board.cells b))%nat.
Proof.
  unfold grid_count. induction (Board.cells b) as [|cs g IH]; [done|].
  rewrite !fmap_cons. cbn [sum_list sum_list_with]. unfold id in *.
  pose proof (tally_le_length P cs). lia.
Qed.

Lemma flood_inv_init b0 p0 :
  grid_ok b0 → in_bounds b0 p0 → is_empty_cell (Board.cell_at b0 p0) = true →
  flood_inv b0 p0 None b0 [p0] ∅ [].
Proof.
  intros Hg Hp He. split; try done; try (simpl; lia).
  - apply reveals_only_refl.
  - apply NoDup_nil_2.
  - intros p Hp'. by apply elem_of_nil in Hp'.
  - intros p Hp'. apply list_elem_of_singleton in Hp'. subst p. split; [by left|done].
  - intros p [->|Hp'] _; [|by apply elem_of_nil in Hp'].
    left. by apply list_elem_of_singleton.
  - intros p Hp'. by apply elem_of_nil in Hp'.
  - intros _ p Hp'. by apply elem_of_nil in Hp'.
Qed.

(** The flood fill returns: the fuel of [_reveal_adjacent_empty_cells] is
    never exhausted, and the invariant holds of the board it leaves. *)
Lemma flood_loop_terminates b0 p0 :
  grid_ok b0 → in_bounds b0 p0 → is_empty_cell (Board.cell_at b0 p0) = true →
  ∃ bf log seen,
    flood_loop_log (Board.flood_fuel b0) [p0] ∅ b0 [] = Some (bf, log) ∧
    Board.flood_loop (Board.flood_fuel b0) [p0] ∅ b0 = Some bf ∧
    flood_inv b0 p0 None bf [] seen log.
Proof.
  intros Hg Hp He.
  destruct (flood_loop_log_correct b0 p0 (Board.flood_fuel b0) [p0] ∅ b0 [])
    as (bf & log & seen & E & Inv).
  { by apply flood_inv_init. }
  { unfold Board.flood_fuel. pose proof (grid_count_le Cell.is_hidden b0). simpl. lia. }
  exists bf, log, seen. split; [done|]. split; [|done].
  by rewrite <- (flood_loop_log_erase _ _ _ _ []), E.
Qed.

(** ** Unfolding the methods of the board *)

Lemma validate_position_ok b row col :
  in_bounds b (row, col) →
  validate_position row col (Board.width b) (Board.height b) = Ok true.
Proof.
  intros [Hr Hc]. simpl in *. unfold validate_position.
  destruct (row <? 0) eqn:E1; [lia|]. destruct (row >=? Board.height b) eqn:E2; [lia|].
  destruct (col <? 0) eqn:E3; [lia|]. destruct (col >=? Board.width b) eqn:E4; [lia|].
  done.
Qed.

Lemma validate_position_err b row col :
  ¬ in_bounds b (row, col) →
  ∃ e, validate_position row col (Board.width b) (Board.height b) = Err e ∧
       error_kind e = OutOfBounds.
Proof.
  intros Hn. unfold validate_position, in_bounds in *. simpl in Hn.
  destruct (row <? 0) eqn:E1; [by eexists|].
  destruct (row >=? Board.height b) eqn:E2; [by eexists|].
  destruct (col <? 0) eqn:E3; [by eexists|].
  destruct (col >=? Board.width b) eqn:E4; [by eexists|].
  exfalso. apply Hn. lia.
Qed.

Section BoardUnfold.
Context (random_sample : Sampler).

Lemma reveal_cell_out_of_bounds row col b :
  ¬ in_bounds b (row, col) →
  ∃ e, Board.reveal_cell random_sample row col b = Raise e b ∧ error_kind e = OutOfBounds.
Proof.
  intros Hn. destruct (validate_position_err b row col Hn) as (e & E & K).
  exists e. split; [|done]. unfold Board.reveal_cell, mbind, Op_bind, op_bind, get.
  by rewrite E.
Qed.

Lemma reveal_cell_not_hidden row col b :
  in_bounds b (row, col) →
  Cell._state (Board.cell_at b (row, col)) ≠ CellState.HiddenState →
  Board.reveal_cell random_sample row col b = Return false b.
Proof.
  intros Hb Hs. unfold Board.reveal_cell, mbind, Op_bind, op_bind, get.
  rewrite (validate_position_ok b row col Hb). simpl.
  unfold Cell.can_reveal. by destruct (Cell._state (Board.cell_at b (row, col))).
Qed.

Lemma reveal_cell_hidden row col b :
  in_bounds b (row, col) →
  Cell._state (Board.cell_at b (row, col)) = CellState.HiddenState →
  Board.reveal_cell random_sample row col b =
  if Board.first_click b then
    match Board.generate_mines random_sample row col b with
    | Return _ bg => reveal_tail (row, col) (Board.set_first_click false bg)
    | Raise e s => Raise e s
    | OutOfFuel => OutOfFuel
    end
  else reveal_tail (row, col) b.
Proof.
  intros Hb Hs. unfold Board.reveal_cell, mbind, Op_bind, op_bind, get.
  rewrite (validate_position_ok b row col Hb). simpl.
  unfold Cell.can_reveal. rewrite Hs. simpl.
  unfold reveal_tail, Board._reveal_adjacent_empty_cells, is_empty_cell, modify, mret,
    Op_ret, op_ret.
  destruct (Board.first_click b).
  - destruct (Board.generate_mines random_sample row col b) as [[] bg|e s|]; try done.
    destruct ((Cell.adjacent_mines _ =? 0) && negb (Cell.is_mine _)); [|done].
    by destruct (Board.flood_loop _ _ _ _).
  - destruct ((Cell.adjacent_mines _ =? 0) && negb (Cell.is_mine _)); [|done].
    by destruct (Board.flood_loop _ _ _ _).
Qed.

End BoardUnfold.

(** ** What a reveal leaves *)

Lemma connected_transfer b b' (R R' : pos → Prop) p0 p :
  (∀ q, neighbours b' q = neighbours b q) → (∀ q, R q → R' q) →
  connected b R p0 p → connected b' R' p0 p.
Proof.
  intros Hn HR. induction 1 as [|q p _ IH Hq Hp]; [by apply connected_start; auto|].
  eapply connected_step; [exact IH| |by auto]. by rewrite Hn.
Qed.

Lemma reveal_one_facts p b1 :
  grid_ok b1 → in_bounds b1 p →
  Cell._state (Board.cell_at b1 p) = CellState.HiddenState →
  let b2 := reveal_one p b1 in
  grid_ok b2 ∧ same_frame b1 b2 ∧ reveals_only b1 b2 ∧
  Board.cell_at b2 p = Cell.reveal (Board.cell_at b1 p) ∧
  Cell._state (Board.cell_at b2 p) = CellState.RevealedState ∧
  (∀ q, in_bounds b1 q → q ≠ p → Board.cell_at b2 q = Board.cell_at b1 q) ∧
  Board.revealed_count b2 = Board.revealed_count b1 + 1 ∧
  (grid_count Cell.is_revealed b2 = grid_count Cell.is_revealed b1 + 1)%nat ∧
  grid_count Cell.is_flagged b2 = grid_count Cell.is_flagged b1.
Proof.
  intros Hg Hp Hh b2.
  assert (Board.cell_at b2 p = Cell.reveal (Board.cell_at b1 p)) as Hnew.
  { unfold b2, reveal_one. rewrite cell_at_set_revealed_count. by apply cell_at_update_eq. }
  assert (∀ q, in_bounds b1 q → q ≠ p → Board.cell_at b2 q = Board.cell_at b1 q) as Hold.
  { intros q Hq Hne. unfold b2, reveal_one. rewrite cell_at_set_revealed_count.
    by apply cell_at_update_other. }
  assert (same_frame b1 b2) as Hfr by (by repeat split).
  destruct (grid_count_reveal b1 p Hg Hp Hh) as (_ & Hrev & Hflg).
  split; [|split; [done|split; [|split; [done|split; [|split; [done|split; [done|]]]]]]].
  - destruct (grid_ok_update Cell.reveal p b1 Hg). by split.
  - split; [done|]. intros q Hq. destruct (decide (q = p)) as [->|Hne].
    + rewrite Hnew. by right.
    + rewrite Hold by done. by left.
  - rewrite Hnew. by apply reveal_hidden_state.
  - by split.
Qed.

Lemma reveal_tail_spec p b1 :
  grid_ok b1 → in_bounds b1 p →
  Cell._state (Board.cell_at b1 p) = CellState.HiddenState →
  ∃ bf, reveal_tail p b1 = Return true bf ∧ reveal_post b1 p bf (reveal_log p b1).
Proof.
  intros Hg Hp Hh.
  destruct (reveal_one_facts p b1 Hg Hp Hh)
    as (Hg2 & Hfr2 & Hstep2 & Hnew & Hrev2 & Hold & Hrc2 & Hcnt2 & Hflg2).
  unfold reveal_tail, reveal_log. fold (reveal_one p b1).
  set (b2 := reveal_one p b1) in *.
  assert (in_bounds b2 p) as Hp2 by (by apply (same_frame_in_bounds b1 b2)).
  assert (is_empty_cell (Board.cell_at b2 p) = is_empty_cell (Board.cell_at b1 p)) as Hemp.
  { apply cell_step_is_empty. by apply Hstep2. }
  destruct (is_empty_cell (Board.cell_at b2 p)) eqn:He.
  - destruct (flood_loop_terminates b2 p Hg2 Hp2 He) as (bf & log & seen & E1 & E2 & Inv).
    rewrite E1, E2. exists bf. split; [done|].
    destruct Inv as [Hgrid Hfr Hstart Hnd Hlog Hchg Hrc Hhid Hrev Hflg Hstk Hcur
                     Hseen Hpend Hconn Hsafe].
    assert (∀ q, q ∈ log → q ≠ p) as Hlogp.
    { intros q Hq ->. destruct (Hlog p Hq) as (_ & Hhid' & _). congruence. }
    assert (∀ q, q ∈ log → Board.cell_at b2 q = Board.cell_at b1 q) as Hlog1.
    { intros q Hq. apply Hold; [|by apply Hlogp].
      apply (same_frame_in_bounds b1 b2); [done|]. by apply Hlog. }
    assert (Cell._state (Board.cell_at bf p) = CellState.RevealedState) as Hpf.
    { destruct Hfr as [_ Hc]. by rewrite (cell_step_revealed _ _ (Hc p Hp2) Hrev2). }
    assert (∀ q, in_bounds b1 q →
              is_empty_cell (Board.cell_at b2 q) = is_empty_cell (Board.cell_at b1 q)) as Hemp'.
    { intros q Hq. apply cell_step_is_empty. by apply Hstep2. }
    split.
    + done.
    + by eapply reveals_only_trans.
    + lia.
    + lia.
    + congruence.
    + apply NoDup_cons. split; [|done]. intros Hin. by apply (Hlogp p Hin).
    + intros q Hq. apply elem_of_cons in Hq as [->|Hq]; [done|].
      destruct (Hlog q Hq) as (Hqb & Hq0 & Hq1).
      split; [by apply (same_frame_in_bounds b1 b2)|]. split; [|done].
      by rewrite <- (Hlog1 q Hq).
    + intros q Hq Hne. destruct (decide (q = p)) as [->|Hqp]; [by apply elem_of_cons; left|].
      apply elem_of_cons. right. apply Hchg; [by apply (same_frame_in_bounds b1 b2)|].
      by rewrite Hold.
    + intros Hf. congruence.
    + intros q Hq Hqe q' Hq'.
      assert (in_bounds b1 q) as Hqb.
      { apply elem_of_cons in Hq as [->|Hq]; [done|].
        apply (same_frame_in_bounds b1 b2); [done|]. by apply Hlog. }
      assert (q = p ∨ q ∈ log) as Hq2 by (by apply elem_of_cons in Hq).
      rewrite <- Hemp' in Hqe by done.
      destruct (Hpend q Hq2 Hqe) as [Hs|[Hs|Hs]]; [by apply elem_of_nil in Hs| |done].
      apply (Hseen q Hs). by rewrite (same_frame_neighbours b1 b2).
    + intros q Hq. apply elem_of_cons in Hq as [->|Hq].
      * apply connected_start. apply elem_of_cons. by left.
      * eapply connected_transfer; [| |by apply Hconn].
        -- intros q'. symmetry. by apply same_frame_neighbours.
        -- intros q' Hq'. by apply elem_of_cons.
    + intros Hno q Hq. rewrite <- (Hlog1 q Hq). apply Hsafe; [|done].
      intros x Hx Hxe y Hy.
      assert (in_bounds b1 x) as Hx1 by (by apply (same_frame_in_bounds b1 b2)).
      assert (in_bounds b1 y) as Hy1.
      { apply (same_frame_in_bounds b1 b2); [done|]. by eapply neighbours_in_bounds. }
      rewrite (cell_step_is_mine (Board.cell_at b1 y)) by (by apply Hstep2).
      apply (Hno x); [done|by rewrite <- Hemp'|].
      by rewrite <- (same_frame_neighbours b1 b2).
  - exists b2. split; [done|]. split; try done; try (simpl; lia).
    + apply NoDup_singleton.
    + intros q Hq. apply list_elem_of_singleton in Hq. by subst q.
    + intros q Hq Hne. destruct (decide (q = p)) as [->|Hqp];
        [by apply list_elem_of_singleton|]. by rewrite Hold in Hne.
    + intros q Hq Hqe. apply list_elem_of_singleton in Hq. subst q. congruence.
    + intros q Hq. apply list_elem_of_singleton in Hq. subst q.
      apply connected_start. by apply list_elem_of_singleton.
    + intros _ q Hq. by apply elem_of_nil in Hq.
Qed.

(** ** Loops *)

Lemma for_modify {S A} (f : A → S → S) (xs : list A) (s : S) :
  for_ xs (λ x, modify (f x)) s = Return tt (foldl (λ s x, f x s) s xs).
Proof.
  revert s. induction xs as [|x xs IH]; intros s; [done|].
  cbn [for_ foldl]. unfold mbind, Op_bind, op_bind, modify at 1. apply IH.
Qed.

(** A [for] loop whose body never raises, with an invariant indexed by the
    elements already handled. *)
Lemma for_inv_prefix {S A} (I : list A → S → Prop) (xs : list A) (body : A → Op S unit) :
  (∀ done x rest, xs = done ++ x :: rest →
     ∀ s, I done s → ∃ s', body x s = Return tt s' ∧ I (done ++ [x]) s') →
  ∀ s, I [] s → ∃ s', for_ xs body s = Return tt s' ∧ I xs s'.
Proof.
  intros Hbody.
  assert (∀ rest done, xs = done ++ rest → ∀ s, I done s →
            ∃ s', for_ rest body s = Return tt s' ∧ I xs s') as H.
  { induction rest as [|x rest IH]; intros done E s Hs.
    - exists s. split; [done|]. by rewrite E, app_nil_r.
    - destruct (Hbody done x rest E s Hs) as (s1 & E1 & H1).
      destruct (IH (done ++ [x]) ltac:(by rewrite <- app_assoc) s1 H1) as (s' & E' & H').
      exists s'. split; [|done]. cbn [for_]. unfold mbind, Op_bind, op_bind. by rewrite E1. }
  intros s Hs. by apply (H xs []).
Qed.

(** ** Counting the mines around a cell *)

Lemma sum_list_alter_same {A} (g : A → nat) (f : A → A) (l : list A) (i : nat) :
  (∀ x, g (f x) = g x) → sum_list (g <$> alter f i l) = sum_list (g <$> l).
Proof.
  intros Hg. revert i. induction l as [|y l IH]; intros [|i]; simpl; [done|done| |].
  - by rewrite Hg.
  - f_equal. apply IH.
Qed.

Lemma grid_count_update_same P f p b :
  (∀ c, P (f c) = P c) → grid_count P (Board.update_cell f p b) = grid_count P b.
Proof.
  intros HP. unfold grid_count. simpl. apply sum_list_alter_same.
  intros cs. unfold tally. apply sum_list_alter_same. intros c. by rewrite HP.
Qed.

Lemma count_fold_bounds {A} (P : A → bool) (l : list A) (n : Z) :
  n ≤ foldl (λ count x, if P x then count + 1 else count) n l ≤ n + Z.of_nat (length l).
Proof.
  revert n. induction l as [|x l IH]; intros n; simpl; [lia|].
  destruct (P x); [specialize (IH (n + 1))|specialize (IH n)]; lia.
Qed.

Lemma count_fold_filter {A} (P : A → bool) (Q : A → Prop) `{∀ x, Decision (Q x)}
    (l : list A) (n : Z) :
  (∀ x, x ∈ l → P x = true ↔ Q x) →
  foldl (λ count x, if P x then count + 1 else count) n l
  = n + Z.of_nat (length (filter Q l)).
Proof.
  revert n. induction l as [|x l IH]; intros n HPQ; simpl; [lia|].
  rewrite IH by (intros y Hy; apply HPQ, elem_of_cons; by right).
  rewrite filter_cons. pose proof (HPQ x ltac:(by apply elem_of_cons; left)) as Hx.
  destruct (P x); destruct (decide (Q x)) as [Hq|Hq]; simpl; try lia.
  - exfalso. apply Hq. by apply Hx.
  - apply Hx in Hq. done.
Qed.

Lemma count_fold_ext {A} (P P' : A → bool) (l : list A) (n : Z) :
  (∀ x, x ∈ l → P x = P' x) →
  foldl (λ count x, if P x then count + 1 else count) n l
  = foldl (λ count x, if P' x then count + 1 else count) n l.
Proof.
  revert n. induction l as [|x l IH]; intros n HPP; simpl; [done|].
  rewrite (HPP x) by (by apply elem_of_cons; left).
  apply IH. intros y Hy. apply HPP, elem_of_cons. by right.
Qed.

Lemma _count_adjacent_mines_range b row col :
  0 ≤ Board._count_adjacent_mines b row col ≤ 8.
Proof.
  unfold Board._count_adjacent_mines.
  pose proof (count_fold_bounds (λ adj, Cell.is_mine (Board.cell_at b adj))
    (get_adjacent_positions row col (Board.width b) (Board.height b)) 0).
  pose proof (get_adjacent_positions_length row col (Board.width b) (Board.height b)).
  lia.
Qed.

Lemma _count_adjacent_mines_ext b b' row col :
  Board.width b' = Board.width b → Board.height b' = Board.height b →
  (∀ p, in_bounds b p →
        Cell.is_mine (Board.cell_at b' p) = Cell.is_mine (Board.cell_at b p)) →
  Board._count_adjacent_mines b' row col = Board._count_adjacent_mines b row col.
Proof.
  intros Hw Hh Hm. unfold Board._count_adjacent_mines. rewrite Hw, Hh.
  apply count_fold_ext. intros q Hq. apply Hm.
  by apply (neighbours_in_bounds b (row, col)).
Qed.

Lemma _count_adjacent_mines_marked b p :
  mines_marked b → Board._count_adjacent_mines b p.1 p.2 = mines_around b p.
Proof.
  intros [_ Hm]. unfold Board._count_adjacent_mines, mines_around.
  rewrite (count_fold_filter _ (λ q, q ∈ Board.mine_positions b)); [unfold neighbours; lia|].
  intros q Hq. apply Hm. by apply (neighbours_in_bounds b p).
Qed.

(** ** Mine generation *)

Lemma same_but_cells_refl b : same_but_cells b b.
Proof. by repeat split. Qed.

Lemma same_but_cells_in_bounds b b' p : same_but_cells b b' → in_bounds b' p ↔ in_bounds b p.
Proof. intros (Hw & Hh & _). unfold in_bounds. by rewrite Hw, Hh. Qed.

Lemma recount_inv_weaken b (D D' : pos → Prop) b' :
  (∀ p, in_bounds b p → D' p → D p) → recount_inv b D b' → recount_inv b D' b'.
Proof.
  intros HD (Hf & Hg & Hr & Hfl & Hc). do 4 (split; [done|]).
  intros p Hp. destruct (Hc p Hp) as (?&?&?&?&?&Ha). do 5 (split; [done|]).
  intros Hm Hd. apply Ha; [done|]. by apply HD.
Qed.

Lemma recount_inv_init b : grid_ok b → recount_inv b (λ _, False) b.
Proof.
  intros Hg. split; [apply same_but_cells_refl|]. do 3 (split; [done|]).
  intros p Hp. by do 5 (split; [done|]).
Qed.

(** The body of the inner loop of [_calculate_adjacent_mines]. *)
Lemma recount_cell_spec b (D : pos → Prop) b' row col :
  in_bounds b (row, col) → recount_inv b D b' →
  ∃ b'',
    (b ← get;
     if negb (Cell.is_mine (Board.cell_at b (row, col))) then
       let adjacent_mines := Board._count_adjacent_mines b row col in
       cell ← lift_except
         (Cell.set_adjacent_mines adjacent_mines (Board.cell_at b (row, col)));
       put (Board.update_cell (λ _, cell) (row, col) b)
     else mret tt) b' = Return tt b'' ∧
    recount_inv b (λ q, D q ∨ q = (row, col)) b''.
Proof.
  intros Hp Inv. pose proof Inv as (Hf & Hg & Hr & Hfl & Hc).
  assert (in_bounds b' (row, col)) as Hp' by (by apply (same_but_cells_in_bounds b b')).
  unfold mbind, Op_bind, op_bind, get.
  destruct (Hc _ Hp) as (Hrow & Hcol & Hst & Hmine & Hadj1 & Hadj2).
  destruct (Cell.is_mine (Board.cell_at b' (row, col))) eqn:Hm; simpl.
  { exists b'. split; [done|]. do 4 (split; [done|]).
    intros q Hq. destruct (Hc q Hq) as (?&?&?&?&?&Ha). do 5 (split; [done|]).
    intros Hm' [Hd| ->]; [by apply Ha|]. congruence. }
  unfold Cell.set_adjacent_mines.
  pose proof (_count_adjacent_mines_range b' row col) as Hrange.
  destruct (0 <=? Board._count_adjacent_mines b' row col) eqn:E1; [|lia].
  destruct (Board._count_adjacent_mines b' row col <=? 8) eqn:E2; [|lia].
  simpl. eexists. split; [done|].
  assert (Board._count_adjacent_mines b' row col = Board._count_adjacent_mines b row col) as Hcnt.
  { destruct Hf as (Hw & Hh & _). apply _count_adjacent_mines_ext; [done|done|].
    intros p Hpb. by apply Hc. }
  set (cell := Cell.mk _ _ _ _ _).
  assert (∀ q, in_bounds b q → q ≠ (row, col) →
     Board.cell_at (Board.update_cell (λ _, cell) (row, col) b') q = Board.cell_at b' q) as Hold.
  { intros q Hq Hne. apply cell_at_update_other; [done| |done].
    by apply (same_but_cells_in_bounds b b'). }
  assert (Board.cell_at (Board.update_cell (λ _, cell) (row, col) b') (row, col) = cell) as Hnew.
  { by rewrite cell_at_update_eq. }
  split; [done|]. split; [by apply grid_ok_update|].
  split; [|split].
  - rewrite <- Hr.
    pose proof (grid_count_update Cell.is_revealed (λ _, cell) (row, col) b' Hg Hp') as Hu.
    cbv beta in Hu.
    assert (Cell.is_revealed cell = Cell.is_revealed (Board.cell_at b' (row, col))) as Hs
      by done.
    rewrite Hs in Hu. lia.
  - rewrite <- Hfl.
    pose proof (grid_count_update Cell.is_flagged (λ _, cell) (row, col) b' Hg Hp') as Hu.
    cbv beta in Hu.
    assert (Cell.is_flagged cell = Cell.is_flagged (Board.cell_at b' (row, col))) as Hs
      by done.
    rewrite Hs in Hu. lia.
  - intros q Hq. destruct (decide (q = (row, col))) as [->|Hne].
    + rewrite Hnew. unfold cell.
      cbn [Cell.row Cell.col Cell._state Cell.is_mine Cell.adjacent_mines fst snd].
      do 4 (split; [congruence|]). split.
      * intros Hm'. congruence.
      * intros _ _. done.
    + rewrite Hold by done. destruct (Hc q Hq) as (?&?&?&?&?&Ha).
      do 5 (split; [done|]). intros Hm' [Hd|Hd]; [by apply Ha|done].
Qed.

Lemma elem_of_range n k : k ∈ range n ↔ 0 ≤ k < n.
Proof. unfold range. rewrite elem_of_seqZ. lia. Qed.

(** [_calculate_adjacent_mines] returns, and recomputes the count of every
    non-mine cell from the cells marked as mines. *)
Lemma _calculate_adjacent_mines_spec b :
  grid_ok b →
  ∃ b', Board._calculate_adjacent_mines b = Return tt b' ∧ recount_inv b (λ _, True) b'.
Proof.
  intros Hg. unfold Board._calculate_adjacent_mines.
  unfold mbind at 1, Op_bind at 1, op_bind at 1, get at 1.
  lazymatch goal with
  | |- ∃ b', for_ ?xs ?body b = _ ∧ _ =>
      destruct (for_inv_prefix (λ done b', recount_inv b (λ q, q.1 ∈ done) b') xs body)
        with (s := b) as (b' & E & Inv)
  end.
  - intros done row rest Erows s Inv.
    assert (0 ≤ row < Board.height b) as Hrow.
    { apply elem_of_range. rewrite Erows. apply elem_of_app. right. apply elem_of_cons. by left. }
    lazymatch goal with
    | |- ∃ s', for_ ?xs ?body s = _ ∧ _ =>
        destruct (for_inv_prefix
          (λ dcols b', recount_inv b (λ q, q.1 ∈ done ∨ (q.1 = row ∧ q.2 ∈ dcols)) b') xs body)
          with (s := s) as (s' & E & Inv')
    end.
    + intros dcols col crest Ecols s1 Inv1.
      assert (0 ≤ col < Board.width b) as Hcol.
      { apply elem_of_range. rewrite Ecols. apply elem_of_app. right. apply elem_of_cons.
        by left. }
      destruct (recount_cell_spec b _ s1 row col ltac:(by split) Inv1) as (s2 & E2 & Inv2).
      exists s2. split; [exact E2|]. revert Inv2. apply recount_inv_weaken.
      intros q Hq [Hd|[Hr Hc]]; [by left; left|].
      apply elem_of_app in Hc as [Hc|Hc]; [by left; right|].
      apply list_elem_of_singleton in Hc. right. destruct q; simpl in *. congruence.
    + revert Inv. apply recount_inv_weaken. intros q Hq [Hd|[_ Hd]]; [done|].
      by apply elem_of_nil in Hd.
    + exists s'. split; [exact E|]. revert Inv'. apply recount_inv_weaken.
      intros q Hq Hd. apply elem_of_app in Hd as [Hd|Hd]; [by left|].
      apply list_elem_of_singleton in Hd. right. split; [done|].
      apply elem_of_range. apply Hq.
  - eapply recount_inv_weaken; [|by apply recount_inv_init].
    intros q _ Hd. by apply elem_of_nil in Hd.
  - exists b'. split; [exact E|]. revert Inv. apply recount_inv_weaken.
    intros q Hq _. apply elem_of_range. apply Hq.
Qed.

Lemma place_mines_shape ps : ∀ b,
  grid_ok b →
  let b' := place_mines ps b in
  same_but_cells b b' ∧ grid_ok b' ∧
  grid_count Cell.is_revealed b' = grid_count Cell.is_revealed b ∧
  grid_count Cell.is_flagged b' = grid_count Cell.is_flagged b.
Proof.
  induction ps as [|p ps IH]; intros b Hg; simpl.
  - split; [apply same_but_cells_refl|done].
  - destruct (IH (Board.update_cell Cell.set_mine p b) (grid_ok_update _ _ _ Hg))
      as (Hf & Hg' & Hr & Hfl).
    split; [exact Hf|]. split; [done|].
    by rewrite Hr, Hfl, !grid_count_update_same.
Qed.

Lemma place_mines_cell ps : ∀ b q,
  grid_ok b → (∀ p, p ∈ ps → in_bounds b p) → in_bounds b q →
  Board.cell_at (place_mines ps b) q
  = if bool_decide (q ∈ ps) then Cell.set_mine (Board.cell_at b q) else Board.cell_at b q.
Proof.
  induction ps as [|p ps IH]; intros b q Hg Hps Hq; [done|].
  cbn [place_mines foldl]. fold (place_mines ps (Board.update_cell Cell.set_mine p b)).
  rewrite IH; [|by apply grid_ok_update| |done].
  2:{ intros x Hx. apply Hps, elem_of_cons. by right. }
  assert (in_bounds b p) as Hp by (apply Hps, elem_of_cons; by left).
  destruct (decide (q = p)) as [->|Hne].
  - rewrite cell_at_update_eq by done.
    rewrite (bool_decide_eq_true_2 (p ∈ p :: ps)) by (apply elem_of_cons; by left).
    by case_bool_decide.
  - rewrite cell_at_update_other by done.
    case_bool_decide as H1; case_bool_decide as H2; try done.
    + exfalso. apply H2, elem_of_cons. by right.
    + exfalso. apply elem_of_cons in H2 as [?|?]; done.
Qed.

Lemma elem_of_all_positions b safe_row safe_col (p : pos) :
  p ∈ Board.all_positions b safe_row safe_col ↔ in_bounds b p ∧ p ≠ (safe_row, safe_col).
Proof.
  unfold Board.all_positions. rewrite list_elem_of_bind. split.
  - intros (row & Hp & Hrow). apply list_elem_of_bind in Hp as (col & Hp & Hcol).
    case_bool_decide as Hne; [|by apply elem_of_nil in Hp].
    apply list_elem_of_singleton in Hp. subst p.
    apply elem_of_range in Hrow, Hcol. by split.
  - intros ([Hr Hc] & Hne). exists p.1. split; [|by apply elem_of_range].
    apply list_elem_of_bind. exists p.2. split; [|by apply elem_of_range].
    destruct p as [r c]. simpl. rewrite bool_decide_eq_true_2 by done.
    by apply list_elem_of_singleton.
Qed.

Lemma NoDup_all_positions b safe_row safe_col :
  NoDup (Board.all_positions b safe_row safe_col).
Proof.
  unfold Board.all_positions. apply NoDup_bind.
  - intros r1 r2 p _ _ H1 H2.
    apply list_elem_of_bind in H1 as (c1 & H1 & _), H2 as (c2 & H2 & _).
    repeat case_bool_decide; try (by apply elem_of_nil in H1); try (by apply elem_of_nil in H2).
    apply list_elem_of_singleton in H1, H2. congruence.
  - intros r _. apply NoDup_bind.
    + intros c1 c2 p _ _ H1 H2.
      repeat case_bool_decide; try (by apply elem_of_nil in H1);
        try (by apply elem_of_nil in H2).
      apply list_elem_of_singleton in H1, H2. congruence.
    + intros c _. case_bool_decide; [apply NoDup_singleton|apply NoDup_nil_2].
    + apply NoDup_seqZ.
  - apply NoDup_seqZ.
Qed.

Section Generation.
Context (random_sample : Sampler).

Lemma generate_mines_guard safe_row safe_col b :
  Board.mine_positions b ≠ ∅ →
  Board.generate_mines random_sample safe_row safe_col b = Return tt b.
Proof.
  intros Hne. unfold Board.generate_mines, mbind, Op_bind, op_bind, get.
  by rewrite bool_decide_eq_true_2.
Qed.

Lemma generate_mines_unfold safe_row safe_col b :
  Board.mine_positions b = ∅ →
  Board.generate_mines random_sample safe_row safe_col b =
  match random_sample (Board.all_positions b safe_row safe_col) (Board.mine_count b) with
  | Err e => Raise e b
  | Ok sample =>
      Board._calculate_adjacent_mines
        (place_mines (elements (list_to_set sample : gset pos))
                     (Board.set_mine_positions (list_to_set sample) b))
  end.
Proof.
  intros He. unfold Board.generate_mines, mbind at 1, Op_bind at 1, op_bind at 1, get at 1.
  rewrite bool_decide_eq_false_2 by (by intros H; apply H).
  unfold mbind at 1, Op_bind at 1, op_bind at 1.
  destruct (random_sample _ _) as [sample|e]; [|done].
  unfold lift_except, mret, Op_ret, op_ret.
  unfold mbind at 1, Op_bind at 1, op_bind at 1, put at 1.
  unfold mbind at 1, Op_bind at 1, op_bind at 1.
  by rewrite for_modify.
Qed.

(** Whatever the sampler answers, mine generation ends and touches neither
    the state of a cell nor a counter; when it raises it has changed
    nothing. *)
Lemma generate_mines_shape safe_row safe_col b :
  grid_ok b →
  match Board.generate_mines random_sample safe_row safe_col b with
  | Return _ bg => keeps_states b bg
  | Raise _ s => s = b
  | OutOfFuel => False
  end.
Proof.
  intros Hg.
  assert (keeps_states b b) as Hrefl by (unfold keeps_states; by do 9 (split; [done|])).
  destruct (decide (Board.mine_positions b = ∅)) as [He|Hne];
    [|by rewrite generate_mines_guard].
  rewrite generate_mines_unfold by done.
  destruct (random_sample _ _) as [sample|e]; [|done].
  set (b1 := Board.set_mine_positions (list_to_set sample) b).
  assert (grid_ok b1) as Hg1 by done.
  destruct (place_mines_shape (elements (list_to_set sample : gset pos)) b1 Hg1)
    as (Hf2 & Hg2 & Hr2 & Hfl2).
  set (b2 := place_mines _ b1) in *.
  destruct (_calculate_adjacent_mines_spec b2 Hg2) as (bg & E & Hf3 & Hg3 & Hr3 & Hfl3 & Hc3).
  rewrite E.
  assert (Board.width b1 = Board.width b ∧ Board.height b1 = Board.height b ∧
          Board.mine_count b1 = Board.mine_count b ∧
          Board.revealed_count b1 = Board.revealed_count b ∧
          Board.flagged_count b1 = Board.flagged_count b ∧
          Board.first_click b1 = Board.first_click b ∧
          grid_count Cell.is_revealed b1 = grid_count Cell.is_revealed b ∧
          grid_count Cell.is_flagged b1 = grid_count Cell.is_flagged b)
    as (?&?&?&?&?&?&?&?) by done.
  destruct Hf2 as (?&?&?&?&?&?&?), Hf3 as (?&?&?&?&?&?&?).
  unfold keeps_states. do 6 (split; [congruence|]).
  split; [done|]. split; [congruence|]. split; [congruence|].
  intros p Hp.
  assert (in_bounds b2 p) as Hp2 by (unfold in_bounds in *; lia).
  destruct (Hc3 p Hp2) as (_ & _ & -> & _).
  clear -Hg Hp. unfold b2.
  generalize (elements (list_to_set sample : gset pos)). intros ps.
  assert (∀ b', grid_ok b' → Board.width b' = Board.width b → Board.height b' = Board.height b →
            (∀ q, in_bounds b q → Cell._state (Board.cell_at b' q) = Cell._state (Board.cell_at b q)) →
            Cell._state (Board.cell_at (place_mines ps b') p) = Cell._state (Board.cell_at b p)) as H.
  { induction ps as [|x ps IH]; intros b' Hg' Hw Hh Hs; [by apply Hs|].
    cbn [place_mines foldl]. apply IH; [by apply grid_ok_update|done|done|].
    intros q Hq. rewrite <- Hs by done.
    unfold Board.cell_at, Board.update_cell. simpl.
    rewrite list_lookup_alter.
    destruct (decide (Z.to_nat x.1 = Z.to_nat q.1)) as [->|]; [|done].
    destruct (Board.cells b' !! Z.to_nat q.1) as [cs|]; simpl; [|done].
    rewrite list_lookup_alter.
    destruct (decide (Z.to_nat x.2 = Z.to_nat q.2)) as [->|]; [|done].
    by destruct (cs !! Z.to_nat q.2). }
  by apply H.
Qed.

End Generation.

Section GenerationSpec.
Context (random_sample : Sampler) (random_sample_ok : sampler_ok random_sample).

(** On a board without mines, generation either raises (the sampler was
    asked for more positions than there are) and changes nothing, or
    returns a board with [mine_count] mines, none at the safe position,
    marked in the cells and counted around every other cell. *)
Lemma generate_mines_spec safe_row safe_col b :
  unmined b →
  match Board.generate_mines random_sample safe_row safe_col b with
  | Return _ bg =>
      keeps_states b bg ∧ mined bg ∧ (safe_row, safe_col) ∉ Board.mine_positions bg
  | Raise e s => s = b ∧ e = SampleLargerThanPopulation
  | OutOfFuel => False
  end.
Proof.
  intros (Hg & He & Hno).
  pose proof (generate_mines_shape random_sample safe_row safe_col b Hg) as Hshape.
  rewrite generate_mines_unfold in * by done.
  pose proof (random_sample_ok (Board.all_positions b safe_row safe_col) (Board.mine_count b)
                (NoDup_all_positions b safe_row safe_col)) as Hs.
  destruct (random_sample _ _) as [sample|e]; [|by destruct Hs].
  destruct Hs as (Hk & Hlen & Hnd & Hsub).
  set (S := list_to_set sample : gset pos) in *.
  set (b1 := Board.set_mine_positions S b) in *.
  assert (grid_ok b1) as Hg1 by done.
  assert (∀ p, p ∈ elements S → in_bounds b1 p) as Hin.
  { intros p Hp. apply elem_of_elements, elem_of_list_to_set, Hsub in Hp.
    by apply elem_of_all_positions in Hp as [Hp _]. }
  destruct (place_mines_shape (elements S) b1 Hg1) as (Hf2 & Hg2 & _).
  pose proof (place_mines_cell (elements S) b1) as Hcell2.
  set (b2 := place_mines (elements S) b1) in *.
  destruct (_calculate_adjacent_mines_spec b2 Hg2) as (bg & E & Hf3 & Hg3 & _ & _ & Hc3).
  rewrite E in *. split; [done|].
  destruct Hf2 as (Hw2 & Hh2 & Hmc2 & _ & _ & _ & Hm2), Hf3 as (Hw3 & Hh3 & Hmc3 & _ & _ & _ & Hm3).
  assert (Board.mine_positions bg = S) as HS by (by rewrite Hm3, Hm2).
  assert (∀ p, in_bounds bg p ↔ in_bounds b p) as Hbnd.
  { intros p. unfold in_bounds. rewrite Hw3, Hh3, Hw2, Hh2. done. }
  assert (∀ p, in_bounds b p →
            Cell.is_mine (Board.cell_at bg p) = bool_decide (p ∈ S)) as Hmine.
  { intros p Hp. destruct (Hc3 p) as (_ & _ & _ & -> & _).
    { unfold in_bounds. by rewrite Hw2, Hh2. }
    rewrite Hcell2 by done.
    replace (Board.cell_at b1 p) with (Board.cell_at b p) by done.
    case_bool_decide as H1; case_bool_decide as H2; try done.
    - exfalso. by apply H2, elem_of_elements.
    - exfalso. by apply H1, elem_of_elements.
    - by apply Hno. }
  assert (mines_marked bg) as Hmarked.
  { split.
    - intros p Hp. rewrite HS in Hp. apply Hbnd. by apply Hin, elem_of_elements.
    - intros p Hp. rewrite HS, Hmine by (by apply Hbnd). by rewrite bool_decide_eq_true. }
  split; [|rewrite HS; intros Hsafe; apply elem_of_list_to_set, Hsub, elem_of_all_positions in Hsafe;
           by destruct Hsafe].
  split; [done|]. split; [done|]. split.
  - intros p Hp Hnm. rewrite <- (_count_adjacent_mines_marked bg p Hmarked).
    assert (in_bounds b2 p) as Hp2.
    { apply Hbnd in Hp. unfold in_bounds. by rewrite Hw2, Hh2. }
    destruct (Hc3 p Hp2) as (_ & _ & _ & Hm & _ & Ha).
    rewrite Ha; [|congruence|done]. symmetry.
    apply _count_adjacent_mines_ext; [done|done|]. intros q Hq. by apply Hc3.
  - rewrite HS. unfold S. rewrite size_list_to_set by done. rewrite Hmc3, Hmc2.
    change (Board.mine_count b1) with (Board.mine_count b). lia.
Qed.

End GenerationSpec.

(** ** The public methods of the board, case by case *)

Lemma counters_ok_keeps_states b b' : keeps_states b b' → counters_ok b → counters_ok b'.
Proof.
  intros (_ & _ & _ & Hrc & Hfc & _ & _ & Hr & Hf & _) [H1 H2].
  split; congruence.
Qed.

Lemma reveals_only_keeps_mines b b' : reveals_only b b' → keeps_mines b b'.
Proof.
  intros [(Hw & Hh & Hm & _ & _ & Hmp) Hc]. do 4 (split; [done|]).
  intros p Hp. split; [by apply cell_step_is_mine, Hc|by apply cell_step_adjacent_mines, Hc].
Qed.

Lemma keeps_mines_refl b : keeps_mines b b.
Proof. by do 4 (split; [done|]). Qed.

Lemma keeps_mines_trans b1 b2 b3 : keeps_mines b1 b2 → keeps_mines b2 b3 → keeps_mines b1 b3.
Proof.
  intros (Hw & Hh & Hm & Hmp & Hc) (Hw' & Hh' & Hm' & Hmp' & Hc').
  do 4 (split; [congruence|]). intros p Hp.
  assert (in_bounds b2 p) as Hp2 by (unfold in_bounds in *; by rewrite Hw, Hh).
  destruct (Hc p Hp) as [E1 E2], (Hc' p Hp2) as [E1' E2']. split; congruence.
Qed.

Lemma keeps_mines_in_bounds b b' p : keeps_mines b b' → in_bounds b' p ↔ in_bounds b p.
Proof. intros (Hw & Hh & _). unfold in_bounds. by rewrite Hw, Hh. Qed.

Lemma keeps_mines_around b b' p : keeps_mines b b' → mines_around b' p = mines_around b p.
Proof.
  intros (Hw & Hh & _ & Hmp & _). unfold mines_around, neighbours. by rewrite Hw, Hh, Hmp.
Qed.

Lemma mined_keeps_mines b b' : keeps_mines b b' → grid_ok b' → mined b → mined b'.
Proof.
  intros Hk Hg (_ & [Hm1 Hm2] & Hc & Hs).
  pose proof Hk as (Hw & Hh & Hmc & Hmp & Hcells).
  split; [done|]. split; [|split].
  - split.
    + intros p Hp. apply (keeps_mines_in_bounds b b'); [done|]. apply Hm1. by rewrite <- Hmp.
    + intros p Hp. apply (keeps_mines_in_bounds b b') in Hp; [|done].
      destruct (Hcells p Hp) as [-> _]. rewrite Hmp. by apply Hm2.
  - intros p Hp Hnm. apply (keeps_mines_in_bounds b b') in Hp; [|done].
    destruct (Hcells p Hp) as [Hi Ha]. rewrite Ha, (keeps_mines_around b b') by done.
    apply Hc; [done|]. by rewrite <- Hi.
  - by rewrite Hmp, Hmc.
Qed.

Section BoardCases.
Context (random_sample : Sampler).

(** The outcomes of [reveal_cell] on a well-formed board. *)
Lemma reveal_cell_cases row col b :
  grid_ok b →
  match Board.reveal_cell random_sample row col b with
  | Return ok s =>
      in_bounds b (row, col) ∧
      if ok then
        Cell._state (Board.cell_at b (row, col)) = CellState.HiddenState ∧
        ∃ b1, reveal_start random_sample row col b b1 ∧
              reveal_post b1 (row, col) s (reveal_log (row, col) b1)
      else
        Cell._state (Board.cell_at b (row, col)) ≠ CellState.HiddenState ∧ s = b
  | Raise e s =>
      s = b ∧
      (¬ in_bounds b (row, col) ∧ error_kind e = OutOfBounds ∨
       in_bounds b (row, col) ∧ Board.first_click b = true ∧
       Cell._state (Board.cell_at b (row, col)) = CellState.HiddenState ∧
       Board.generate_mines random_sample row col b = Raise e b)
  | OutOfFuel => False
  end.
Proof.
  intros Hg. destruct (decide (in_bounds b (row, col))) as [Hb|Hb].
  2:{ destruct (reveal_cell_out_of_bounds random_sample row col b Hb) as (e & -> & K).
      split; [done|]. by left. }
  destruct (decide (Cell._state (Board.cell_at b (row, col)) = CellState.HiddenState))
    as [Hh|Hh].
  2:{ by rewrite reveal_cell_not_hidden. }
  rewrite reveal_cell_hidden by done.
  destruct (Board.first_click b) eqn:Hfc.
  - pose proof (generate_mines_shape random_sample row col b Hg) as Hshape.
    destruct (Board.generate_mines random_sample row col b) as [[] bg|e s|] eqn:Eg;
      [|subst s; split; [done|]; by right|done].
    set (b1 := Board.set_first_click false bg).
    destruct Hshape as (Hw & Hh' & _ & _ & _ & _ & Hgg & _ & _ & Hst).
    destruct (reveal_tail_spec (row, col) b1) as (bf & -> & Hpost).
    + done.
    + unfold in_bounds in *. simpl. by rewrite Hw, Hh'.
    + change (Board.cell_at b1 (row, col)) with (Board.cell_at bg (row, col)).
      by rewrite Hst.
    + split; [done|]. split; [done|]. exists b1. split; [|done].
      right. split; [done|]. by exists bg.
  - destruct (reveal_tail_spec (row, col) b Hg Hb Hh) as (bf & -> & Hpost).
    split; [done|]. split; [done|]. exists b. split; [|done]. by left.
Qed.

End BoardCases.

Lemma flag_cell_cases row col b :
  grid_ok b →
  match Board.flag_cell row col b with
  | Return ok s =>
      in_bounds b (row, col) ∧
      if ok then
        Cell._state (Board.cell_at b (row, col)) ≠ CellState.RevealedState ∧
        s = flag_one (row, col) b
      else
        Cell._state (Board.cell_at b (row, col)) = CellState.RevealedState ∧ s = b
  | Raise e s => s = b ∧ ¬ in_bounds b (row, col) ∧ error_kind e = OutOfBounds
  | OutOfFuel => False
  end.
Proof.
  intros Hg. unfold Board.flag_cell, mbind, Op_bind, op_bind, get.
  destruct (decide (in_bounds b (row, col))) as [Hb|Hb].
  2:{ destruct (validate_position_err b row col Hb) as (e & -> & K). by simpl. }
  rewrite (validate_position_ok b row col Hb).
  unfold lift_except, modify, mret, Op_ret, op_ret, flag_one.
  unfold Cell.can_flag at 1, Cell.is_flagged at 1 3.
  destruct (Cell._state (Board.cell_at b (row, col))) eqn:Hs; cbn [negb andb CellState.can_flag];
    cbv beta iota; try rewrite (cell_at_update_eq Cell.flag (row, col) b Hg Hb);
    unfold Cell.is_flagged, Cell.flag, Cell.can_flag; try rewrite Hs;
    cbn [CellState.can_flag CellState.flag Cell._state negb andb];
    (split; [done|]); (split; [done|]); reflexivity.
Qed.

Lemma flag_one_facts p b :
  grid_ok b → in_bounds b p →
  Cell._state (Board.cell_at b p) ≠ CellState.RevealedState →
  let b' := flag_one p b in
  grid_ok b' ∧ keeps_mines b b' ∧
  Board.first_click b' = Board.first_click b ∧
  Board.revealed_count b' = Board.revealed_count b ∧
  grid_count Cell.is_revealed b' = grid_count Cell.is_revealed b ∧
  Board.flagged_count b' - Z.of_nat (grid_count Cell.is_flagged b')
  = Board.flagged_count b - Z.of_nat (grid_count Cell.is_flagged b) ∧
  Board.cell_at b' p = Cell.flag (Board.cell_at b p) ∧
  (∀ q, in_bounds b q → q ≠ p → Board.cell_at b' q = Board.cell_at b q).
Proof.
  intros Hg Hp Hs b'.
  assert (Board.cell_at b' p = Cell.flag (Board.cell_at b p)) as Hnew.
  { unfold b', flag_one. by apply cell_at_update_eq. }
  assert (∀ q, in_bounds b q → q ≠ p → Board.cell_at b' q = Board.cell_at b q) as Hold.
  { intros q Hq Hne. unfold b', flag_one. by apply cell_at_update_other. }
  pose proof (grid_count_update Cell.is_revealed Cell.flag p b Hg Hp) as Hr.
  pose proof (grid_count_update Cell.is_flagged Cell.flag p b Hg Hp) as Hf.
  split; [|split; [|split; [done|split; [done|split; [|split; [|done]]]]]].
  - destruct (grid_ok_update Cell.flag p b Hg). by split.
  - do 4 (split; [done|]). intros q Hq. destruct (decide (q = p)) as [->|Hne].
    + rewrite Hnew. unfold Cell.flag. by destruct (Cell.can_flag _).
    + by rewrite Hold.
  - unfold b', flag_one. change (grid_count ?P (Board.set_flagged_count _ ?x))
      with (grid_count P x).
    assert (Cell.is_revealed (Cell.flag (Board.cell_at b p))
            = Cell.is_revealed (Board.cell_at b p)) as E.
    { unfold Cell.is_revealed, Cell.flag, Cell.can_flag.
      by destruct (Cell._state (Board.cell_at b p)) eqn:E. }
    rewrite E in Hr. lia.
  - unfold b', flag_one. change (grid_count ?P (Board.set_flagged_count _ ?x))
      with (grid_count P x). cbn [Board.flagged_count Board.set_flagged_count].
    assert (Cell.is_flagged (Cell.flag (Board.cell_at b p))
            = negb (Cell.is_flagged (Board.cell_at b p))) as E.
    { unfold Cell.is_flagged, Cell.flag, Cell.can_flag.
      by destruct (Cell._state (Board.cell_at b p)) eqn:E. }
    rewrite E in Hf.
    destruct (Cell._state (Board.cell_at b p)) eqn:Hst; [|done|].
    + assert (Cell.is_flagged (Board.cell_at b p) = false) as E2
        by (unfold Cell.is_flagged; by rewrite Hst).
      rewrite E2 in Hf. simpl in Hf. lia.
    + assert (Cell.is_flagged (Board.cell_at b p) = true) as E2
        by (unfold Cell.is_flagged; by rewrite Hst).
      rewrite E2 in Hf. simpl in Hf. lia.
Qed.

Lemma scan_adjacent_fold b l : ∀ n acc,
  foldl (λ '(flag_count, hidden_adjacent) adj,
           let adj_cell := Board.cell_at b adj in
           if Cell.is_flagged adj_cell then (flag_count + 1, hidden_adjacent)
           else if Cell.is_hidden adj_cell then (flag_count, hidden_adjacent ++ [adj])
           else (flag_count, hidden_adjacent)) (n, acc) l
  = (n + Z.of_nat (length (filter (λ q, Cell._state (Board.cell_at b q)
                                        = CellState.FlaggedState) l)),
     acc ++ filter (λ q, Cell._state (Board.cell_at b q) = CellState.HiddenState) l).
Proof.
  induction l as [|x l IH]; intros n acc.
  - simpl. f_equal; [lia|by rewrite app_nil_r].
  - cbn [foldl]. rewrite !filter_cons. unfold Cell.is_flagged, Cell.is_hidden.
    destruct (Cell._state (Board.cell_at b x)) eqn:Hs; rewrite IH.
    + rewrite decide_False, decide_True by done. f_equal. by rewrite <- app_assoc.
    + rewrite decide_False, decide_False by done. done.
    + rewrite decide_True, decide_False by done. f_equal. simpl. lia.
Qed.

Lemma scan_adjacent_spec b p :
  Board.scan_adjacent b (neighbours b p) = (flagged_around b p, hidden_around b p).
Proof. unfold Board.scan_adjacent. by rewrite scan_adjacent_fold. Qed.

Section ExpandCases.
Context (random_sample : Sampler).

Lemma expand_out_of_bounds row col b :
  ¬ in_bounds b (row, col) →
  ∃ e, Board.expand_adjacent_cells random_sample row col b = Raise e b ∧
       error_kind e = OutOfBounds.
Proof.
  intros Hn. destruct (validate_position_err b row col Hn) as (e & E & K).
  exists e. split; [|done].
  unfold Board.expand_adjacent_cells, mbind, Op_bind, op_bind, get. by rewrite E.
Qed.

Lemma expand_gate_closed row col b :
  in_bounds b (row, col) → ¬ chord_gate b (row, col) →
  Board.expand_adjacent_cells random_sample row col b = Return ∅ b.
Proof.
  intros Hb Hgate. unfold Board.expand_adjacent_cells, mbind, Op_bind, op_bind, get.
  rewrite (validate_position_ok b row col Hb).
  unfold lift_except, mret, Op_ret, op_ret. cbv beta iota.
  change (get_adjacent_positions row col (Board.width b) (Board.height b))
    with (neighbours b (row, col)).
  rewrite scan_adjacent_spec.
  unfold Cell.is_revealed.
  destruct (Cell._state (Board.cell_at b (row, col))) eqn:Hs; try done.
  destruct (Cell.adjacent_mines (Board.cell_at b (row, col)) =? 0) eqn:Ha; [done|].
  simpl. case_bool_decide as Hf; [done|].
  exfalso. apply Hgate. split; [done|]. split; [lia|done].
Qed.

Lemma expand_gate_open row col b :
  in_bounds b (row, col) → chord_gate b (row, col) →
  Board.expand_adjacent_cells random_sample row col b =
  Board.reveal_hidden_adjacent random_sample (hidden_around b (row, col)) ∅ b.
Proof.
  intros Hb (Hs & Ha & Hf). unfold Board.expand_adjacent_cells, mbind, Op_bind, op_bind, get.
  rewrite (validate_position_ok b row col Hb).
  unfold lift_except, mret, Op_ret, op_ret. cbv beta iota.
  change (get_adjacent_positions row col (Board.width b) (Board.height b))
    with (neighbours b (row, col)).
  rewrite scan_adjacent_spec.
  unfold Cell.is_revealed. rewrite Hs.
  destruct (Cell.adjacent_mines (Board.cell_at b (row, col)) =? 0) eqn:Ha'; [lia|].
  simpl. by rewrite bool_decide_eq_false_2 by (by intros H; apply H).
Qed.

End ExpandCases.

(** ** Invariants of the public methods *)

Lemma chord_gate_dec b p : Decision (chord_gate b p).
Proof. unfold chord_gate. apply _. Defined.

Section Invariants.
Context (random_sample : Sampler).

(** An invariant of [reveal_cell] is an invariant of the loop of
    [expand_adjacent_cells] and of the method itself. *)
Lemma reveal_hidden_adjacent_inv (I : Board.t → Prop) :
  (∀ row col, hoare I (Board.reveal_cell random_sample row col) (λ _, I) (λ _, I)) →
  ∀ l acc, hoare I (Board.reveal_hidden_adjacent random_sample l acc) (λ _, I) (λ _, I).
Proof.
  intros Hreveal. induction l as [|adj l IH]; intros acc b Hb; [done|].
  cbn [Board.reveal_hidden_adjacent]. unfold mbind, Op_bind, op_bind.
  specialize (Hreveal adj.1 adj.2 b Hb).
  destruct (Board.reveal_cell random_sample adj.1 adj.2 b) as [ok s|e s|]; [|done|done].
  by apply IH.
Qed.

Lemma expand_adjacent_cells_inv (I : Board.t → Prop) row col :
  (∀ row col, hoare I (Board.reveal_cell random_sample row col) (λ _, I) (λ _, I)) →
  hoare I (Board.expand_adjacent_cells random_sample row col) (λ _, I) (λ _, I).
Proof.
  intros Hreveal b Hb. destruct (decide (in_bounds b (row, col))) as [Hin|Hout].
  2:{ by destruct (expand_out_of_bounds random_sample row col b Hout) as (e & -> & _). }
  destruct (chord_gate_dec b (row, col)) as [Hgate|Hgate].
  - rewrite expand_gate_open by done. by apply reveal_hidden_adjacent_inv.
  - by rewrite expand_gate_closed.
Qed.

Lemma perform_inv (I : Board.t → Prop) op :
  (∀ row col, hoare I (Board.reveal_cell random_sample row col) (λ _, I) (λ _, I)) →
  (∀ row col, hoare I (Board.flag_cell row col) (λ _, I) (λ _, I)) →
  hoare I (perform random_sample op) (λ _, I) (λ _, I).
Proof.
  intros Hreveal Hflag b Hb. destruct op as [row col|row col|row col];
    unfold perform, mbind, Op_bind, op_bind.
  - specialize (Hreveal row col b Hb). by destruct (Board.reveal_cell _ _ _ _).
  - specialize (Hflag row col b Hb). by destruct (Board.flag_cell _ _ _).
  - pose proof (expand_adjacent_cells_inv I row col Hreveal b Hb) as H.
    by destruct (Board.expand_adjacent_cells _ _ _ _).
Qed.

Lemma run_inv (I : Board.t → Prop) :
  (∀ row col, hoare I (Board.reveal_cell random_sample row col) (λ _, I) (λ _, I)) →
  (∀ row col, hoare I (Board.flag_cell row col) (λ _, I) (λ _, I)) →
  ∀ ops b, I b → ∃ b', run random_sample ops b = Some b' ∧ I b'.
Proof.
  intros Hreveal Hflag. induction ops as [|op ops IH]; intros b Hb; [by exists b|].
  cbn [run]. pose proof (perform_inv I op Hreveal Hflag b Hb) as H.
  destruct (perform random_sample op b) as [[] s|e s|]; [by apply IH|by apply IH|done].
Qed.

(** The counters follow the cells through every method. *)
Lemma reveal_cell_counters row col :
  hoare (λ b, grid_ok b ∧ counters_ok b) (Board.reveal_cell random_sample row col)
        (λ _ b, grid_ok b ∧ counters_ok b) (λ _ b, grid_ok b ∧ counters_ok b).
Proof.
  intros b [Hg Hc]. pose proof (reveal_cell_cases random_sample row col b Hg) as H.
  destruct (Board.reveal_cell random_sample row col b) as [[] s|e s|];
    [|by destruct H as (_ & _ & ->)|by destruct H as [-> _]|done].
  destruct H as (Hin & Hh & b1 & Hstart & Hpost).
  assert (grid_ok b1 ∧ counters_ok b1) as [Hg1 [Hc1 Hc1']].
  { destruct Hstart as [[_ ->]|(Hfc & bg & Eg & ->)]; [done|].
    pose proof (generate_mines_shape random_sample row col b Hg) as Hs. rewrite Eg in Hs.
    pose proof (counters_ok_keeps_states b bg Hs Hc) as Hcg.
    destruct Hs as (_ & _ & _ & _ & _ & _ & Hgg & _). done. }
  destruct Hpost as [Hgf [(_ & _ & _ & Hfl & _ & _) _] Hrc Hrev Hflg _ _ _ _ _ _ _].
  split; [done|]. split; [lia|congruence].
Qed.

Lemma flag_cell_counters row col :
  hoare (λ b, grid_ok b ∧ counters_ok b) (Board.flag_cell row col)
        (λ _ b, grid_ok b ∧ counters_ok b) (λ _ b, grid_ok b ∧ counters_ok b).
Proof.
  intros b [Hg [Hc Hc']]. pose proof (flag_cell_cases row col b Hg) as H.
  destruct (Board.flag_cell row col b) as [[] s|e s|];
    [|by destruct H as (_ & _ & ->)|by destruct H as [-> _]|done].
  destruct H as (Hin & Hs & ->).
  destruct (flag_one_facts (row, col) b Hg Hin Hs) as (Hg' & _ & _ & Hrc & Hr & Hf & _).
  split; [done|]. split; [congruence|lia].
Qed.

End Invariants.

Lemma grid_ok_new width height mine_count : grid_ok (Board.new width height mine_count).
Proof.
  split; simpl; unfold Board._initialize_grid, range.
  - by rewrite length_fmap, length_seqZ.
  - apply Forall_fmap, Forall_forall. intros row _. simpl.
    by rewrite length_fmap, length_seqZ.
Qed.

Lemma cell_at_new width height mine_count p :
  in_bounds (Board.new width height mine_count) p →
  Board.cell_at (Board.new width height mine_count) p = Cell.new p.1 p.2.
Proof.
  intros [Hr Hc]. simpl in Hr, Hc. unfold Board.cell_at. simpl.
  unfold Board._initialize_grid, range.
  rewrite list_lookup_fmap, lookup_seqZ_lt by lia. simpl.
  rewrite list_lookup_fmap, lookup_seqZ_lt by lia. simpl.
  f_equal; lia.
Qed.

Lemma tally_new P row cols :
  P (Cell.new 0 0) = false → (∀ r c, P (Cell.new r c) = P (Cell.new 0 0)) →
  tally P ((λ col, Cell.new row col) <$> cols) = 0%nat.
Proof.
  intros HP Hall. unfold tally. induction cols as [|col cols IHc]; [done|].
  rewrite !fmap_cons. cbn [sum_list sum_list_with]. unfold id in *.
  by rewrite IHc, Hall, HP.
Qed.

Lemma grid_count_new P width height mine_count :
  P (Cell.new 0 0) = false → (∀ r c, P (Cell.new r c) = P (Cell.new 0 0)) →
  grid_count P (Board.new width height mine_count) = 0%nat.
Proof.
  intros HP Hall. unfold grid_count. simpl. unfold Board._initialize_grid.
  induction (range height) as [|row rows IH]; [done|].
  rewrite !fmap_cons. cbn [sum_list sum_list_with]. unfold id in *.
  by rewrite IH, tally_new.
Qed.

Lemma counters_ok_new width height mine_count :
  counters_ok (Board.new width height mine_count).
Proof. split; (rewrite grid_count_new; [reflexivity|reflexivity|by intros]). Qed.

Lemma unmined_new width height mine_count : unmined (Board.new width height mine_count).
Proof.
  split; [apply grid_ok_new|]. split; [done|]. intros p Hp. by rewrite cell_at_new.
Qed.

(** ** The concrete samplers *)

Lemma sample_preferring_ok favourites : sampler_ok (sample_preferring favourites).
Proof.
  intros population k Hnd. unfold sample_preferring.
  destruct (k <? 0) eqn:E1; [simpl; split; [done|lia]|].
  destruct (Z.of_nat (length population) <? k) eqn:E2; [simpl; split; [done|lia]|].
  simpl. set (fav := remove_dups favourites).
  set (l := filter (λ p, p ∈ population) fav ++ filter (λ p, p ∉ fav) population).
  assert (NoDup l) as Hl.
  { apply NoDup_app. split; [apply NoDup_filter, NoDup_remove_dups|].
    split; [|by apply NoDup_filter].
    intros x Hx Hx'. apply list_elem_of_filter in Hx as [_ Hx], Hx' as [Hx' _]. done. }
  assert (∀ x, x ∈ l ↔ x ∈ population) as Hsame.
  { intros x. unfold l. rewrite elem_of_app, !list_elem_of_filter. split.
    - intros [[? ?]|[? ?]]; done.
    - intros Hx. destruct (decide (x ∈ fav)); [by left|by right]. }
  assert (length l = length population) as Hlen.
  { apply Permutation_length, NoDup_Permutation; done. }
  split; [lia|]. split; [|split].
  - rewrite length_take. lia.
  - exact (sublist_NoDup _ _ Hl (sublist_take _ _)).
  - intros x Hx. apply Hsame. by apply (subseteq_take (Z.to_nat k) l).
Qed.

(** ** The counters of the board *)

(** X2. On every board whose grid has the board's dimensions and whose
    counters agree with its cells (as on every board the constructor
    builds), after each operation of any sequence of [reveal_cell],
    [flag_cell] and [expand_adjacent_cells] calls (with any arguments,
    whether the call returns or raises, and whatever the sampler answers)
    [revealed_count] is the number of revealed cells and [flagged_count] the
    number of flagged cells. No call runs out of fuel. *)
Theorem counters_follow_cells (random_sample : Sampler) (b : Board.t)
    (ops : list BoardOp) (n : nat) :
  grid_ok b → counters_ok b →
  ∃ b', run random_sample (take n ops) b = Some b' ∧
        Board.revealed_count b' = Z.of_nat (grid_count Cell.is_revealed b') ∧
        Board.flagged_count b' = Z.of_nat (grid_count Cell.is_flagged b').
Proof.
  intros Hg Hc.
  destruct (run_inv random_sample (λ b, grid_ok b ∧ counters_ok b)
              (reveal_cell_counters random_sample) flag_cell_counters (take n ops) b)
    as (b' & E & _ & Hc'); [done|].
  by exists b'.
Qed.

Lemma counters_follow_cells_witness :
  grid_ok (Board.new 3 3 1) ∧ counters_ok (Board.new 3 3 1) ∧
  ∃ b', run (sample_preferring []) (take 3 [OpReveal 1 1; OpFlag 0 0; OpExpand 1 1])
            (Board.new 3 3 1) = Some b' ∧
        Board.revealed_count b' = Z.of_nat (grid_count Cell.is_revealed b') ∧
        Board.flagged_count b' = Z.of_nat (grid_count Cell.is_flagged b').
Proof.
  split; [apply grid_ok_new|]. split; [apply counters_ok_new|].
  apply counters_follow_cells; [apply grid_ok_new|apply counters_ok_new].
Defined.

(** The run of the witness, evaluated: eight revealed cells, one flag. *)
Example counters_on_a_small_game :
  (λ b, (Board.revealed_count b, grid_count Cell.is_revealed b,
         Board.flagged_count b, grid_count Cell.is_flagged b)) <$>
  run (sample_preferring []) [OpReveal 1 1; OpFlag 0 0; OpExpand 1 1] (Board.new 3 3 1)
  = Some (8, 8%nat, 1, 1%nat).
Proof. vm_compute. reflexivity. Qed.

(** ** The chord gate *)

(** X4. At an in-bounds position whose cell is not revealed, or carries a
    count of zero, or has a number of flagged neighbours different from its
    count, [expand_adjacent_cells] returns the empty set and leaves the
    board as it was: every cell and both counters. *)
Theorem expand_adjacent_cells_gate (random_sample : Sampler) (b : Board.t) (row col : Z) :
  in_bounds b (row, col) →
  Cell._state (Board.cell_at b (row, col)) ≠ CellState.RevealedState ∨
  Cell.adjacent_mines (Board.cell_at b (row, col)) = 0 ∨
  flagged_around b (row, col) ≠ Cell.adjacent_mines (Board.cell_at b (row, col)) →
  Board.expand_adjacent_cells random_sample row col b = Return ∅ b.
Proof.
  intros Hin Hclosed. apply expand_gate_closed; [done|].
  intros (H1 & H2 & H3). by destruct Hclosed as [?|[?|?]].
Qed.

Lemma expand_adjacent_cells_gate_witness :
  let b := default (Board.new 3 3 1)
             (run (sample_preferring []) [OpReveal 1 1; OpFlag 0 1; OpFlag 0 2] (Board.new 3 3 1)) in
  in_bounds b (1, 1) ∧
  flagged_around b (1, 1) ≠ Cell.adjacent_mines (Board.cell_at b (1, 1)) ∧
  Board.expand_adjacent_cells (sample_preferring []) 1 1 b = Return ∅ b.
Proof.
  assert (in_bounds (default (Board.new 3 3 1)
             (run (sample_preferring []) [OpReveal 1 1; OpFlag 0 1; OpFlag 0 2] (Board.new 3 3 1)))
            (1, 1)) as Hin by (vm_compute; split; split; congruence).
  assert (flagged_around (default (Board.new 3 3 1)
             (run (sample_preferring []) [OpReveal 1 1; OpFlag 0 1; OpFlag 0 2] (Board.new 3 3 1)))
            (1, 1) ≠ 1) as Hfl by (vm_compute; congruence).
  split; [exact Hin|]. split; [exact Hfl|].
  apply expand_adjacent_cells_gate; [exact Hin|]. right; right. exact Hfl.
Defined.

(** ** Boards before and after the first reveal *)

Lemma mined_set_first_click f b : mined b → mined (Board.set_first_click f b).
Proof. intros H. exact H. Qed.

Lemma fresh_new width height mine_count : fresh (Board.new width height mine_count).
Proof.
  split; [apply unmined_new|]. split; [done|]. intros p Hp. by rewrite cell_at_new.
Qed.

Lemma fresh_counts_ok b : fresh b → counts_ok b.
Proof.
  intros ((_ & He & _) & _ & Hz) p Hp _. rewrite Hz by done.
  unfold mines_around. rewrite He.
  induction (neighbours b p) as [|q l IH]; [done|].
  rewrite filter_cons. destruct (decide (q ∈ (∅ : gset pos))) as [Hq|_]; [|done].
  by apply not_elem_of_empty in Hq.
Qed.

Section Played.
Context (random_sample : Sampler).

Lemma reveal_cell_played b0 row col :
  hoare (λ b, played b ∧ keeps_mines b0 b) (Board.reveal_cell random_sample row col)
        (λ _ b, played b ∧ keeps_mines b0 b) (λ _ b, played b ∧ keeps_mines b0 b).
Proof.
  intros b [[Hm Hfc] Hk]. pose proof Hm as (Hg & _).
  pose proof (reveal_cell_cases random_sample row col b Hg) as H.
  destruct (Board.reveal_cell random_sample row col b) as [[] s|e s|];
    [|by destruct H as (_ & _ & ->)|by destruct H as [-> _]|done].
  destruct H as (Hin & Hh & b1 & Hstart & Hpost).
  destruct Hstart as [[_ ->]|(Hfc' & _)]; [|congruence].
  pose proof (reveals_only_keeps_mines _ _ (rp_frame _ _ _ _ Hpost)) as Hk'.
  split; [split|].
  - eapply mined_keeps_mines; [exact Hk'|apply (rp_grid _ _ _ _ Hpost)|done].
  - destruct (rp_frame _ _ _ _ Hpost) as [(_ & _ & _ & _ & Hf & _) _]. congruence.
  - by eapply keeps_mines_trans.
Qed.

Lemma flag_cell_played b0 row col :
  hoare (λ b, played b ∧ keeps_mines b0 b) (Board.flag_cell row col)
        (λ _ b, played b ∧ keeps_mines b0 b) (λ _ b, played b ∧ keeps_mines b0 b).
Proof.
  intros b [[Hm Hfc] Hk]. pose proof Hm as (Hg & _).
  pose proof (flag_cell_cases row col b Hg) as H.
  destruct (Board.flag_cell row col b) as [[] s|e s|];
    [|by destruct H as (_ & _ & ->)|by destruct H as [-> _]|done].
  destruct H as (Hin & Hs & ->).
  destruct (flag_one_facts (row, col) b Hg Hin Hs) as (Hg' & Hk' & Hfc' & _).
  split; [split|].
  - by eapply mined_keeps_mines.
  - congruence.
  - by eapply keeps_mines_trans.
Qed.

(** After the first reveal the public methods leave the mines alone. *)
Lemma run_played ops b :
  played b → ∃ b', run random_sample ops b = Some b' ∧ played b' ∧ keeps_mines b b'.
Proof.
  intros Hp.
  apply (run_inv random_sample (λ b', played b' ∧ keeps_mines b b')).
  - apply reveal_cell_played.
  - apply flag_cell_played.
  - split; [done|apply keeps_mines_refl].
Qed.

Context (random_sample_ok : sampler_ok random_sample).

(** A second call of [generate_mines] changes neither the mines nor the
    counts: the guard stops it, or (on a board of no mine at all) it
    generates the same empty set again. *)
Lemma generate_mines_again safe_row safe_col b :
  mined b →
  ∃ b', Board.generate_mines random_sample safe_row safe_col b = Return tt b' ∧
        keeps_mines b b'.
Proof.
  intros (Hg & [Hm1 Hm2] & Hc & Hs).
  destruct (decide (Board.mine_positions b = ∅)) as [He|Hne].
  2:{ exists b. rewrite generate_mines_guard by done. split; [done|apply keeps_mines_refl]. }
  assert (∀ p, in_bounds b p → Cell.is_mine (Board.cell_at b p) = false) as Hno.
  { intros p Hp. destruct (Cell.is_mine (Board.cell_at b p)) eqn:E; [|done].
    apply Hm2 in E; [|done]. rewrite He in E. by apply not_elem_of_empty in E. }
  pose proof (generate_mines_spec random_sample random_sample_ok safe_row safe_col b
                (conj Hg (conj He Hno))) as H.
  assert (Board.mine_count b = 0) as Hzero by (rewrite <- Hs, He, size_empty; done).
  destruct (Board.generate_mines random_sample safe_row safe_col b) as [[] bg|e s|] eqn:Eg;
    [|exfalso|done].
  - exists bg. split; [done|].
    destruct H as ((Hw & Hh & Hmc & _ & _ & _ & Hgg & _ & _ & _) & (_ & [Hg1 Hg2] & Hcg & Hsg) & _).
    assert (Board.mine_positions bg = ∅) as Heg.
    { apply leibniz_equiv, size_empty_inv. rewrite Hmc, Hzero in Hsg. lia. }
    assert (∀ p, in_bounds b p → Cell.is_mine (Board.cell_at bg p) = false) as Hnog.
    { intros p Hp. destruct (Cell.is_mine (Board.cell_at bg p)) eqn:E; [|done].
      apply Hg2 in E; [|unfold in_bounds in *; by rewrite Hw, Hh].
      rewrite Heg in E. by apply not_elem_of_empty in E. }
    do 3 (split; [done|]). split; [congruence|]. intros p Hp.
    split; [by rewrite Hno, Hnog|].
    rewrite Hc, Hcg; [|unfold in_bounds in *; by rewrite Hw, Hh|by apply Hnog|done|by apply Hno].
    unfold mines_around, neighbours. by rewrite Hw, Hh, Heg, He.
  - destruct H as [_ ->]. rewrite generate_mines_unfold in Eg by done.
    pose proof (random_sample_ok (Board.all_positions b safe_row safe_col) (Board.mine_count b)
                  (NoDup_all_positions b safe_row safe_col)) as Hsam.
    destruct (random_sample _ _) as [sample|e'].
    + destruct (_calculate_adjacent_mines_spec
        (place_mines (elements (list_to_set sample : gset pos))
           (Board.set_mine_positions (list_to_set sample) b))) as (x & Ex & _).
      { by apply place_mines_shape. }
      congruence.
    + destruct Hsam as [_ Hsam]. apply Hsam. lia.
Qed.

End Played.

Section Stages.
Context (random_sample : Sampler) (random_sample_ok : sampler_ok random_sample).

(** The first reveal of a board without mines: it raises when the mines do
    not fit on the board, and otherwise leaves a board with its mines in
    place, none under the revealed cell. *)
Lemma first_reveal_spec row col b :
  unmined b → Board.first_click b = true → in_bounds b (row, col) →
  Cell._state (Board.cell_at b (row, col)) = CellState.HiddenState →
  match Board.reveal_cell random_sample row col b with
  | Return ok bf => ok = true ∧ played bf ∧ (row, col) ∉ Board.mine_positions bf
  | Raise e s => s = b ∧ e = SampleLargerThanPopulation
  | OutOfFuel => False
  end.
Proof.
  intros Hu Hfc Hin Hh. pose proof Hu as (Hg & _).
  pose proof (reveal_cell_cases random_sample row col b Hg) as H.
  pose proof (generate_mines_spec random_sample random_sample_ok row col b Hu) as Hgen.
  destruct (Board.reveal_cell random_sample row col b) as [[] s|e s|]; [| | |done].
  - destruct H as (_ & _ & b1 & Hstart & Hpost).
    destruct Hstart as [[Hfc' _]|(_ & bg & Eg & ->)]; [congruence|].
    rewrite Eg in Hgen. destruct Hgen as (_ & Hm & Hsafe).
    pose proof (reveals_only_keeps_mines _ _ (rp_frame _ _ _ _ Hpost)) as Hk.
    destruct (rp_frame _ _ _ _ Hpost) as [(_ & _ & _ & _ & Hf & Hmp) _].
    split; [done|]. split; [split|].
    + eapply mined_keeps_mines; [exact Hk|apply (rp_grid _ _ _ _ Hpost)|].
      by apply mined_set_first_click.
    + by rewrite Hf.
    + by rewrite Hmp.
  - by destruct H as (_ & Hn & _).
  - destruct H as [-> [[Hn _]|(_ & _ & _ & Eg)]]; [done|].
    rewrite Eg in Hgen. by destruct Hgen as [_ ->].
Qed.

Lemma reveal_cell_stage row col :
  hoare (λ b, fresh b ∨ played b) (Board.reveal_cell random_sample row col)
        (λ _ b, fresh b ∨ played b) (λ _ b, fresh b ∨ played b).
Proof.
  intros b [Hf|Hp].
  - pose proof Hf as (Hu & Hfc & _). pose proof Hu as (Hg & _).
    pose proof (reveal_cell_cases random_sample row col b Hg) as H.
    destruct (decide (in_bounds b (row, col))) as [Hin|Hout].
    2:{ destruct (reveal_cell_out_of_bounds random_sample row col b Hout) as (e & -> & _).
        by left. }
    destruct (decide (Cell._state (Board.cell_at b (row, col)) = CellState.HiddenState))
      as [Hh|Hh].
    2:{ rewrite reveal_cell_not_hidden by done. by left. }
    pose proof (first_reveal_spec row col b Hu Hfc Hin Hh) as H1.
    destruct (Board.reveal_cell random_sample row col b) as [ok s|e s|]; [|..|done].
    + right. by destruct H1 as (_ & ? & _).
    + destruct H1 as [-> _]. by left.
  - pose proof (reveal_cell_played random_sample b row col b
                  (conj Hp (keeps_mines_refl b))) as H.
    destruct (Board.reveal_cell random_sample row col b) as [ok s|e s|]; [|..|done];
      right; by destruct H.
Qed.

Lemma flag_cell_stage row col :
  hoare (λ b, fresh b ∨ played b) (Board.flag_cell row col)
        (λ _ b, fresh b ∨ played b) (λ _ b, fresh b ∨ played b).
Proof.
  intros b [Hf|Hp].
  - pose proof Hf as ((Hg & He & Hno) & Hfc & Hz).
    pose proof (flag_cell_cases row col b Hg) as H.
    destruct (Board.flag_cell row col b) as [[] s|e s|];
      [|destruct H as (_ & _ & ->); by left|destruct H as [-> _]; by left|done].
    destruct H as (Hin & Hs & ->).
    destruct (flag_one_facts (row, col) b Hg Hin Hs)
      as (Hg' & (Hw & Hh & _ & Hmp & Hk) & Hfc' & _).
    left. split; [split; [done|split; [congruence|]]|split; [congruence|]].
    + intros p Hp. assert (in_bounds b p) as Hp' by (unfold in_bounds in *; by rewrite <- Hw, <- Hh).
      destruct (Hk p Hp') as [-> _]. by apply Hno.
    + intros p Hp. assert (in_bounds b p) as Hp' by (unfold in_bounds in *; by rewrite <- Hw, <- Hh).
      destruct (Hk p Hp') as [_ ->]. by apply Hz.
  - pose proof (flag_cell_played b row col b (conj Hp (keeps_mines_refl b))) as H.
    destruct (Board.flag_cell row col b) as [ok s|e s|]; [|..|done]; right; by destruct H.
Qed.

(** ** Mine generation happens once *)

(** X1. On a board on which no mine has been placed and the first click is
    pending, a reveal of a hidden in-bounds cell either raises (the sampler
    cannot draw [mine_count] positions; nothing has changed then) or
    succeeds and leaves [mine_count] mine positions, none of them the
    revealed position; from then on, after any sequence of public
    operations, a call of [generate_mines] at any position returns and
    leaves [mine_positions] and the [is_mine] and [adjacent_mines] of every
    cell as they were after the first reveal. *)
Theorem generate_mines_once (b : Board.t) (row col : Z) :
  unmined b → Board.first_click b = true → in_bounds b (row, col) →
  Cell._state (Board.cell_at b (row, col)) = CellState.HiddenState →
  match Board.reveal_cell random_sample row col b with
  | Return ok bf =>
      ok = true ∧
      Z.of_nat (size (Board.mine_positions bf)) = Board.mine_count bf ∧
      ((row, col) ∉ Board.mine_positions bf) ∧
      ∀ (ops : list BoardOp) (safe_row safe_col : Z),
        ∃ b' b'',
          run random_sample ops bf = Some b' ∧
          Board.generate_mines random_sample safe_row safe_col b' = Return tt b'' ∧
          Board.mine_positions b' = Board.mine_positions bf ∧
          Board.mine_positions b'' = Board.mine_positions bf ∧
          ∀ p, in_bounds bf p →
            Cell.is_mine (Board.cell_at b'' p) = Cell.is_mine (Board.cell_at bf p) ∧
            Cell.adjacent_mines (Board.cell_at b'' p)
            = Cell.adjacent_mines (Board.cell_at bf p)
  | Raise e s => s = b ∧ e = SampleLargerThanPopulation
  | OutOfFuel => False
  end.
Proof.
  intros Hu Hfc Hin Hh. pose proof (first_reveal_spec row col b Hu Hfc Hin Hh) as H.
  destruct (Board.reveal_cell random_sample row col b) as [ok bf|e s|]; [|done|done].
  destruct H as (-> & Hp & Hsafe). split; [done|].
  pose proof Hp as ((_ & _ & _ & Hsize) & _). split; [done|]. split; [done|].
  intros ops safe_row safe_col.
  destruct (run_played random_sample ops bf Hp) as (b' & Erun & [Hm' _] & Hk).
  destruct (generate_mines_again random_sample random_sample_ok safe_row safe_col b' Hm')
    as (b'' & Egen & Hk').
  exists b', b''. split; [done|]. split; [done|].
  pose proof (keeps_mines_trans _ _ _ Hk Hk') as (_ & _ & _ & Hmp & Hcells).
  destruct Hk as (_ & _ & _ & Hmp' & _). done.
Qed.

End Stages.

Lemma generate_mines_once_witness :
  sampler_ok (sample_preferring []) ∧ unmined (Board.new 3 3 1) ∧
  Board.first_click (Board.new 3 3 1) = true ∧ in_bounds (Board.new 3 3 1) (1, 1) ∧
  Cell._state (Board.cell_at (Board.new 3 3 1) (1, 1)) = CellState.HiddenState ∧
  ∃ bf, Board.reveal_cell (sample_preferring []) 1 1 (Board.new 3 3 1) = Return true bf ∧
        Z.of_nat (size (Board.mine_positions bf)) = Board.mine_count bf ∧
        (1, 1) ∉ Board.mine_positions bf.
Proof.
  assert (in_bounds (Board.new 3 3 1) (1, 1)) as Hin by (vm_compute; split; split; congruence).
  split; [apply sample_preferring_ok|]. split; [apply unmined_new|].
  split; [reflexivity|]. split; [exact Hin|]. split; [reflexivity|].
  pose proof (generate_mines_once (sample_preferring []) (sample_preferring_ok [])
                (Board.new 3 3 1) 1 1 (unmined_new 3 3 1) eq_refl Hin eq_refl) as H.
  destruct (Board.reveal_cell (sample_preferring []) 1 1 (Board.new 3 3 1))
    as [ok bf|e s|] eqn:E.
  - destruct H as (Hok & Hsize & Hsafe & _). rewrite Hok. exists bf.
    split; [reflexivity|]. split; assumption.
  - exfalso. vm_compute in E. discriminate E.
  - destruct H.
Defined.

(** ** The counts around the mines *)

(** X3. Once mine generation has run, every non-mine cell carries in
    [adjacent_mines] the number of positions of [mine_positions] among its
    in-bounds neighbours. This holds of the board [generate_mines] returns
    on any board without mines, and of every board reached from a
    constructed one by public operations (before the first reveal there is
    no mine and every count is zero). *)
Theorem adjacent_mines_counts_mine_positions (random_sample : Sampler) :
  sampler_ok random_sample →
  (∀ b safe_row safe_col,
     unmined b →
     match Board.generate_mines random_sample safe_row safe_col b with
     | Return _ bg =>
         ∀ p, in_bounds bg p → Cell.is_mine (Board.cell_at bg p) = false →
              Cell.adjacent_mines (Board.cell_at bg p) = mines_around bg p
     | Raise e s => s = b ∧ e = SampleLargerThanPopulation
     | OutOfFuel => False
     end) ∧
  (∀ width height mine_count ops,
     ∃ b', run random_sample ops (Board.new width height mine_count) = Some b' ∧
           ∀ p, in_bounds b' p → Cell.is_mine (Board.cell_at b' p) = false →
                Cell.adjacent_mines (Board.cell_at b' p) = mines_around b' p).
Proof.
  intros Hok. split.
  - intros b safe_row safe_col Hu.
    pose proof (generate_mines_spec random_sample Hok safe_row safe_col b Hu) as H.
    destruct (Board.generate_mines random_sample safe_row safe_col b) as [[] bg|e s|];
      [|done|done].
    by destruct H as (_ & (_ & _ & Hc & _) & _).
  - intros width height mine_count ops.
    destruct (run_inv random_sample (λ b, fresh b ∨ played b)
                (reveal_cell_stage random_sample Hok) flag_cell_stage
                ops (Board.new width height mine_count)) as (b' & E & Hst).
    { left. apply fresh_new. }
    exists b'. split; [done|].
    destruct Hst as [Hf|[(_ & _ & Hc & _) _]]; [by apply fresh_counts_ok|done].
Qed.

Lemma adjacent_mines_counts_mine_positions_witness :
  sampler_ok (sample_preferring []) ∧
  ∃ b', run (sample_preferring []) [OpFlag 2 2; OpReveal 1 1] (Board.new 3 3 2) = Some b' ∧
        ∀ p, in_bounds b' p → Cell.is_mine (Board.cell_at b' p) = false →
             Cell.adjacent_mines (Board.cell_at b' p) = mines_around b' p.
Proof.
  split; [apply sample_preferring_ok|].
  apply (adjacent_mines_counts_mine_positions (sample_preferring [])
           (sample_preferring_ok [])).
Defined.

(** The board of the witness: mines at (0,0) and (0,1), and the counts
    around them. *)
Example counts_on_a_small_board :
  (λ b, (elements (Board.mine_positions b),
         map (map Cell.adjacent_mines) (Board.cells b))) <$>
  run (sample_preferring []) [OpFlag 2 2; OpReveal 1 1] (Board.new 3 3 2)
  = Some ([(0, 1); (0, 0)], [[0; 0; 1]; [2; 2; 1]; [0; 0; 0]]).
Proof. vm_compute. reflexivity. Qed.

(** ** The flood fill *)

Lemma mined_empty_neighbours b p :
  mined b → in_bounds b p → is_empty_cell (Board.cell_at b p) = true →
  ∀ q, q ∈ neighbours b p → Cell.is_mine (Board.cell_at b q) = false.
Proof.
  intros (_ & [_ Hm] & Hc & _) Hp He q Hq. unfold is_empty_cell in He.
  apply andb_true_iff in He as [Ha Hnm]. apply negb_true_iff in Hnm.
  apply Z.eqb_eq in Ha. rewrite (Hc p Hp Hnm) in Ha. unfold mines_around in Ha.
  destruct (Cell.is_mine (Board.cell_at b q)) eqn:E; [|done].
  apply Hm in E; [|by eapply neighbours_in_bounds].
  assert (q ∈ filter (λ q, q ∈ Board.mine_positions b) (neighbours b p)) as Hin
    by (by apply list_elem_of_filter).
  destruct (filter _ _); [by apply elem_of_nil in Hin|simpl in Ha; lia].
Qed.

Lemma mined_adjacent_mines_nonneg b p :
  mined b → in_bounds b p → Cell.is_mine (Board.cell_at b p) = false →
  0 ≤ Cell.adjacent_mines (Board.cell_at b p).
Proof.
  intros (_ & _ & Hc & _) Hp Hnm. rewrite (Hc p Hp Hnm). unfold mines_around. lia.
Qed.

Lemma reveal_log_run p b1 bf :
  is_empty_cell (Board.cell_at (reveal_one p b1) p) = true →
  reveal_tail p b1 = Return true bf →
  flood_loop_log (Board.flood_fuel (reveal_one p b1)) [p] ∅ (reveal_one p b1) []
  = Some (bf, reveal_log p b1).
Proof.
  intros He. unfold reveal_tail, reveal_log. fold (reveal_one p b1). rewrite He.
  pose proof (flood_loop_log_erase (Board.flood_fuel (reveal_one p b1)) [p] ∅
                (reveal_one p b1) []) as Er.
  destruct (flood_loop_log _ _ _ _ _) as [[bf' l]|]; rewrite <- Er;
    cbn [fmap option_fmap option_map fst]; [|done].
  by intros [= ->].
Qed.

Section FloodFill.
Context (random_sample : Sampler).

(** Once the mines are in place, [reveal_cell] at a hidden position runs on
    the board itself, up to the first-click flag. *)
Lemma reveal_cell_after_generation row col b :
  Board.first_click b = false ∨ Board.mine_positions b ≠ ∅ →
  in_bounds b (row, col) →
  Cell._state (Board.cell_at b (row, col)) = CellState.HiddenState →
  ∃ b1, (b1 = b ∨ b1 = Board.set_first_click false b) ∧
        Board.reveal_cell random_sample row col b = reveal_tail (row, col) b1.
Proof.
  intros Hgen Hin Hh. rewrite reveal_cell_hidden by done.
  destruct (Board.first_click b) eqn:Hfc.
  - destruct Hgen as [?|Hne]; [done|]. rewrite generate_mines_guard by done.
    eexists. split; [by right|done].
  - eexists. split; [by left|done].
Qed.

(** X5. On a board whose mines are in place, revealing a hidden cell that
    has no mine and no mine around it returns [True] and reveals a region:
    the cell and the positions of the log of the flood fill. The region is
    exactly the set of cells that changed; each of its cells was hidden
    before the call, is revealed after it, is revealed exactly once, holds
    no mine, and is linked to the clicked cell by a chain of adjacent cells
    of the region; a cell of the region that still has a hidden neighbour
    after the call carries a positive count; and no flagged cell is
    touched. *)
Theorem flood_fill_region (b : Board.t) (row col : Z) :
  mined b → Board.first_click b = false ∨ Board.mine_positions b ≠ ∅ →
  in_bounds b (row, col) →
  Cell._state (Board.cell_at b (row, col)) = CellState.HiddenState →
  is_empty_cell (Board.cell_at b (row, col)) = true →
  ∃ bf b1 log,
    Board.reveal_cell random_sample row col b = Return true bf ∧
    (b1 = b ∨ b1 = Board.set_first_click false b) ∧
    flood_loop_log (Board.flood_fuel (reveal_one (row, col) b1)) [(row, col)] ∅
      (reveal_one (row, col) b1) [] = Some (bf, log) ∧
    NoDup ((row, col) :: log) ∧
    (∀ q, in_bounds b q →
       Board.cell_at bf q ≠ Board.cell_at b q ↔ q ∈ (row, col) :: log) ∧
    (∀ q, q ∈ (row, col) :: log →
       Cell._state (Board.cell_at b q) = CellState.HiddenState ∧
       Cell._state (Board.cell_at bf q) = CellState.RevealedState ∧
       Cell.is_mine (Board.cell_at bf q) = false ∧
       connected b (λ q', q' ∈ (row, col) :: log) (row, col) q) ∧
    (∀ q q', q ∈ (row, col) :: log → q' ∈ neighbours b q →
       Cell._state (Board.cell_at bf q') = CellState.HiddenState →
       0 < Cell.adjacent_mines (Board.cell_at bf q)) ∧
    (∀ q, in_bounds b q →
       Cell._state (Board.cell_at b q) = CellState.FlaggedState →
       Board.cell_at bf q = Board.cell_at b q).
Proof.
  intros Hm Hgen Hin Hh He. pose proof Hm as (Hg & _).
  destruct (reveal_cell_after_generation row col b Hgen Hin Hh) as (b1 & Hb1 & ->).
  assert (grid_ok b1 ∧ mined b1 ∧ in_bounds b1 (row, col) ∧
          (∀ q, Board.cell_at b1 q = Board.cell_at b q) ∧
          (∀ q, in_bounds b1 q ↔ in_bounds b q) ∧
          (∀ q, neighbours b1 q = neighbours b q)) as (Hg1 & Hm1 & Hin1 & Hc1 & Hi1 & Hn1).
  { by destruct Hb1 as [->| ->]. }
  destruct (reveal_tail_spec (row, col) b1 Hg1 Hin1) as (bf & Etail & Hpost).
  { by rewrite Hc1. }
  assert (is_empty_cell (Board.cell_at (reveal_one (row, col) b1) (row, col)) = true) as He2.
  { destruct (reveal_one_facts (row, col) b1 Hg1 Hin1 ltac:(by rewrite Hc1))
      as (_ & _ & [_ Hstep] & _).
    rewrite (cell_step_is_empty _ _ (Hstep _ Hin1)). by rewrite Hc1. }
  exists bf, b1, (reveal_log (row, col) b1). split; [done|]. split; [done|].
  split; [by apply reveal_log_run|].
  destruct Hpost as [Hgf [Hfr Hcells] _ _ _ Hnd Hlog Hchg _ Hclosed Hconn Hsafe].
  assert (∀ q, q ∈ (row, col) :: reveal_log (row, col) b1 →
            Cell.is_mine (Board.cell_at b q) = false) as Hnomine.
  { intros q Hq. apply elem_of_cons in Hq as [->|Hq].
    - unfold is_empty_cell in He. apply andb_true_iff in He as [_ Hnm].
      by apply negb_true_iff in Hnm.
    - rewrite <- Hc1. apply Hsafe; [|done]. intros x Hx Hxe y Hy.
      by apply (mined_empty_neighbours b1 x). }
  assert (∀ q, in_bounds b q →
            Cell.is_mine (Board.cell_at bf q) = Cell.is_mine (Board.cell_at b q) ∧
            Cell.adjacent_mines (Board.cell_at bf q)
            = Cell.adjacent_mines (Board.cell_at b q)) as Hattr.
  { intros q Hq. rewrite <- Hc1. apply Hi1 in Hq.
    split; [by apply cell_step_is_mine, Hcells|by apply cell_step_adjacent_mines, Hcells]. }
  split; [done|]. split; [|split; [|split]].
  - intros q Hq. split.
    + intros Hne. apply Hchg; [by apply Hi1|]. by rewrite Hc1.
    + intros Hq' Heq. destruct (Hlog q Hq') as (_ & H0 & H1). rewrite Hc1 in H0. congruence.
  - intros q Hq. destruct (Hlog q Hq) as (Hqb & H0 & H1). apply Hi1 in Hqb.
    rewrite Hc1 in H0. split; [done|]. split; [done|]. split.
    + destruct (Hattr q Hqb) as [-> _]. by apply Hnomine.
    + eapply connected_transfer; [| |by apply Hconn]; [by intros; rewrite Hn1|done].
  - intros q q' Hq Hq' Hhid.
    destruct (Hlog q Hq) as (Hqb & _ & _). apply Hi1 in Hqb.
    destruct (Hattr q Hqb) as [_ ->].
    pose proof (Hnomine q Hq) as Hnm.
    pose proof (mined_adjacent_mines_nonneg b q Hm Hqb Hnm) as Hge.
    destruct (decide (Cell.adjacent_mines (Board.cell_at b q) = 0)) as [Hz|Hz]; [|lia].
    exfalso.
    assert (Cell.is_hidden (Board.cell_at bf q') = false) as Hnh.
    { apply (Hclosed q Hq); [|by rewrite Hn1].
      rewrite Hc1. unfold is_empty_cell. by rewrite Hz, Hnm. }
    unfold Cell.is_hidden in Hnh. by rewrite Hhid in Hnh.
  - intros q Hq Hfl. rewrite <- Hc1. apply (cell_step_flagged (Board.cell_at b1 q)).
    + apply Hcells. by apply Hi1.
    + by rewrite Hc1.
Qed.

End FloodFill.

(** ** Chord expansion *)

Lemma stage_after_run random_sample width height mine_count ops :
  sampler_ok random_sample →
  ∃ b, run random_sample ops (Board.new width height mine_count) = Some b ∧
       (fresh b ∨ played b).
Proof.
  intros Hok.
  apply (run_inv random_sample (λ b, fresh b ∨ played b)
           (reveal_cell_stage random_sample Hok) flag_cell_stage).
  left. apply fresh_new.
Qed.


Section Chord.
Context (random_sample : Sampler).



End Chord.

(** ** Two small games *)

(** A row of five cells with one mine in the middle, after a reveal of its
    left end: the flood fill stopped at the cell next to the mine. *)
Lemma row_of_five_played :
  let rs := sample_preferring [(0, 2)] in
  ∃ b, run rs [OpReveal 0 0] (Board.new 5 1 1) = Some b ∧ played b ∧
       in_bounds b (0, 4) ∧
       Cell._state (Board.cell_at b (0, 4)) = CellState.HiddenState ∧
       is_empty_cell (Board.cell_at b (0, 4)) = true.
Proof.
  intros rs.
  destruct (stage_after_run rs 5 1 1 [OpReveal 0 0] (sample_preferring_ok _))
    as (b & E & Hst).
  exists b. split; [exact E|].
  vm_compute in E. injection E as <-.
  split; [|split; [|split]].
  - destruct Hst as [(_ & Hfc & _)|Hp]; [discriminate Hfc|exact Hp].
  - vm_compute. split; split; congruence.
  - reflexivity.
  - reflexivity.
Qed.

(** A board of four by four with one mine in a corner, after a reveal next
    to the mine and a flag on the mine: the chord gate is open. *)
Lemma four_by_four_played :
  let rs := sample_preferring [(0, 0)] in
  ∃ b, run rs [OpReveal 1 1; OpFlag 0 0] (Board.new 4 4 1) = Some b ∧ played b ∧
       in_bounds b (1, 1) ∧ chord_gate b (1, 1).
Proof.
  intros rs.
  destruct (stage_after_run rs 4 4 1 [OpReveal 1 1; OpFlag 0 0] (sample_preferring_ok _))
    as (b & E & Hst).
  exists b. split; [exact E|].
  vm_compute in E. injection E as <-.
  split; [|split].
  - destruct Hst as [(_ & Hfc & _)|Hp]; [discriminate Hfc|exact Hp].
  - vm_compute. split; split; congruence.
  - split; [reflexivity|]. split; [|reflexivity]. vm_compute. congruence.
Qed.

Lemma flood_fill_region_witness :
  let rs := sample_preferring [(0, 2)] in
  ∃ b, run rs [OpReveal 0 0] (Board.new 5 1 1) = Some b ∧
       mined b ∧ Board.first_click b = false ∧ in_bounds b (0, 4) ∧
       Cell._state (Board.cell_at b (0, 4)) = CellState.HiddenState ∧
       is_empty_cell (Board.cell_at b (0, 4)) = true ∧
       ∃ bf, Board.reveal_cell rs 0 4 b = Return true bf.
Proof.
  intros rs. destruct row_of_five_played as (b & E & [Hm Hfc] & Hin & Hh & He).
  exists b. split; [exact E|]. split; [exact Hm|]. split; [exact Hfc|].
  split; [exact Hin|]. split; [exact Hh|]. split; [exact He|].
  destruct (flood_fill_region rs b 0 4 Hm (or_introl Hfc) Hin Hh He)
    as (bf & _ & _ & Ebf & _).
  exists bf. exact Ebf.
Defined.


(** The chord of the second game, evaluated: the set holds the two
    neighbours whose own reveal succeeded, while the cascade of the second
    one revealed thirteen cells, the far corner among them. *)
Example expand_adjacent_cells_skips_the_cascade :
  let rs := sample_preferring [(0, 0)] in
  (λ b, match Board.expand_adjacent_cells rs 1 1 b with
        | Return expanded bf =>
            Some (elements expanded, grid_count Cell.is_revealed b,
                  grid_count Cell.is_revealed bf,
                  Cell._state (Board.cell_at b (3, 3)),
                  Cell._state (Board.cell_at bf (3, 3)))
        | _ => None
        end) <$> run rs [OpReveal 1 1; OpFlag 0 0] (Board.new 4 4 1)
  = Some (Some ([(0, 2); (0, 1)], 1%nat, 15%nat,
                CellState.HiddenState, CellState.RevealedState)).
Proof. vm_compute. reflexivity. Qed.

(** ** The game session *)

Section Session.
Context (random_sample : Sampler).

Lemma reveal_cell_grid row col :
  hoare grid_ok (Board.reveal_cell random_sample row col) (λ _, grid_ok) (λ _, grid_ok).
Proof.
  intros b Hg. pose proof (reveal_cell_cases random_sample row col b Hg) as H.
  destruct (Board.reveal_cell random_sample row col b) as [[] s|e s|];
    [|by destruct H as (_ & _ & ->)|by destruct H as [-> _]|done].
  destruct H as (_ & _ & b1 & _ & Hpost). apply (rp_grid _ _ _ _ Hpost).
Qed.

(** X7. A move whose action is neither ['reveal'] nor ['flag'] returns
    [False] and touches neither the board nor the counters. On a session
    that is playing nothing changes at all; on a new session the game is
    started first, so the state becomes playing and the start time is set;
    in every other state the call raises and changes nothing. *)
Theorem make_move_unknown_action (now_start now_end row col : Z) (action : string)
    (s : GameSession.t) :
  action ≠ "reveal" → action ≠ "flag" →
  GameSession.make_move random_sample now_start now_end row col action s =
  match GameSession.state s with
  | PLAYING => Return false s
  | NEW =>
      Return false
        (GameSession.set_start_time (Some now_start) (GameSession.set_state PLAYING s))
  | PAUSED | WON | LOST => Raise CannotMakeMove s
  end.
Proof.
  intros Hr Hf. unfold GameSession.make_move, mbind, Op_bind, op_bind, get.
  rewrite (bool_decide_eq_false_2 (action = "reveal")) by done.
  rewrite (bool_decide_eq_false_2 (action = "flag")) by done.
  unfold GameSession.start_game, mbind, Op_bind, op_bind, get, modify, raise, mret,
    Op_ret, op_ret.
  destruct s as [i d b st t0 t1 m f]. by destruct st.
Qed.

(** X8. A chord expansion never ends the game as lost: on a playing
    session whose board is well formed, [expand_adjacent] returns or raises
    with the session playing or won, whatever the expansion revealed. *)
Theorem expand_adjacent_never_loses (now row col : Z) (s : GameSession.t) :
  grid_ok (GameSession.board s) → GameSession.state s = PLAYING →
  match GameSession.expand_adjacent random_sample now row col s with
  | Return _ s' | Raise _ s' =>
      GameSession.state s' = PLAYING ∨ GameSession.state s' = WON
  | OutOfFuel => False
  end.
Proof.
  intros Hg Hs. unfold GameSession.expand_adjacent, mbind, Op_bind, op_bind, get.
  rewrite bool_decide_eq_false_2 by (by intros H; apply H).
  unfold mret, Op_ret, op_ret, zoom.
  pose proof (expand_adjacent_cells_inv random_sample grid_ok row col reveal_cell_grid
                (GameSession.board s) Hg) as H.
  destruct (Board.expand_adjacent_cells random_sample row col (GameSession.board s))
    as [expanded b'|e b'|]; [|by left|done].
  case_bool_decide; unfold modify; cbn [GameSession.board GameSession.set_board
    GameSession.set_moves_count]; [|by left].
  by destruct (Board.check_win_condition b'); [right|left].
Qed.

End Session.

Lemma make_move_unknown_action_witness :
  "hint" ≠ "reveal" ∧ "hint" ≠ "flag" ∧
  GameSession.make_move (sample_preferring []) 7 8 0 0 "hint" (GameSession.new BEGINNER "game")
  = Return false
      (GameSession.set_start_time (Some 7)
         (GameSession.set_state PLAYING (GameSession.new BEGINNER "game"))).
Proof.
  split; [discriminate|]. split; [discriminate|].
  apply (make_move_unknown_action (sample_preferring []) 7 8 0 0 "hint"
           (GameSession.new BEGINNER "game")); discriminate.
Defined.


Lemma expand_adjacent_never_loses_witness :
  grid_ok (GameSession.board wrong_flag_game) ∧
  GameSession.state wrong_flag_game = PLAYING ∧
  match GameSession.expand_adjacent wrong_flag_sampler 5 1 1 wrong_flag_game with
  | Return _ s' | Raise _ s' =>
      GameSession.state s' = PLAYING ∨ GameSession.state s' = WON
  | OutOfFuel => False
  end.
Proof.
  assert (Hg : grid_ok (GameSession.board wrong_flag_game)).
  { vm_compute. split; [reflexivity|]. repeat constructor. }
  split; [exact Hg|]. split; [reflexivity|].
  exact (expand_adjacent_never_loses wrong_flag_sampler 5 1 1 wrong_flag_game Hg eq_refl).
Defined.

(** The chord of that game uncovers the mine in the corner, and since the
    wrongly flagged cell is the only other one left, the revealed counter
    reaches the number of cells without a mine: the session is won with a
    mine uncovered. *)
Example expand_adjacent_wins_on_a_mine :
  (λ o, match o with
        | Return r s =>
            Some (r, GameSession.state s,
                  Board.check_lose_condition (GameSession.board s),
                  Cell.is_mine (Board.cell_at (GameSession.board s) (0, 0)),
                  Cell._state (Board.cell_at (GameSession.board s) (0, 0)),
                  Board.revealed_count (GameSession.board s))
        | _ => None
        end)
    (GameSession.expand_adjacent wrong_flag_sampler 5 1 1 wrong_flag_game)
  = Some (true, WON, true, true, CellState.RevealedState, 71).
Proof. vm_compute. reflexivity. Qed.

(** ** The validators *)

(** X9. [get_adjacent_positions] lists, without repetition, exactly the
    positions that pass [validate_position], lie within one step of the
    target in each direction and differ from it; there are at most eight,
    and a position of the grid is adjacent to each of its own adjacent
    positions. *)
Theorem get_adjacent_positions_spec (row col width height : Z) :
  NoDup (get_adjacent_positions row col width height) ∧
  (length (get_adjacent_positions row col width height) ≤ 8)%nat ∧
  (∀ q, q ∈ get_adjacent_positions row col width height ↔
        validate_position q.1 q.2 width height = Ok true ∧
        Z.abs (q.1 - row) ≤ 1 ∧ Z.abs (q.2 - col) ≤ 1 ∧ q ≠ (row, col)) ∧
  (∀ q, q ∈ get_adjacent_positions row col width height →
        validate_position row col width height = Ok true →
        (row, col) ∈ get_adjacent_positions q.1 q.2 width height).
Proof.
  assert (Hv : ∀ r c, validate_position r c width height = Ok true ↔
                      0 ≤ r < height ∧ 0 ≤ c < width).
  { intros r c. unfold validate_position.
    destruct (r <? 0) eqn:E1, (r >=? height) eqn:E2, (c <? 0) eqn:E3,
      (c >=? width) eqn:E4; cbn [orb]; split; try discriminate; try lia; done. }
  split; [|split; [apply get_adjacent_positions_length|split]].
  - assert (Hopt : ∀ (c : bool) (x : pos) l l',
              l `sublist_of` l' → (if c then [x] else []) ++ l `sublist_of` x :: l').
    { intros [] x l l' H; [by apply sublist_skip|by apply sublist_cons]. }
    unfold get_adjacent_positions. cbn [mbind list_bind app].
    rewrite !Z.eqb_refl. cbn [andb orb negb Z.eqb app].
    rewrite <- !(assoc_L (++)).
    eapply sublist_NoDup; [|do 8 apply Hopt; reflexivity].
    repeat (apply NoDup_cons; split;
            [rewrite ?elem_of_cons, elem_of_nil; intros H;
             repeat destruct H as [H|H]; try done; injection H; lia|]).
    apply NoDup_nil_2.
  - intros q. rewrite elem_of_get_adjacent_positions, Hv.
    split; intros (H1 & H2 & H3 & H4); (split; [lia|]); do 2 (split; [lia|]); exact H4.
  - intros [r c] Hq Hp. apply elem_of_get_adjacent_positions in Hq.
    apply Hv in Hp. apply elem_of_get_adjacent_positions. cbn [fst snd] in *.
    split; [lia|]. split; [lia|]. split; [lia|].
    destruct Hq as (_ & _ & _ & Hne). intros E. apply Hne. congruence.
Qed.

(** X10. On every board the validator accepts by its dimensions, the mine
    count [suggest_reasonable_settings] proposes is the integer part of
    fifteen hundredths of the cells, neither clamp being reached, and
    [create_custom_difficulty] accepts it. *)
Theorem suggest_reasonable_settings_valid (width height : Z) :
  9 ≤ width ≤ 30 → 9 ≤ height ≤ 30 →
  suggest_reasonable_settings width height = 15 * (width * height) / 100 ∧
  validate_board_settings width height (suggest_reasonable_settings width height) = Ok true ∧
  create_custom_difficulty width height (suggest_reasonable_settings width height)
  = Ok (mkDifficultyLevel "Custom" width height (suggest_reasonable_settings width height)).
Proof.
  intros Hw Hh.
  assert (Ht : 81 ≤ width * height ≤ 900) by nia.
  assert (Hs : suggest_reasonable_settings width height = 15 * (width * height) / 100).
  { unfold suggest_reasonable_settings.
    pose proof (holds_from_spec _ _ _ (width * height) suggestion_table) as H.
    rewrite Z2Nat.id in H by lia. specialize (H ltac:(lia)).
    unfold suggestion_agrees in H. apply Z.eqb_eq in H. rewrite H.
    pose proof (Z.div_le_lower_bound (15 * (width * height)) 100 12 ltac:(lia) ltac:(lia)).
    pose proof (Z.div_le_upper_bound (15 * (width * height)) 100 (width * height - 1)
                  ltac:(lia) ltac:(lia)).
    lia. }
  assert (Hv : validate_board_settings width height
                 (suggest_reasonable_settings width height) = Ok true).
  { apply validate_board_settings_iff. rewrite Hs.
    pose proof (Z.div_le_lower_bound (15 * (width * height)) 100 12 ltac:(lia) ltac:(lia)).
    pose proof (Z.div_le_upper_bound (15 * (width * height)) 100 (width * height - 1)
                  ltac:(lia) ltac:(lia)).
    pose proof (Z.mul_div_le (15 * (width * height)) 100 ltac:(lia)).
    lia. }
  split; [exact Hs|]. split; [exact Hv|].
  unfold create_custom_difficulty. by rewrite Hv.
Qed.

Lemma suggest_reasonable_settings_valid_witness :
  9 ≤ 30 ≤ 30 ∧ 9 ≤ 16 ≤ 30 ∧
  suggest_reasonable_settings 30 16 = 72 ∧
  validate_board_settings 30 16 (suggest_reasonable_settings 30 16) = Ok true.
Proof.
  split; [lia|]. split; [lia|].
  destruct (suggest_reasonable_settings_valid 30 16 ltac:(lia) ltac:(lia)) as (Hs & Hv & _).
  split; [exact Hs|exact Hv].
Defined.

(** X11. Which error [validate_board_settings] raises: the width is
    checked first, then the height, then the lower and the upper bound of
    the mine count, and the density last, so that the density error is
    raised exactly on boards with valid dimensions and a mine count below
    the number of cells but above a quarter of it; no other error is ever
    raised. *)
Theorem validate_board_settings_errors (width height mine_count : Z) (e : ValueError) :
  validate_board_settings width height mine_count = Err e ↔
  match e with
  | WidthOutOfRange => width < 9 ∨ 30 < width
  | HeightOutOfRange => 9 ≤ width ≤ 30 ∧ (height < 9 ∨ 30 < height)
  | MineCountTooSmall => 9 ≤ width ≤ 30 ∧ 9 ≤ height ≤ 30 ∧ mine_count < 1
  | MineCountTooLarge =>
      9 ≤ width ≤ 30 ∧ 9 ≤ height ≤ 30 ∧ width * height ≤ mine_count
  | DensityTooHigh =>
      9 ≤ width ≤ 30 ∧ 9 ≤ height ≤ 30 ∧ mine_count < width * height ∧
      width * height < 4 * mine_count
  | _ => False
  end.
Proof.
  unfold validate_board_settings.
  destruct (width <? 9) eqn:W1; [destruct e; cbn [orb]; split; try done; lia|].
  destruct (width >? 30) eqn:W2; [destruct e; cbn [orb]; split; try done; lia|].
  destruct (height <? 9) eqn:H1; [destruct e; cbn [orb]; split; try done; lia|].
  destruct (height >? 30) eqn:H2; [destruct e; cbn [orb]; split; try done; lia|].
  destruct (mine_count <? 1) eqn:M1; [destruct e; cbn [orb]; split; try done; nia|].
  destruct (mine_count >=? width * height) eqn:M2;
    [destruct e; cbn [orb]; split; try done; nia|].
  cbn [orb]. cbv zeta. rewrite density_check_exact by nia.
  destruct (width * height <? 4 * mine_count) eqn:D; destruct e; split; try done; lia.
Qed.

(** ** Edges of the board methods *)

Section BoardEdges.
Context (random_sample : Sampler).

(** X12. A position outside the grid makes [reveal_cell], [flag_cell] and
    [expand_adjacent_cells] raise the error of [validate_position], the one
    about the row when the row is out of range whatever the column is, and
    leaves the board as it was. *)
Theorem position_out_of_bounds (b : Board.t) (row col : Z) :
  ¬ in_bounds b (row, col) →
  let e := if bool_decide (0 ≤ row < Board.height b)
           then ColumnOutOfBounds else RowOutOfBounds in
  Board.reveal_cell random_sample row col b = Raise e b ∧
  Board.flag_cell row col b = Raise e b ∧
  Board.expand_adjacent_cells random_sample row col b = Raise e b.
Proof.
  intros Hb e.
  assert (Hv : validate_position row col (Board.width b) (Board.height b) = Err e).
  { unfold validate_position, e, in_bounds in *. cbn [fst snd] in Hb.
    case_bool_decide as Hr.
    - destruct (row <? 0) eqn:E1; [lia|]. destruct (row >=? Board.height b) eqn:E2; [lia|].
      destruct (col <? 0) eqn:E3; [done|].
      destruct (col >=? Board.width b) eqn:E4; [done|]. lia.
    - destruct (row <? 0) eqn:E1; [done|].
      destruct (row >=? Board.height b) eqn:E2; [done|]. lia. }
  unfold Board.reveal_cell, Board.flag_cell, Board.expand_adjacent_cells,
    mbind, Op_bind, op_bind, get.
  by rewrite Hv.
Qed.

Lemma reveal_cell_states row col b :
  grid_ok b →
  match Board.reveal_cell random_sample row col b with
  | Return _ bf | Raise _ bf =>
      grid_ok bf ∧ Board.width bf = Board.width b ∧ Board.height bf = Board.height b ∧
      ∀ p, in_bounds b p →
        Cell._state (Board.cell_at bf p) = Cell._state (Board.cell_at b p) ∨
        (Cell._state (Board.cell_at b p) = CellState.HiddenState ∧
         Cell._state (Board.cell_at bf p) = CellState.RevealedState)
  | OutOfFuel => False
  end.
Proof.
  intros Hg. pose proof (reveal_cell_cases random_sample row col b Hg) as H.
  destruct (Board.reveal_cell random_sample row col b) as [[] bf|e bf|]; [| | |done].
  - destruct H as (_ & _ & b1 & Hstart & Hpost).
    assert (Hb1 : Board.width b1 = Board.width b ∧ Board.height b1 = Board.height b ∧
                  ∀ p, in_bounds b p →
                    Cell._state (Board.cell_at b1 p) = Cell._state (Board.cell_at b p)).
    { destruct Hstart as [[_ ->]|(_ & bg & Hgen & ->)]; [done|].
      pose proof (generate_mines_shape random_sample row col b Hg) as Hs.
      rewrite Hgen in Hs. destruct Hs as (Hw & Hh & _ & _ & _ & _ & _ & _ & _ & Hst).
      done. }
    destruct Hb1 as (Hw & Hh & Hst).
    destruct (rp_frame _ _ _ _ Hpost) as [(Hw' & Hh' & _) Hstep].
    split; [apply (rp_grid _ _ _ _ Hpost)|]. split; [congruence|]. split; [congruence|].
    intros p Hp. assert (Hp1 : in_bounds b1 p) by (unfold in_bounds in *; lia).
    destruct (Hstep p Hp1) as [->|[Hh1 ->]]; [left; by apply Hst|].
    right. split; [by rewrite <- Hst|].
    unfold Cell.reveal, Cell.can_reveal. by rewrite Hh1.
  - destruct H as (_ & _ & ->). do 3 (split; [done|]). intros; by left.
  - destruct H as [-> _]. do 3 (split; [done|]). intros; by left.
Qed.

(** X13. A revealed cell stays revealed: whatever sequence of reveals,
    flags and chords follows, returning or raising, no call changes the
    state of a cell that is revealed. *)
Theorem revealed_cells_stay_revealed (b : Board.t) (p : pos) (ops : list BoardOp) :
  grid_ok b → in_bounds b p →
  Cell._state (Board.cell_at b p) = CellState.RevealedState →
  ∃ b', run random_sample ops b = Some b' ∧
        Cell._state (Board.cell_at b' p) = CellState.RevealedState.
Proof.
  intros Hg Hp Hr.
  set (I := λ b', grid_ok b' ∧ in_bounds b' p ∧
                  Cell._state (Board.cell_at b' p) = CellState.RevealedState).
  destruct (run_inv random_sample I) with (ops := ops) (b := b) as (b' & E & _ & _ & Hr');
    [| |done|by exists b'].
  - intros row col s (Hgs & Hps & Hrs).
    pose proof (reveal_cell_states row col s Hgs) as H.
    destruct (Board.reveal_cell random_sample row col s) as [ok bf|e bf|]; [| |done].
    all: destruct H as (Hgf & Hw & Hh & Hst); split; [done|];
      (split; [unfold in_bounds in *; lia|]);
      destruct (Hst p Hps) as [->|[Hh' _]]; [done|congruence].
  - intros row col s (Hgs & Hps & Hrs).
    pose proof (flag_cell_cases row col s Hgs) as H.
    destruct (Board.flag_cell row col s) as [[] bf|e bf|]; [| | |done].
    + destruct H as (Hin & Hnr & ->).
      destruct (flag_one_facts (row, col) s Hgs Hin Hnr)
        as (Hgf & (Hw & Hh & _) & _ & _ & _ & _ & _ & Hother).
      split; [done|]. split; [unfold in_bounds in *; lia|].
      rewrite Hother; [done|done|]. intros ->. done.
    + by destruct H as (_ & _ & ->).
    + by destruct H as (-> & _).
Qed.

End BoardEdges.

Lemma revealed_cells_stay_revealed_witness :
  let rs := sample_preferring [(0, 0)] in
  ∃ b, run rs [OpReveal 1 1; OpFlag 0 0] (Board.new 4 4 1) = Some b ∧
       grid_ok b ∧ in_bounds b (1, 1) ∧
       Cell._state (Board.cell_at b (1, 1)) = CellState.RevealedState ∧
       ∃ b', run rs [OpFlag 1 1; OpReveal 1 1; OpExpand 1 1] b = Some b' ∧
             Cell._state (Board.cell_at b' (1, 1)) = CellState.RevealedState.
Proof.
  intros rs. destruct four_by_four_played as (b & E & [(Hg & _) _] & Hin & Hr & _).
  exists b. split; [exact E|]. split; [exact Hg|]. split; [exact Hin|].
  split; [exact Hr|].
  exact (revealed_cells_stay_revealed rs b (1, 1) [OpFlag 1 1; OpReveal 1 1; OpExpand 1 1]
           Hg Hin Hr).
Defined.

Lemma position_out_of_bounds_witness :
  ¬ in_bounds (Board.new 9 9 10) (9, -1) ∧
  Board.reveal_cell (sample_preferring []) 9 (-1) (Board.new 9 9 10)
  = Raise RowOutOfBounds (Board.new 9 9 10).
Proof.
  assert (H : ¬ in_bounds (Board.new 9 9 10) (9, -1)).
  { unfold in_bounds. cbn. lia. }
  split; [exact H|].
  exact (proj1 (position_out_of_bounds (sample_preferring []) (Board.new 9 9 10) 9 (-1) H)).
Defined.

(** ** Flags *)

Lemma cell_flag_flag c : Cell.flag (Cell.flag c) = c.
Proof. destruct c as [r c s m a]. by destruct s. Qed.

Lemma flag_one_flag_one p b : grid_ok b → in_bounds b p → flag_one p (flag_one p b) = b.
Proof.
  intros Hg Hp.
  assert (Hc : Board.cell_at (flag_one p b) p = Cell.flag (Board.cell_at b p)).
  { unfold flag_one. apply (cell_at_update_eq Cell.flag p b Hg Hp). }
  unfold flag_one at 1. rewrite Hc. unfold flag_one.
  destruct b as [w h mc cells rc fc first mp].
  unfold Board.update_cell, Board.set_flagged_count, Board.set_cells.
  cbn [Board.width Board.height Board.mine_count Board.cells Board.revealed_count
       Board.flagged_count Board.first_click Board.mine_positions].
  f_equal.
  - rewrite list_alter_alter_eq. apply list_alter_id. intros cs. cbn.
    rewrite list_alter_alter_eq. apply list_alter_id. intros c. apply cell_flag_flag.
  - set (c := Board.cell_at _ p). destruct c as [r c s m a]. destruct s; cbn; lia.
Qed.

(** X14. Flagging is an involution: when [flag_cell] returns [True], a
    second call at the same position returns [True] again and leaves the
    board exactly as it was before the first, cells and counter alike. *)
Theorem flag_cell_twice (b b1 : Board.t) (row col : Z) :
  grid_ok b →
  Board.flag_cell row col b = Return true b1 →
  Board.flag_cell row col b1 = Return true b.
Proof.
  intros Hg E. pose proof (flag_cell_cases row col b Hg) as H. rewrite E in H.
  destruct H as (Hin & Hnr & ->).
  destruct (flag_one_facts (row, col) b Hg Hin Hnr)
    as (Hg1 & (Hw & Hh & _) & _ & _ & _ & _ & Hc & _).
  assert (Hin1 : in_bounds (flag_one (row, col) b) (row, col))
    by (unfold in_bounds in *; lia).
  pose proof (flag_cell_cases row col _ Hg1) as H.
  destruct (Board.flag_cell row col (flag_one (row, col) b)) as [[] s|e s|]; [| | |done].
  - destruct H as (_ & _ & ->). by rewrite flag_one_flag_one.
  - destruct H as (_ & Hr & _). rewrite Hc in Hr. exfalso.
    destruct (Board.cell_at b (row, col)) as [r c st m a]. by destruct st.
  - by destruct H as (_ & Hout & _).
Qed.

Lemma flag_cell_twice_witness :
  grid_ok (Board.new 9 9 10) ∧
  Board.flag_cell 2 3 (after (Board.flag_cell 2 3) (Board.new 9 9 10))
  = Return true (Board.new 9 9 10).
Proof.
  split; [apply grid_ok_new|].
  apply (flag_cell_twice (Board.new 9 9 10) _ 2 3 (grid_ok_new 9 9 10)).
  vm_compute. reflexivity.
Defined.

(** ** Moves of a session *)

Lemma set_board_board s : GameSession.set_board (GameSession.board s) s = s.
Proof. by destruct s. Qed.

Section Moves.
Context (random_sample : Sampler).

(** [make_move] with the action ['reveal'], on a session that is new or
    playing: the game is started if need be, then the board is asked. *)
Lemma make_move_reveal now_start now_end row col s :
  GameSession.state s = PLAYING ∨ GameSession.state s = NEW →
  let s0 := after (GameSession.start_game now_start) s in
  GameSession.state s0 = PLAYING ∧
  GameSession.board s0 = GameSession.board s ∧
  GameSession.make_move random_sample now_start now_end row col "reveal" s =
  match Board.reveal_cell random_sample row col (GameSession.board s) with
  | Return true b' =>
      let s1 := GameSession.set_moves_count (GameSession.moves_count s0 + 1)
                  (GameSession.set_board b' s0) in
      Return true
        (if Board.check_lose_condition b'
         then GameSession.set_end_time (Some now_end) (GameSession.set_state LOST s1)
         else if Board.check_win_condition b'
         then GameSession.set_end_time (Some now_end) (GameSession.set_state WON s1)
         else s1)
  | Return false b' => Return false (GameSession.set_board b' s0)
  | Raise e b' => Raise e (GameSession.set_board b' s0)
  | OutOfFuel => OutOfFuel
  end.
Proof.
  intros Hs s0.
  assert (E0 : s0 = match GameSession.state s with
                    | NEW => GameSession.set_start_time (Some now_start)
                               (GameSession.set_state PLAYING s)
                    | _ => s
                    end).
  { unfold s0, after, GameSession.start_game, mbind, Op_bind, op_bind, get, modify.
    destruct s as [i d b st ts te m f]. by destruct st. }
  clearbody s0. subst s0. split; [|split].
  - destruct s as [i d b st ts te m f]. cbn in Hs. by destruct Hs as [->| ->].
  - destruct s as [i d b st ts te m f]. by destruct st.
  - unfold GameSession.make_move, mbind, Op_bind, op_bind, get.
    rewrite (bool_decide_eq_false_2 (_ ∧ _)) by (intros [H1 H2]; by destruct Hs).
    rewrite (bool_decide_eq_true_2 ("reveal" = "reveal")) by done.
    unfold GameSession.start_game, zoom, mbind, Op_bind, op_bind, get, modify, raise,
      mret, Op_ret, op_ret.
    generalize (Board.reveal_cell random_sample row col), Board.check_lose_condition,
      Board.check_win_condition.
    intros reveal lose win.
    destruct Hs as [Hs|Hs];
      [rewrite !(bool_decide_eq_false_2 (_ = NEW)) by congruence
      |rewrite !(bool_decide_eq_true_2 (_ = NEW)) by done];
      destruct s as [i d b st ts te m f]; cbn in Hs; subst st; cbn;
      (destruct (reveal b) as [[] b'|e b'|]; [|reflexivity|reflexivity|reflexivity]);
      cbn; (destruct (lose b'); [reflexivity|]); by destruct (win b').
Qed.

(** The same for the action ['flag']. *)
Lemma make_move_flag now_start now_end row col s :
  GameSession.state s = PLAYING ∨ GameSession.state s = NEW →
  let s0 := after (GameSession.start_game now_start) s in
  GameSession.make_move random_sample now_start now_end row col "flag" s =
  match Board.flag_cell row col (GameSession.board s) with
  | Return true b' =>
      Return true (GameSession.set_flags_used (GameSession.flags_used s0 + 1)
                     (GameSession.set_board b' s0))
  | Return false b' => Return false (GameSession.set_board b' s0)
  | Raise e b' => Raise e (GameSession.set_board b' s0)
  | OutOfFuel => OutOfFuel
  end.
Proof.
  intros Hs s0. unfold s0, after, GameSession.make_move, mbind, Op_bind, op_bind, get.
  rewrite (bool_decide_eq_false_2 (_ ∧ _)) by (intros [H1 H2]; by destruct Hs).
  rewrite (bool_decide_eq_false_2 ("flag" = "reveal")) by done.
  rewrite (bool_decide_eq_true_2 ("flag" = "flag")) by done.
  unfold GameSession.start_game, zoom, mbind, Op_bind, op_bind, get, modify, raise,
    mret, Op_ret, op_ret.
  generalize (Board.flag_cell row col). intros flag.
  destruct Hs as [Hs|Hs];
    [rewrite !(bool_decide_eq_false_2 (_ = NEW)) by congruence
    |rewrite !(bool_decide_eq_true_2 (_ = NEW)) by done];
    destruct s as [i d b st ts te m f]; cbn in Hs; subst st; cbn;
    by destruct (flag b) as [[] b'|e b'|].
Qed.

(** X15. Moves need a running game. In a paused, won or lost session
    [make_move] raises, and in every state but playing, the new one
    included, [expand_adjacent] raises; the session is left as it was,
    whatever the position and the action are. *)
Theorem moves_need_a_running_game (now_start now_end row col : Z) (action : string)
    (s : GameSession.t) :
  (GameSession.state s ≠ PLAYING → GameSession.state s ≠ NEW →
   GameSession.make_move random_sample now_start now_end row col action s
   = Raise CannotMakeMove s) ∧
  (GameSession.state s ≠ PLAYING →
   GameSession.expand_adjacent random_sample now_end row col s = Raise CannotExpand s).
Proof.
  split.
  - intros H1 H2. unfold GameSession.make_move, mbind, Op_bind, op_bind, get, raise.
    by rewrite bool_decide_eq_true_2.
  - intros H. unfold GameSession.expand_adjacent, mbind, Op_bind, op_bind, get, raise.
    by rewrite bool_decide_eq_true_2.
Qed.

(** X16. Pausing and resuming. On a playing session [pause_game] followed
    by [resume_game] gives the session back unchanged, and between the two
    every move and every chord raises and changes nothing; on a session
    that is not playing [pause_game] does nothing, and on one that is not
    paused [resume_game] does nothing. *)
Theorem pause_resume_round_trip (now_start now_end row col : Z) (action : string)
    (s : GameSession.t) :
  (GameSession.state s = PLAYING →
   let paused := after GameSession.pause_game s in
   GameSession.state paused = PAUSED ∧
   GameSession.make_move random_sample now_start now_end row col action paused
   = Raise CannotMakeMove paused ∧
   GameSession.expand_adjacent random_sample now_end row col paused
   = Raise CannotExpand paused ∧
   after GameSession.resume_game paused = s) ∧
  (GameSession.state s ≠ PLAYING → GameSession.pause_game s = Return tt s) ∧
  (GameSession.state s ≠ PAUSED → GameSession.resume_game s = Return tt s).
Proof.
  split; [|split].
  - intros Hs paused.
    assert (Hp : GameSession.state paused = PAUSED).
    { unfold paused, after, GameSession.pause_game, mbind, Op_bind, op_bind, get, modify.
      by rewrite bool_decide_eq_true_2. }
    split; [done|]. split; [|split].
    + unfold GameSession.make_move, mbind, Op_bind, op_bind, get, raise.
      rewrite bool_decide_eq_true_2; [done|]. rewrite Hp. done.
    + unfold GameSession.expand_adjacent, mbind, Op_bind, op_bind, get, raise.
      rewrite bool_decide_eq_true_2; [done|]. rewrite Hp. done.
    + unfold paused, after, GameSession.pause_game, GameSession.resume_game,
        mbind, Op_bind, op_bind, get, modify.
      destruct s as [i d b st ts te m f]. cbn in Hs. by subst st.
  - intros Hs. unfold GameSession.pause_game, mbind, Op_bind, op_bind, get.
    by rewrite bool_decide_eq_false_2.
  - intros Hs. unfold GameSession.resume_game, mbind, Op_bind, op_bind, get.
    by rewrite bool_decide_eq_false_2.
Qed.

(** X17. [flags_used] counts toggles, not flags. When a flag move on a
    playing session returns [True], the same move again returns [True] and
    brings the board back to what it was, cells and flag counter alike,
    while [flags_used] has grown by two and nothing else has changed. *)
Theorem flags_used_counts_toggles (t1 t2 t3 t4 row col : Z) (s s1 : GameSession.t) :
  GameSession.state s = PLAYING → grid_ok (GameSession.board s) →
  GameSession.make_move random_sample t1 t2 row col "flag" s = Return true s1 →
  GameSession.make_move random_sample t3 t4 row col "flag" s1
  = Return true (GameSession.set_flags_used (GameSession.flags_used s + 2) s).
Proof.
  intros Hs Hg E.
  pose proof (make_move_flag t1 t2 row col s (or_introl Hs)) as H. cbv zeta in H.
  rewrite H in E. clear H.
  assert (E0 : after (GameSession.start_game t1) s = s).
  { unfold after, GameSession.start_game, mbind, Op_bind, op_bind, get.
    rewrite bool_decide_eq_false_2; [done|]. rewrite Hs. done. }
  rewrite E0 in E.
  destruct (Board.flag_cell row col (GameSession.board s)) as [[] b1|e b1|] eqn:Eb;
    try discriminate.
  injection E as <-.
  pose proof (flag_cell_twice _ _ _ _ Hg Eb) as Eb1.
  rewrite make_move_flag by (left; by destruct s).
  assert (E1 : ∀ x : GameSession.t, GameSession.state x = PLAYING →
               after (GameSession.start_game t3) x = x).
  { intros x Hx. unfold after, GameSession.start_game, mbind, Op_bind, op_bind, get.
    rewrite bool_decide_eq_false_2; [done|]. rewrite Hx. done. }
  rewrite E1 by (by destruct s).
  destruct s as [i d b st ts te m f].
  cbn [GameSession.board GameSession.set_board GameSession.set_flags_used
       GameSession.flags_used GameSession.id GameSession.difficulty GameSession.state
       GameSession.start_time GameSession.end_time GameSession.moves_count] in *.
  rewrite Eb1. unfold GameSession.set_flags_used, GameSession.set_board. cbn.
  do 2 f_equal. lia.
Qed.

End Moves.

Lemma flags_used_counts_toggles_witness :
  let s := GameSession.set_state PLAYING (GameSession.new BEGINNER "game") in
  let rs := sample_preferring [] in
  GameSession.state s = PLAYING ∧ grid_ok (GameSession.board s) ∧
  GameSession.make_move rs 3 4 2 3 "flag" (after (GameSession.make_move rs 1 2 2 3 "flag") s)
  = Return true (GameSession.set_flags_used (GameSession.flags_used s + 2) s).
Proof.
  intros s rs. split; [reflexivity|]. split; [apply grid_ok_new|].
  apply (flags_used_counts_toggles rs 1 2 3 4 2 3 s _ eq_refl (grid_ok_new 9 9 10)).
  vm_compute. reflexivity.
Defined.

(** ** Losing *)

Lemma check_lose_condition_spec b :
  Board.check_lose_condition b = true ↔
  ∃ p, p ∈ Board.mine_positions b ∧
       Cell._state (Board.cell_at b p) = CellState.RevealedState.
Proof.
  unfold Board.check_lose_condition. rewrite existsb_exists. split.
  - intros (p & Hp & Hr). exists p. apply list_elem_of_In, elem_of_elements in Hp.
    split; [done|]. unfold Cell.is_revealed in Hr.
    by destruct (Cell._state (Board.cell_at b p)).
  - intros (p & Hp & Hr). exists p. split; [by apply list_elem_of_In, elem_of_elements|].
    unfold Cell.is_revealed. by rewrite Hr.
Qed.

(** A successful reveal shows a mine exactly when one was shown before or
    the revealed position is a mine: the flood fill reveals none. *)
Lemma reveal_post_lose b1 p bf log :
  mined b1 → in_bounds b1 p → reveal_post b1 p bf log →
  Board.check_lose_condition bf = true ↔
  Board.check_lose_condition b1 = true ∨ Cell.is_mine (Board.cell_at b1 p) = true.
Proof.
  intros Hm Hin Hpost. pose proof Hm as (Hg & [Hmin Hmark] & _ & _).
  destruct (rp_frame _ _ _ _ Hpost) as [(Hw & Hh' & Hmc & Hfl & Hfc2 & Hmp) Hstep].
  rewrite !check_lose_condition_spec, Hmp. split.
  - intros (q & Hq & Hr). pose proof (Hmin q Hq) as Hqin.
    destruct (Hstep q Hqin) as [E|[Hqh E]].
    + left. exists q. split; [done|]. by rewrite <- E.
    + assert (Hne : Board.cell_at bf q ≠ Board.cell_at b1 q).
      { intros E'. rewrite E' in Hr. congruence. }
      apply (rp_changed _ _ _ _ Hpost q Hqin) in Hne.
      apply elem_of_cons in Hne as [->|Hlog]; [right; by apply Hmark|].
      exfalso.
      assert (Hsafe : Cell.is_mine (Board.cell_at b1 q) = false).
      { apply (rp_safe _ _ _ _ Hpost); [|done].
        intros q0 Hq0 He. by apply mined_empty_neighbours. }
      apply (Hmark q Hqin) in Hq. congruence.
  - intros [(q & Hq & Hr)|Hmine].
    + exists q. split; [done|]. destruct (Hstep q (Hmin q Hq)) as [->|[Hqh _]]; [done|].
      congruence.
    + exists p. split; [by apply Hmark|].
      apply (rp_log _ _ _ _ Hpost). apply elem_of_cons. by left.
Qed.

Section Losing.
Context (random_sample : Sampler).

(** After the first click a reveal of a hidden cell returns [True], with
    the board in the relation [reveal_post] to the board before. *)
Lemma reveal_cell_played_returns (b : Board.t) (row col : Z) :
  played b → in_bounds b (row, col) →
  Cell._state (Board.cell_at b (row, col)) = CellState.HiddenState →
  ∃ bf, Board.reveal_cell random_sample row col b = Return true bf ∧
        reveal_post b (row, col) bf (reveal_log (row, col) b).
Proof.
  intros [(Hg & _) Hfc] Hin Hh.
  pose proof (reveal_cell_cases random_sample row col b Hg) as H.
  destruct (Board.reveal_cell random_sample row col b) as [[] bf|e bf|]; [| | |done].
  2:{ by destruct H as (_ & Hn & _). }
  2:{ destruct H as (_ & [[Hout _]|(_ & Hfc' & _)]); [done|congruence]. }
  destruct H as (_ & _ & b1 & Hstart & Hpost).
  destruct Hstart as [[_ ->]|[Hfc' _]]; [|congruence].
  by exists bf.
Qed.

(** X18. After the first click a reveal uncovers a mine only where the
    player clicks: a reveal of a hidden cell returns [True], and the lose
    condition holds afterwards exactly when it held before or the clicked
    cell is a mine; the cells the flood fill reveals never are. *)
Theorem reveal_cell_uncovers_a_mine (b : Board.t) (row col : Z) :
  played b → in_bounds b (row, col) →
  Cell._state (Board.cell_at b (row, col)) = CellState.HiddenState →
  ∃ bf, Board.reveal_cell random_sample row col b = Return true bf ∧
        played bf ∧
        (Board.check_lose_condition bf = true ↔
         Board.check_lose_condition b = true ∨
         Cell.is_mine (Board.cell_at b (row, col)) = true).
Proof.
  intros Hp Hin Hh. pose proof Hp as [Hm Hfc].
  destruct (reveal_cell_played_returns b row col Hp Hin Hh) as (bf & E & Hpost).
  exists bf. split; [exact E|]. split.
  - destruct (rp_frame _ _ _ _ Hpost) as [(_ & _ & _ & _ & Hfc' & _) _].
    split; [|congruence].
    apply (mined_keeps_mines b); [|apply (rp_grid _ _ _ _ Hpost)|exact Hm].
    apply reveals_only_keeps_mines, (rp_frame _ _ _ _ Hpost).
  - apply (reveal_post_lose _ _ _ _ Hm Hin Hpost).
Qed.

(** X19. A reveal move on a playing session whose board has seen its
    first click and shows no mine: on a hidden cell the move returns
    [True] and counts as one move; the session is lost, with its end time
    set, exactly when the clicked cell is a mine, and otherwise it is won
    exactly when the win condition of the board holds, and goes on
    unchanged but for the board and the move counter when it does not. *)
Theorem make_move_reveal_outcome (now_start now_end row col : Z) (s : GameSession.t) :
  GameSession.state s = PLAYING → played (GameSession.board s) →
  Board.check_lose_condition (GameSession.board s) = false →
  in_bounds (GameSession.board s) (row, col) →
  Cell._state (Board.cell_at (GameSession.board s) (row, col)) = CellState.HiddenState →
  ∃ s', GameSession.make_move random_sample now_start now_end row col "reveal" s
        = Return true s' ∧
        GameSession.moves_count s' = GameSession.moves_count s + 1 ∧
        GameSession.flags_used s' = GameSession.flags_used s ∧
        GameSession.start_time s' = GameSession.start_time s ∧
        (GameSession.state s' = LOST ↔
         Cell.is_mine (Board.cell_at (GameSession.board s) (row, col)) = true) ∧
        (GameSession.state s' = WON ↔
         Cell.is_mine (Board.cell_at (GameSession.board s) (row, col)) = false ∧
         Board.check_win_condition (GameSession.board s') = true) ∧
        GameSession.end_time s' =
        (if bool_decide (GameSession.state s' = PLAYING)
         then GameSession.end_time s else Some now_end).
Proof.
  intros Hs Hp Hl Hin Hh.
  destruct (reveal_cell_played_returns (GameSession.board s) row col Hp Hin Hh)
    as (bf & Ebf & Hpost).
  pose proof (reveal_post_lose _ _ _ _ (proj1 Hp) Hin Hpost) as Hlose.
  destruct (make_move_reveal random_sample now_start now_end row col s (or_introl Hs))
    as (_ & _ & E).
  rewrite Ebf in E.
  assert (E0 : after (GameSession.start_game now_start) s = s).
  { unfold after, GameSession.start_game, mbind, Op_bind, op_bind, get.
    rewrite bool_decide_eq_false_2; [done|]. rewrite Hs. done. }
  rewrite E0 in E. cbv zeta in E. rewrite E. clear E E0.
  eexists. split; [reflexivity|].
  destruct s as [i d b st ts te m f].
  cbn [GameSession.board GameSession.state GameSession.moves_count GameSession.flags_used
       GameSession.start_time GameSession.end_time] in *. subst st.
  destruct (Cell.is_mine (Board.cell_at b (row, col))) eqn:Hmine.
  - rewrite (proj2 Hlose) by (by right). cbn. repeat split; try done. by intros [? _].
  - destruct (Board.check_lose_condition bf) eqn:Hlf.
    { destruct (proj1 Hlose eq_refl); congruence. }
    destruct (Board.check_win_condition bf) eqn:Hwf; cbn; rewrite ?Hwf;
      repeat split; try done; by intros [? ?].
Qed.

End Losing.

Lemma first_move_game_played :
  GameSession.state first_move_game = PLAYING ∧
  played (GameSession.board first_move_game) ∧
  Board.check_lose_condition (GameSession.board first_move_game) = false ∧
  in_bounds (GameSession.board first_move_game) (0, 0) ∧
  Cell._state (Board.cell_at (GameSession.board first_move_game) (0, 0))
  = CellState.HiddenState ∧
  Cell.is_mine (Board.cell_at (GameSession.board first_move_game) (0, 0)) = true.
Proof.
  split; [vm_compute; reflexivity|].
  split; [|split; [vm_compute; reflexivity|split; [|split; vm_compute; reflexivity]]].
  - destruct (stage_after_run corner_sampler 9 9 10 [OpReveal 1 1]
                (sample_preferring_ok [(0, 0)])) as (b & E & Hst).
    assert (Eb : b = GameSession.board first_move_game).
    { apply (inj Some). rewrite <- E. vm_compute. reflexivity. }
    subst b. clear E.
    destruct Hst as [(_ & Hfc & _)|Hp]; [|exact Hp].
    vm_compute in Hfc. discriminate Hfc.
  - vm_compute. split; split; congruence.
Qed.

Lemma reveal_cell_uncovers_a_mine_witness :
  let b := GameSession.board first_move_game in
  played b ∧ in_bounds b (0, 0) ∧
  Cell._state (Board.cell_at b (0, 0)) = CellState.HiddenState ∧
  ∃ bf, Board.reveal_cell corner_sampler 0 0 b = Return true bf ∧
        Board.check_lose_condition bf = true.
Proof.
  intros b. destruct first_move_game_played as (_ & Hp & _ & Hin & Hh & Hmine).
  split; [exact Hp|]. split; [exact Hin|]. split; [exact Hh|].
  destruct (reveal_cell_uncovers_a_mine corner_sampler b 0 0 Hp Hin Hh)
    as (bf & E & _ & Hiff).
  exists bf. split; [exact E|]. apply Hiff. right. exact Hmine.
Defined.

Lemma make_move_reveal_outcome_witness :
  GameSession.state first_move_game = PLAYING ∧
  played (GameSession.board first_move_game) ∧
  Board.check_lose_condition (GameSession.board first_move_game) = false ∧
  in_bounds (GameSession.board first_move_game) (0, 0) ∧
  Cell._state (Board.cell_at (GameSession.board first_move_game) (0, 0))
  = CellState.HiddenState ∧
  ∃ s', GameSession.make_move corner_sampler 3 4 0 0 "reveal" first_move_game
        = Return true s' ∧
        GameSession.state s' = LOST ∧ GameSession.end_time s' = Some 4.
Proof.
  destruct first_move_game_played as (Hs & Hp & Hl & Hin & Hh & Hmine).
  split; [exact Hs|]. split; [exact Hp|]. split; [exact Hl|]. split; [exact Hin|].
  split; [exact Hh|].
  destruct (make_move_reveal_outcome corner_sampler 3 4 0 0 first_move_game Hs Hp Hl Hin Hh)
    as (s' & E & _ & _ & _ & Hlost & _ & Hend).
  exists s'. split; [exact E|].
  pose proof (proj2 Hlost Hmine) as Hst. split; [exact Hst|].
  rewrite Hst in Hend. exact Hend.
Defined.

(** ** The first move *)

(** ** Counting over the positions of the grid *)

Lemma length_bind_const {A B} (f : A → list B) (n : nat) (l : list A) :
  (∀ x, length (f x) = n) → length (l ≫= f) = (length l * n)%nat.
Proof.
  intros H. induction l as [|x l IH]; [done|].
  rewrite bind_cons, length_app, H, IH. done.
Qed.

Lemma elem_of_grid_positions b p : p ∈ grid_positions b ↔ in_bounds b p.
Proof.
  unfold grid_positions, range, in_bounds. rewrite list_elem_of_bind. split.
  - intros (r & Hp & Hr). apply list_elem_of_bind in Hp as (c & Hp & Hc).
    apply list_elem_of_singleton in Hp as ->. apply elem_of_seqZ in Hr, Hc. cbn. lia.
  - intros [Hr Hc]. exists p.1. split; [|apply elem_of_seqZ; lia].
    apply list_elem_of_bind. exists p.2. split; [|apply elem_of_seqZ; lia].
    apply list_elem_of_singleton. by destruct p.
Qed.

Lemma NoDup_grid_positions b : NoDup (grid_positions b).
Proof.
  unfold grid_positions, range. apply NoDup_bind.
  - intros r1 r2 p _ _ H1 H2. apply list_elem_of_bind in H1 as (c1 & H1 & _).
    apply list_elem_of_bind in H2 as (c2 & H2 & _).
    apply list_elem_of_singleton in H1, H2. congruence.
  - intros r _. apply NoDup_bind; [|intros; apply NoDup_singleton|apply NoDup_seqZ].
    intros c1 c2 p _ _ H1 H2. apply list_elem_of_singleton in H1, H2. congruence.
  - apply NoDup_seqZ.
Qed.

Lemma length_grid_positions b :
  length (grid_positions b)
  = (Z.to_nat (Board.height b) * Z.to_nat (Board.width b))%nat.
Proof.
  unfold grid_positions, range.
  rewrite (length_bind_const _ (Z.to_nat (Board.width b))), length_seqZ; [done|].
  intros row. rewrite (length_bind_const _ 1%nat), length_seqZ; [lia|done].
Qed.

Lemma all_positions_filter b safe_row safe_col :
  Board.all_positions b safe_row safe_col
  = filter (λ p, p ≠ (safe_row, safe_col)) (grid_positions b).
Proof.
  unfold Board.all_positions, grid_positions.
  induction (range (Board.height b)) as [|row rows IH]; [done|].
  rewrite !bind_cons, filter_app. f_equal; [|exact IH].
  clear IH. induction (range (Board.width b)) as [|col cols IH]; [done|].
  rewrite !bind_cons, filter_app. f_equal; [|exact IH].
  rewrite filter_cons, filter_nil. case_bool_decide; destruct (decide _); done.
Qed.

Lemma length_filter_ne (l : list pos) (x : pos) :
  NoDup l → x ∈ l → S (length (filter (λ p, p ≠ x) l)) = length l.
Proof.
  induction 1 as [|y l Hy Hnd IH]; intros Hx; [by apply elem_of_nil in Hx|].
  rewrite filter_cons. destruct (decide (y ≠ x)) as [Hne|Heq].
  - cbn [length]. f_equal. apply IH. apply elem_of_cons in Hx as [->|Hx]; done.
  - apply dec_stable in Heq. subst y. cbn [length]. f_equal.
    clear IH Hx Hnd. induction l as [|z l IH]; [done|].
    rewrite filter_cons. apply not_elem_of_cons in Hy as [Hz Hy].
    destruct (decide (z ≠ x)); [|done]. cbn [length]. f_equal. by apply IH.
Qed.

Lemma length_all_positions b safe_row safe_col :
  in_bounds b (safe_row, safe_col) →
  Z.of_nat (length (Board.all_positions b safe_row safe_col))
  = Board.width b * Board.height b - 1.
Proof.
  intros Hin.
  assert (H : S (length (Board.all_positions b safe_row safe_col))
              = length (grid_positions b)).
  { rewrite all_positions_filter.
    apply length_filter_ne; [apply NoDup_grid_positions|by apply elem_of_grid_positions]. }
  rewrite length_grid_positions in H.
  destruct Hin as [Hr Hc]. cbn [fst snd] in Hr, Hc.
  assert (Z.of_nat (Z.to_nat (Board.height b) * Z.to_nat (Board.width b))
          = Board.width b * Board.height b) by (rewrite Nat2Z.inj_mul, !Z2Nat.id; lia).
  lia.
Qed.

(** The cells of a well-formed grid, read through [cell_at]. *)
Lemma cells_as_positions b :
  grid_ok b →
  Board.cells b
  = (λ r, (λ c, Board.cell_at b (r, c)) <$> range (Board.width b)) <$> range (Board.height b).
Proof.
  intros [Hh Hw]. apply list_eq. intros i. unfold range.
  rewrite list_lookup_fmap.
  destruct (decide (i < length (Board.cells b))%nat) as [Hi|Hi].
  - destruct (lookup_lt_is_Some_2 _ _ Hi) as [cs Hcs]. rewrite Hcs.
    rewrite lookup_seqZ_lt by lia. cbn [fmap option_fmap option_map]. f_equal.
    pose proof (Forall_lookup_1 _ _ _ _ Hw Hcs) as Hlen. cbn in Hlen.
    apply list_eq. intros j. rewrite list_lookup_fmap.
    destruct (decide (j < length cs)%nat) as [Hj|Hj].
    + destruct (lookup_lt_is_Some_2 _ _ Hj) as [c Hc]. rewrite Hc.
      rewrite lookup_seqZ_lt by lia. cbn [fmap option_fmap option_map]. f_equal.
      symmetry. apply (cell_at_lookup b (0 + Z.of_nat i, 0 + Z.of_nat j) cs c); cbn [fst snd].
      * by rewrite Z.add_0_l, Nat2Z.id.
      * by rewrite Z.add_0_l, Nat2Z.id.
    + rewrite lookup_ge_None_2 by lia. rewrite lookup_seqZ_ge by lia. done.
  - rewrite lookup_ge_None_2 by lia. rewrite lookup_seqZ_ge by lia. done.
Qed.

Lemma count_rows (P : Cell.t → bool) (g : Z → Z → Cell.t) (rows cols : list Z) :
  sum_list (tally P <$> ((λ r, (λ c, g r c) <$> cols) <$> rows))
  = length (filter (λ p : pos, P (g p.1 p.2) = true) (r ← rows; c ← cols; [(r, c)])).
Proof.
  induction rows as [|r rows IH]; [done|].
  rewrite !fmap_cons, bind_cons, filter_app, length_app.
  cbn [sum_list sum_list_with]. unfold id in *. rewrite IH. f_equal.
  clear IH. unfold tally. induction cols as [|c cols IH]; [done|].
  rewrite !fmap_cons, bind_cons, filter_app, length_app.
  cbn [sum_list sum_list_with]. unfold id in *. rewrite IH. f_equal.
  rewrite filter_cons, filter_nil. cbn [fst snd]. by destruct (P (g r c)).
Qed.

Lemma grid_count_positions P b :
  grid_ok b →
  grid_count P b
  = length (filter (λ p, P (Board.cell_at b p) = true) (grid_positions b)).
Proof.
  intros Hg. unfold grid_count, grid_positions.
  pose proof (cells_as_positions b Hg) as Hc.
  set (g := λ r c, Board.cell_at b (r, c)) in Hc. rewrite Hc.
  rewrite (count_rows P g). reflexivity.
Qed.

(** Two predicates, one inside the other, hold of equally many elements
    exactly when they agree on the list. *)
Lemma length_filter_sub {A} (P Q : A → Prop) `{∀ x, Decision (P x)} `{∀ x, Decision (Q x)}
    (l : list A) :
  (∀ x, x ∈ l → P x → Q x) →
  (length (filter P l) ≤ length (filter Q l))%nat ∧
  (length (filter P l) = length (filter Q l) ↔ ∀ x, x ∈ l → Q x → P x).
Proof.
  induction l as [|x l IH]; intros Hsub.
  - split; [done|]. split; [|done]. intros _ y Hy. by apply elem_of_nil in Hy.
  - destruct IH as [IH1 IH2].
    { intros y Hy. apply Hsub. by apply elem_of_cons; right. }
    rewrite !filter_cons.
    destruct (decide (P x)) as [HP|HP], (decide (Q x)) as [HQ|HQ]; cbn [length].
    + split; [lia|]. rewrite Nat.succ_inj_wd, IH2. split.
      * intros Hall y Hy. apply elem_of_cons in Hy as [->|Hy]; [done|by apply Hall].
      * intros Hall y Hy. apply Hall. by apply elem_of_cons; right.
    + exfalso. apply HQ, Hsub; [by apply elem_of_cons; left|done].
    + split; [lia|]. split; [lia|].
      intros Hall. exfalso. apply HP, Hall; [by apply elem_of_cons; left|done].
    + split; [done|]. rewrite IH2. split.
      * intros Hall y Hy. apply elem_of_cons in Hy as [->|Hy]; [done|by apply Hall].
      * intros Hall y Hy. apply Hall. by apply elem_of_cons; right.
Qed.

Lemma length_filter_split {A} (P : A → Prop) `{∀ x, Decision (P x)} (l : list A) :
  (length (filter P l) + length (filter (λ x, ¬ P x) l) = length l)%nat.
Proof.
  induction l as [|x l IH]; [done|]. rewrite !filter_cons.
  destruct (decide (P x)), (decide (¬ P x)); cbn [length]; try done; lia.
Qed.

(** On a board whose mines are in place the grid holds [mine_count] mine
    cells. *)
Lemma length_mine_cells b :
  mined b →
  Z.of_nat (length (filter (λ p, Cell.is_mine (Board.cell_at b p) = true) (grid_positions b)))
  = Board.mine_count b.
Proof.
  intros (Hg & [Hmin Hmark] & _ & Hsize). rewrite <- Hsize. f_equal.
  unfold size, set_size. cbn. apply Permutation_length, NoDup_Permutation.
  - apply NoDup_filter, NoDup_grid_positions.
  - apply NoDup_elements.
  - intros p. rewrite list_elem_of_filter, elem_of_grid_positions, elem_of_elements.
    split; [intros [Hm Hin]; by apply Hmark|].
    intros Hp. split; [apply Hmark; [by apply Hmin|done]|by apply Hmin].
Qed.

Section FirstMove.
Context (random_sample : Sampler) (random_sample_ok : sampler_ok random_sample).

(** With fewer mines than cells the sampler can answer, and generation
    returns. *)
Lemma generate_mines_succeeds safe_row safe_col b :
  unmined b → in_bounds b (safe_row, safe_col) →
  0 ≤ Board.mine_count b < Board.width b * Board.height b →
  ∃ bg, Board.generate_mines random_sample safe_row safe_col b = Return tt bg.
Proof.
  intros (Hg & He & Hno) Hin Hmc.
  rewrite generate_mines_unfold by done.
  pose proof (random_sample_ok (Board.all_positions b safe_row safe_col) (Board.mine_count b)
                (NoDup_all_positions b safe_row safe_col)) as Hs.
  pose proof (length_all_positions b safe_row safe_col Hin) as Hlen.
  destruct (random_sample _ _) as [sample|e]; [|destruct Hs as [_ Hs]; exfalso; lia].
  set (b1 := Board.set_mine_positions (list_to_set sample) b).
  assert (Hg1 : grid_ok b1) by done.
  destruct (place_mines_shape (elements (list_to_set sample : gset pos)) b1 Hg1)
    as (_ & Hg2 & _).
  destruct (_calculate_adjacent_mines_spec _ Hg2) as (bg & E & _).
  by exists bg.
Qed.

(** The first reveal of a board that shows no cell yet: it returns [True],
    the mines are in place, none of them at the revealed position or at a
    revealed cell. *)
Lemma first_reveal_is_safe row col b :
  unmined b → Board.first_click b = true →
  (∀ p, in_bounds b p → Cell._state (Board.cell_at b p) ≠ CellState.RevealedState) →
  in_bounds b (row, col) →
  Cell._state (Board.cell_at b (row, col)) = CellState.HiddenState →
  0 ≤ Board.mine_count b < Board.width b * Board.height b →
  ∃ bf, Board.reveal_cell random_sample row col b = Return true bf ∧
        played bf ∧ ((row, col) ∉ Board.mine_positions bf) ∧
        Cell._state (Board.cell_at bf (row, col)) = CellState.RevealedState ∧
        Board.mine_count bf = Board.mine_count b ∧
        Board.check_lose_condition bf = false.
Proof.
  intros Hu Hfc Hnone Hin Hh Hmc. pose proof Hu as (Hg & _).
  destruct (generate_mines_succeeds row col b Hu Hin Hmc) as (bg & Egen).
  pose proof (generate_mines_spec random_sample random_sample_ok row col b Hu) as Hspec.
  rewrite Egen in Hspec. destruct Hspec as (Hks & Hmg & Hsafe).
  pose proof (first_reveal_spec random_sample random_sample_ok row col b Hu Hfc Hin Hh) as H1.
  pose proof (reveal_cell_cases random_sample row col b Hg) as H2.
  destruct (Board.reveal_cell random_sample row col b) as [ok bf|e s|]; [| |done].
  2:{ destruct H2 as (_ & [[Hout _]|(_ & _ & _ & Eg)]); [done|congruence]. }
  destruct H1 as (-> & Hp & Hsafe'). exists bf. split; [done|]. split; [done|].
  split; [done|].
  destruct H2 as (_ & _ & b1 & Hstart & Hpost).
  destruct Hstart as [[Hfc' _]|(_ & bg' & Egen' & ->)]; [congruence|].
  assert (bg' = bg) as -> by congruence.
  destruct Hks as (Hw & Hh' & Hmc' & _ & _ & _ & _ & _ & _ & Hst).
  assert (Hin1 : in_bounds (Board.set_first_click false bg) (row, col)).
  { change (in_bounds bg (row, col)). unfold in_bounds in *. rewrite Hw, Hh'. exact Hin. }
  split; [apply (rp_log _ _ _ _ Hpost); apply elem_of_cons; by left|].
  split.
  { destruct (rp_frame _ _ _ _ Hpost) as [(_ & _ & Hmcf & _) _]. rewrite Hmcf. exact Hmc'. }
  destruct (Board.check_lose_condition bf) eqn:Hl; [exfalso|done].
  apply (reveal_post_lose _ _ _ _ (mined_set_first_click false bg Hmg) Hin1 Hpost) in Hl.
  destruct Hmg as (_ & [Hmin Hmark] & _ & _).
  destruct Hl as [Hl|Hl].
  - apply check_lose_condition_spec in Hl as (q & Hq & Hr).
    change (Board.mine_positions (Board.set_first_click false bg))
      with (Board.mine_positions bg) in Hq.
    change (Board.cell_at (Board.set_first_click false bg) q)
      with (Board.cell_at bg q) in Hr.
    pose proof (Hmin q Hq) as Hqin.
    assert (Hqb : in_bounds b q) by (unfold in_bounds in *; lia).
    rewrite (Hst q Hqb) in Hr. by apply (Hnone q Hqb).
  - change (Board.cell_at (Board.set_first_click false bg) (row, col))
      with (Board.cell_at bg (row, col)) in Hl.
    apply Hmark in Hl; [done|]. unfold in_bounds in *. lia.
Qed.

(** X20. The first move is safe. On a new session of a difficulty that
    [validate_board_settings] accepts, a reveal move at any position of
    the grid returns [True]: the game is started at the time of the call,
    the move is counted, the board holds as many mines as the difficulty
    asks for, none of them uncovered, so the session is playing or won and
    never lost. *)
Theorem first_move_is_safe (d : DifficultyLevel) (session_id : string)
    (now_start now_end row col : Z) :
  validate_board_settings (dl_width d) (dl_height d) (mines d) = Ok true →
  0 ≤ row < dl_height d → 0 ≤ col < dl_width d →
  ∃ s', GameSession.make_move random_sample now_start now_end row col "reveal"
          (GameSession.new d session_id) = Return true s' ∧
        (GameSession.state s' = PLAYING ∨ GameSession.state s' = WON) ∧
        GameSession.start_time s' = Some now_start ∧
        GameSession.moves_count s' = 1 ∧
        Board.check_lose_condition (GameSession.board s') = false ∧
        Z.of_nat (size (Board.mine_positions (GameSession.board s'))) = mines d ∧
        (row, col) ∉ Board.mine_positions (GameSession.board s').
Proof.
  intros Hv Hr Hc. apply validate_board_settings_iff in Hv as (Hw & Hh & Hm & _).
  set (b := Board.new (dl_width d) (dl_height d) (mines d)).
  assert (Hin : in_bounds b (row, col)) by done.
  assert (Hnone : ∀ p, in_bounds b p →
                       Cell._state (Board.cell_at b p) = CellState.HiddenState).
  { intros p Hp. unfold b. by rewrite cell_at_new. }
  destruct (first_reveal_is_safe row col b (unmined_new _ _ _) eq_refl) as
    (bf & E & [Hmined _] & Hsafe & _ & Hmcf & Hl); [|done|by apply Hnone| |].
  { intros p Hp. rewrite Hnone by done. done. }
  { cbn. lia. }
  destruct (make_move_reveal random_sample now_start now_end row col
              (GameSession.new d session_id) (or_intror eq_refl)) as (_ & _ & Emove).
  change (GameSession.board (GameSession.new d session_id)) with b in Emove.
  rewrite E in Emove. cbv zeta in Emove. rewrite Hl in Emove. rewrite Emove. clear Emove.
  assert (E0 : after (GameSession.start_game now_start) (GameSession.new d session_id)
               = GameSession.set_start_time (Some now_start)
                   (GameSession.set_state PLAYING (GameSession.new d session_id))).
  { unfold after, GameSession.start_game, mbind, Op_bind, op_bind, get, modify.
    by rewrite bool_decide_eq_true_2. }
  rewrite E0. eexists. split; [reflexivity|].
  assert (Hsize : Z.of_nat (size (Board.mine_positions bf)) = mines d).
  { destruct Hmined as (_ & _ & _ & Hsz). by rewrite Hsz, Hmcf. }
  destruct (Board.check_win_condition bf); cbn;
    (split; [(by left) || (by right)|]); repeat split; done.
Qed.

End FirstMove.

Lemma first_move_is_safe_witness :
  sampler_ok corner_sampler ∧
  validate_board_settings (dl_width BEGINNER) (dl_height BEGINNER) (mines BEGINNER) = Ok true ∧
  0 ≤ 1 < dl_height BEGINNER ∧ 0 ≤ 1 < dl_width BEGINNER ∧
  ∃ s', GameSession.make_move corner_sampler 1 2 1 1 "reveal" (GameSession.new BEGINNER "game")
        = Return true s' ∧
        Board.check_lose_condition (GameSession.board s') = false.
Proof.
  assert (Hv : validate_board_settings (dl_width BEGINNER) (dl_height BEGINNER)
                 (mines BEGINNER) = Ok true) by (vm_compute; reflexivity).
  assert (Hr : 0 ≤ 1 < dl_height BEGINNER) by (vm_compute; split; congruence).
  assert (Hc : 0 ≤ 1 < dl_width BEGINNER) by (vm_compute; split; congruence).
  split; [apply sample_preferring_ok|]. split; [exact Hv|]. split; [exact Hr|].
  split; [exact Hc|].
  destruct (first_move_is_safe corner_sampler (sample_preferring_ok [(0, 0)])
              BEGINNER "game" 1 2 1 1 Hv Hr Hc) as (s' & E & _ & _ & _ & Hl & _).
  exists s'. split; [exact E|exact Hl].
Defined.

(** ** Winning *)

(** X21. What the win condition means. On a board that has seen its first
    click, whose counters agree with its cells and on which no mine is
    uncovered, [check_win_condition] holds exactly when every cell without
    a mine is revealed. *)
Theorem check_win_condition_spec (b : Board.t) :
  played b → counters_ok b → 0 ≤ Board.width b → 0 ≤ Board.height b →
  Board.check_lose_condition b = false →
  Board.check_win_condition b = true ↔
  ∀ p, in_bounds b p → Cell.is_mine (Board.cell_at b p) = false →
       Cell._state (Board.cell_at b p) = CellState.RevealedState.
Proof.
  intros [Hm _] [Hrc _] Hw Hh Hl. pose proof Hm as (Hg & [Hmin Hmark] & _).
  unfold Board.check_win_condition.
  rewrite Z.eqb_eq, Hrc, (grid_count_positions Cell.is_revealed b Hg).
  pose proof (length_filter_split (λ p, Cell.is_mine (Board.cell_at b p) = true)
                (grid_positions b)) as Hsplit.
  pose proof (length_mine_cells b Hm) as Hmines.
  pose proof (length_grid_positions b) as Hfull.
  destruct (length_filter_sub (λ p, Cell.is_revealed (Board.cell_at b p) = true)
              (λ p, ¬ Cell.is_mine (Board.cell_at b p) = true) (grid_positions b))
    as [_ Heq].
  { intros p Hp Hr Hmine. apply elem_of_grid_positions in Hp.
    assert (Board.check_lose_condition b = true); [|congruence].
    apply check_lose_condition_spec. exists p. split; [by apply Hmark|].
    unfold Cell.is_revealed in Hr. by destruct (Cell._state (Board.cell_at b p)). }
  assert (Harea : Z.of_nat (Z.to_nat (Board.height b) * Z.to_nat (Board.width b))
                  = Board.width b * Board.height b)
    by (rewrite Nat2Z.inj_mul, !Z2Nat.id; lia).
  split.
  - intros Hwin p Hp Hnm.
    assert (Hr : Cell.is_revealed (Board.cell_at b p) = true).
    { apply Heq; [lia|by apply elem_of_grid_positions|congruence]. }
    unfold Cell.is_revealed in Hr. by destruct (Cell._state (Board.cell_at b p)).
  - intros Hall.
    assert (Hlen : length (filter (λ p, Cell.is_revealed (Board.cell_at b p) = true)
                             (grid_positions b))
                   = length (filter (λ p, ¬ Cell.is_mine (Board.cell_at b p) = true)
                               (grid_positions b))).
    { apply Heq. intros p Hp Hnm. apply elem_of_grid_positions in Hp.
      unfold Cell.is_revealed. rewrite (Hall p Hp); [done|].
      by destruct (Cell.is_mine (Board.cell_at b p)). }
    lia.
Qed.

Lemma check_win_condition_spec_witness :
  let b := GameSession.board first_move_game in
  played b ∧ counters_ok b ∧ 0 ≤ Board.width b ∧ 0 ≤ Board.height b ∧
  Board.check_lose_condition b = false ∧
  (Board.check_win_condition b = true ↔
   ∀ p, in_bounds b p → Cell.is_mine (Board.cell_at b p) = false →
        Cell._state (Board.cell_at b p) = CellState.RevealedState).
Proof.
  intros b. destruct first_move_game_played as (_ & Hp & Hl & _).
  assert (Hc : counters_ok b) by (split; vm_compute; reflexivity).
  assert (Hw : 0 ≤ Board.width b) by (vm_compute; congruence).
  assert (Hh : 0 ≤ Board.height b) by (vm_compute; congruence).
  split; [exact Hp|]. split; [exact Hc|]. split; [exact Hw|]. split; [exact Hh|].
  split; [exact Hl|].
  exact (check_win_condition_spec b Hp Hc Hw Hh Hl).
Defined.

(** ** The states of a cell *)

(** X22. The state pattern of a cell. A cell is in exactly one of the
    three states; it can be revealed exactly when it is hidden and flagged
    exactly when it is not revealed; [reveal] turns a hidden cell into a
    revealed one and leaves any other cell alone, so that it is idempotent;
    [flag] swaps hidden and flagged and leaves a revealed cell alone, so
    that it undoes itself; neither touches the position, the mine or the
    count of the cell. *)
Theorem cell_state_machine (c : Cell.t) :
  (Cell.is_hidden c = negb (Cell.is_revealed c || Cell.is_flagged c) ∧
   Cell.is_revealed c && Cell.is_flagged c = false) ∧
  (Cell.can_reveal c = Cell.is_hidden c ∧ Cell.can_flag c = negb (Cell.is_revealed c)) ∧
  (Cell.is_revealed (Cell.reveal c) = Cell.is_hidden c || Cell.is_revealed c ∧
   Cell.is_flagged (Cell.reveal c) = Cell.is_flagged c ∧
   Cell.reveal (Cell.reveal c) = Cell.reveal c) ∧
  (Cell.is_flagged (Cell.flag c) = Cell.is_hidden c ∧
   Cell.is_hidden (Cell.flag c) = Cell.is_flagged c ∧
   Cell.is_revealed (Cell.flag c) = Cell.is_revealed c ∧
   Cell.flag (Cell.flag c) = c) ∧
  (∀ f, f = Cell.reveal ∨ f = Cell.flag →
        Cell.row (f c) = Cell.row c ∧ Cell.col (f c) = Cell.col c ∧
        Cell.is_mine (f c) = Cell.is_mine c ∧
        Cell.adjacent_mines (f c) = Cell.adjacent_mines c).
Proof.
  destruct c as [r c s m a].
  split; [|split; [|split; [|split]]]; [by destruct s..|].
  intros f [-> | ->]; by destruct s.
Qed.

(** ** Flags protect cells *)

Section Flags.
Context (random_sample : Sampler).

(** X23. A flagged cell is out of reach of every reveal: through any
    sequence of [reveal_cell] and [expand_adjacent_cells] calls anywhere,
    and of [flag_cell] calls at other positions, a flagged cell stays
    flagged; neither a click, nor the flood fill, nor a chord reveals it. *)
Theorem flagged_cells_stay_flagged (b : Board.t) (p : pos) (ops : list BoardOp) :
  grid_ok b → in_bounds b p →
  Cell._state (Board.cell_at b p) = CellState.FlaggedState →
  OpFlag p.1 p.2 ∉ ops →
  ∃ b', run random_sample ops b = Some b' ∧
        Cell._state (Board.cell_at b' p) = CellState.FlaggedState.
Proof.
  set (I := λ b', grid_ok b' ∧ in_bounds b' p ∧
                  Cell._state (Board.cell_at b' p) = CellState.FlaggedState).
  assert (Hreveal : ∀ row col,
            hoare I (Board.reveal_cell random_sample row col) (λ _, I) (λ _, I)).
  { intros row col s (Hgs & Hps & Hfs).
    pose proof (reveal_cell_states random_sample row col s Hgs) as H.
    destruct (Board.reveal_cell random_sample row col s) as [ok bf|e bf|]; [| |done].
    all: destruct H as (Hgf & Hw & Hh & Hst); split; [done|];
      (split; [unfold in_bounds in *; lia|]);
      destruct (Hst p Hps) as [->|[Hh' _]]; [done|congruence]. }
  intros Hg Hp Hf Hops.
  enough (H : ∃ b', run random_sample ops b = Some b' ∧ I b').
  { destruct H as (b' & E & _ & _ & Hf'). by exists b'. }
  assert (HI : I b) by done. clear Hg Hp Hf. revert b HI.
  induction ops as [|op ops IH]; intros b HI; [by exists b|].
  apply not_elem_of_cons in Hops as [Hop Hops]. specialize (IH Hops).
  cbn [run].
  assert (Hstep : hoare I (perform random_sample op) (λ _, I) (λ _, I)).
  { destruct op as [row col|row col|row col].
    - intros s Hs. unfold perform, mbind, Op_bind, op_bind.
      pose proof (Hreveal row col s Hs) as H.
      by destruct (Board.reveal_cell random_sample row col s).
    - intros s (Hgs & Hps & Hfs). unfold perform, mbind, Op_bind, op_bind.
      pose proof (flag_cell_cases row col s Hgs) as H.
      destruct (Board.flag_cell row col s) as [[] bf|e bf|]; [| | |done].
      + destruct H as (Hin & Hnr & ->).
        destruct (flag_one_facts (row, col) s Hgs Hin Hnr)
          as (Hgf & (Hw & Hh & _) & _ & _ & _ & _ & _ & Hother).
        split; [done|]. split; [unfold in_bounds in *; lia|].
        rewrite Hother; [done|done|]. intros ->. by apply Hop.
      + by destruct H as (_ & _ & ->).
      + by destruct H as (-> & _).
    - intros s Hs. unfold perform, mbind, Op_bind, op_bind.
      pose proof (expand_adjacent_cells_inv random_sample I row col Hreveal s Hs) as H.
      by destruct (Board.expand_adjacent_cells random_sample row col s). }
  pose proof (Hstep b HI) as H.
  destruct (perform random_sample op b) as [[] s|e s|]; [by apply IH|by apply IH|done].
Qed.

End Flags.

Lemma flagged_cells_stay_flagged_witness :
  let rs := sample_preferring [(0, 0)] in
  ∃ b, run rs [OpReveal 1 1; OpFlag 0 0] (Board.new 4 4 1) = Some b ∧
       grid_ok b ∧ in_bounds b (0, 0) ∧
       Cell._state (Board.cell_at b (0, 0)) = CellState.FlaggedState ∧
       (OpFlag 0 0 ∉ [OpReveal 0 0; OpExpand 1 1; OpFlag 3 3]) ∧
       ∃ b', run rs [OpReveal 0 0; OpExpand 1 1; OpFlag 3 3] b = Some b' ∧
             Cell._state (Board.cell_at b' (0, 0)) = CellState.FlaggedState.
Proof.
  intros rs. subst rs. destruct four_by_four_played as (b & E & [(Hg & _) _] & _).
  exists b. split; [exact E|].
  assert (Eb : b = default (Board.new 4 4 1)
                     (run (sample_preferring [(0, 0)]) [OpReveal 1 1; OpFlag 0 0]
                        (Board.new 4 4 1))).
  { rewrite E. reflexivity. }
  clear E. subst b.
  assert (Hin : in_bounds (default (Board.new 4 4 1)
                     (run (sample_preferring [(0, 0)]) [OpReveal 1 1; OpFlag 0 0]
                        (Board.new 4 4 1))) (0, 0)).
  { vm_compute. split; split; congruence. }
  assert (Hf : Cell._state (Board.cell_at (default (Board.new 4 4 1)
                     (run (sample_preferring [(0, 0)]) [OpReveal 1 1; OpFlag 0 0]
                        (Board.new 4 4 1))) (0, 0)) = CellState.FlaggedState).
  { vm_compute. reflexivity. }
  assert (Hops : OpFlag 0 0 ∉ [OpReveal 0 0; OpExpand 1 1; OpFlag 3 3]).
  { intros H. repeat (apply elem_of_cons in H as [H|H]; [discriminate H|]).
    by apply elem_of_nil in H. }
  split; [exact Hg|]. split; [exact Hin|]. split; [exact Hf|]. split; [exact Hops|].
  exact (flagged_cells_stay_flagged (sample_preferring [(0, 0)]) _ (0, 0)
           [OpReveal 0 0; OpExpand 1 1; OpFlag 3 3] Hg Hin Hf Hops).
Defined.

(** ** The life of a session *)

Section SessionLife.
Context (random_sample : Sampler).

Lemma start_game_facts s0 s now :
  session_ok s0 s → GameSession.state s = PLAYING ∨ GameSession.state s = NEW →
  let s1 := after (GameSession.start_game now) s in
  GameSession.state s1 = PLAYING ∧ GameSession.board s1 = GameSession.board s ∧
  GameSession.start_time s1 ≠ None ∧ GameSession.end_time s1 = None ∧
  GameSession.moves_count s1 = GameSession.moves_count s ∧
  GameSession.flags_used s1 = GameSession.flags_used s.
Proof.
  intros (_ & _ & _ & Hst & Hend & _) Hs s1. subst s1.
  unfold after, GameSession.start_game, mbind, Op_bind, op_bind, get, modify.
  assert (He : GameSession.end_time s = None).
  { apply Hend. by destruct Hs as [-> | ->]. }
  destruct Hs as [Hs|Hs].
  - rewrite bool_decide_eq_false_2 by congruence. cbn. repeat split; try done.
    intros Hn. apply Hst in Hn. congruence.
  - rewrite bool_decide_eq_true_2 by done. cbn. by repeat split.
Qed.

(** A session that is playing, with a sound board and sound counts, is
    sound: the clauses about the other states are vacuous. *)
Lemma session_ok_playing s0 s :
  grid_ok (GameSession.board s) → counters_ok (GameSession.board s) →
  GameSession.state s = PLAYING → GameSession.start_time s ≠ None →
  GameSession.end_time s = None →
  0 ≤ GameSession.moves_count s → 0 ≤ GameSession.flags_used s →
  session_ok s0 s.
Proof.
  intros Hg Hc Hs Hst He Hm Hf. split; [done|]. split; [done|].
  split; [congruence|]. split; [split; [done|congruence]|].
  split; [split; [intros _; split; congruence|done]|].
  split; [congruence|]. split; [congruence|done].
Qed.

Lemma make_move_ok s0 now_start now_end row col action :
  hoare (session_ok s0)
        (GameSession.make_move random_sample now_start now_end row col action)
        (λ _, session_ok s0) (λ _, session_ok s0).
Proof.
  intros s Hok.
  destruct (decide (GameSession.state s = PLAYING ∨ GameSession.state s = NEW)) as [Hs|Hs].
  2:{ unfold GameSession.make_move, mbind, Op_bind, op_bind, get, raise.
      rewrite bool_decide_eq_true_2; [done|].
      split; intros H; apply Hs; [by left|by right]. }
  destruct (start_game_facts s0 s now_start Hok Hs) as (Hs1 & Hb1 & Hst1 & He1 & Hm1 & Hf1).
  pose proof Hok as (Hg & Hc & _ & _ & _ & _ & _ & Hm & Hf).
  destruct (decide (action = "reveal")) as [->|Hr]; [|destruct (decide (action = "flag")) as [->|Hfl]].
  - destruct (make_move_reveal random_sample now_start now_end row col s Hs) as (_ & _ & E).
    rewrite E. clear E.
    pose proof (reveal_cell_counters random_sample row col (GameSession.board s)
                  (conj Hg Hc)) as H.
    destruct (Board.reveal_cell random_sample row col (GameSession.board s))
      as [[] b'|e b'|]; [| | |done]; destruct H as [Hg' Hc'].
    + cbv zeta.
      destruct (Board.check_lose_condition b') eqn:Hl;
        [|destruct (Board.check_win_condition b') eqn:Hw].
      * split; [done|]. split; [done|]. cbn. rewrite Hm1.
        split; [done|]. split; [split; [done|done]|].
        split; [split; [done|intros [_ H]; done]|].
        split; [done|]. split; [done|]. split; [lia|by rewrite Hf1].
      * split; [done|]. split; [done|]. cbn. rewrite Hm1.
        split; [done|]. split; [split; [done|done]|].
        split; [split; [done|intros [H _]; done]|].
        split; [done|]. split; [done|]. split; [lia|by rewrite Hf1].
      * apply session_ok_playing; cbn; try done; rewrite ?Hm1, ?Hf1; lia.
    + apply session_ok_playing; cbn; try done; rewrite ?Hm1, ?Hf1; lia.
    + apply session_ok_playing; cbn; try done; rewrite ?Hm1, ?Hf1; lia.
  - rewrite (make_move_flag random_sample now_start now_end row col s Hs).
    pose proof (flag_cell_counters row col (GameSession.board s) (conj Hg Hc)) as H.
    destruct (Board.flag_cell row col (GameSession.board s))
      as [[] b'|e b'|]; [| | |done]; destruct H as [Hg' Hc'];
      apply session_ok_playing; cbn; try done; rewrite ?Hm1, ?Hf1; lia.
  - unfold GameSession.make_move, mbind, Op_bind, op_bind, get.
    rewrite (bool_decide_eq_false_2 (_ ∧ _)) by (intros [H1 H2]; by destruct Hs).
    rewrite (bool_decide_eq_false_2 (action = "reveal")) by done.
    rewrite (bool_decide_eq_false_2 (action = "flag")) by done.
    unfold mret, Op_ret, op_ret.
    assert (E : (if bool_decide (GameSession.state s = NEW)
                 then GameSession.start_game now_start else λ s, Return tt s) s
                = Return tt (after (GameSession.start_game now_start) s)).
    { unfold after, GameSession.start_game, mbind, Op_bind, op_bind, get, modify.
      case_bool_decide; [|done]. by rewrite bool_decide_eq_true_2. }
    rewrite E. apply session_ok_playing; try done; rewrite ?Hb1, ?Hm1, ?Hf1; done.
Qed.

Lemma expand_adjacent_ok s0 now row col :
  hoare (session_ok s0) (GameSession.expand_adjacent random_sample now row col)
        (λ _, session_ok s0) (λ _, session_ok s0).
Proof.
  intros s Hok. unfold GameSession.expand_adjacent, mbind, Op_bind, op_bind, get, raise.
  case_bool_decide as Hs; [done|].
  pose proof Hok as (Hg & Hc & _ & Hst & Hend & _ & _ & Hm & Hf).
  assert (Hst' : GameSession.start_time s ≠ None).
  { intros H. apply Hst in H. congruence. }
  assert (He : GameSession.end_time s = None).
  { apply Hend. rewrite Hs. done. }
  unfold mret, Op_ret, op_ret, zoom.
  pose proof (expand_adjacent_cells_inv random_sample (λ b, grid_ok b ∧ counters_ok b)
                row col (reveal_cell_counters random_sample) (GameSession.board s)
                (conj Hg Hc)) as H.
  destruct (Board.expand_adjacent_cells random_sample row col (GameSession.board s))
    as [expanded b'|e b'|]; [| |done]; destruct H as [Hg' Hc'].
  2:{ by apply session_ok_playing. }
  case_bool_decide; unfold modify;
    cbn [GameSession.board GameSession.set_board GameSession.set_moves_count];
    [|by apply session_ok_playing].
  destruct (Board.check_win_condition b') eqn:Hw.
  - split; [done|]. split; [done|]. cbn.
    split; [done|]. split; [split; [done|done]|].
    split; [split; [done|intros [H' _]; done]|].
    split; [done|]. split; [done|]. split; [lia|done].
  - apply session_ok_playing; cbn; try done. lia.
Qed.

Lemma pause_resume_ok s0 :
  hoare (session_ok s0) GameSession.pause_game (λ _, session_ok s0) (λ _, session_ok s0) ∧
  hoare (session_ok s0) GameSession.resume_game (λ _, session_ok s0) (λ _, session_ok s0).
Proof.
  split; intros s Hok;
    unfold GameSession.pause_game, GameSession.resume_game, mbind, Op_bind, op_bind,
      get, modify;
    (case_bool_decide as Hs; [|done]);
    destruct Hok as (Hg & Hc & _ & Hst & Hend & _ & _ & Hm & Hf);
    (assert (Hst' : GameSession.start_time s ≠ None)
       by (intros H; apply Hst in H; congruence));
    (assert (He : GameSession.end_time s = None) by (apply Hend; by rewrite Hs)).
  - split; [done|]. split; [done|]. cbn.
    split; [done|]. split; [split; [done|done]|].
    split; [split; [done|done]|]. done.
  - by apply session_ok_playing.
Qed.

(** X24. A session keeps its books. Along any sequence of moves, chords,
    pauses and resumes on a new session, every call ends (it returns or
    raises) and afterwards: the counters of the board agree with its
    cells; the session is new only if nothing has changed since its
    creation; the start time is missing exactly in the new state and the
    end time is set exactly in the won and lost states; a lost session
    shows a mine and a won session satisfies the win condition of its
    board; the move and flag counts are never negative. *)
Theorem session_keeps_its_books (d : DifficultyLevel) (session_id : string)
    (ops : list SessionOp) :
  ∃ s, session_run random_sample ops (GameSession.new d session_id) = Some s ∧
       counters_ok (GameSession.board s) ∧
       (GameSession.state s = NEW → s = GameSession.new d session_id) ∧
       (GameSession.start_time s = None ↔ GameSession.state s = NEW) ∧
       (GameSession.end_time s = None ↔
        GameSession.state s ≠ WON ∧ GameSession.state s ≠ LOST) ∧
       (GameSession.state s = LOST →
        Board.check_lose_condition (GameSession.board s) = true) ∧
       (GameSession.state s = WON →
        Board.check_win_condition (GameSession.board s) = true) ∧
       0 ≤ GameSession.moves_count s ∧ 0 ≤ GameSession.flags_used s.
Proof.
  set (s0 := GameSession.new d session_id).
  enough (H : ∀ s, session_ok s0 s →
                   ∃ s', session_run random_sample ops s = Some s' ∧ session_ok s0 s').
  { destruct (H s0) as (s & E & _ & Hrest); [|by exists s].
    split; [apply grid_ok_new|]. split; [apply counters_ok_new|]. cbn.
    split; [done|]. split; [done|]. split; [split; [done|done]|]. done. }
  induction ops as [|op ops IH]; intros s Hok; [by exists s|].
  cbn [session_run].
  assert (Hstep : match session_perform random_sample op s with
                  | Return _ s' | Raise _ s' => session_ok s0 s'
                  | OutOfFuel => False
                  end).
  { destruct op as [t1 t2 row col action|t row col| |]; unfold session_perform.
    - pose proof (make_move_ok s0 t1 t2 row col action s Hok) as H.
      unfold mbind, Op_bind, op_bind.
      by destruct (GameSession.make_move random_sample t1 t2 row col action s).
    - pose proof (expand_adjacent_ok s0 t row col s Hok) as H.
      unfold mbind, Op_bind, op_bind.
      by destruct (GameSession.expand_adjacent random_sample t row col s).
    - apply (proj1 (pause_resume_ok s0) s Hok).
    - apply (proj2 (pause_resume_ok s0) s Hok). }
  destruct (session_perform random_sample op s) as [[] s'|e s'|]; [by apply IH|by apply IH|done].
Qed.

End SessionLife.
